(** * mcp-explorer: the dashboard's WebSocket hook, the hub's tool dispatch
      and the calculator server, embedded and verified.

    The development follows the TypeScript sources:
    - [dashboard/src/hooks/useWebSocket.ts] (the [useWebSocket] hook): the
      bounded message list, the reconnect policy, and the per-call promises
      with their listeners, timers, in-flight table and result cache;
    - [components/ProtocolInspector.tsx]: [pairedResponse];
    - [server/src/calculator-server.ts]: the [CallToolRequestSchema] handler;
    - [client/src/index.ts]: [executeToolFromDashboard].

    JavaScript numbers are IEEE-754 binary64 values, taken from the Standard
    Library's [SpecFloat]; promises, timers and event listeners are explicit
    components of the hook state, and closures are defunctionalised into the
    data they capture. [Date.now()] and [Math.random()] are inputs of the
    calls and events that read them.

    Of the hook, [connect], the socket handlers, [manualReconnect],
    [executeTool], [listResources], [readResource] and [listTools] are
    embedded; [sendCustomMessage] and the server-management calls follow the
    same pattern as [readResource] and are left out, as is [selectedMessage]. *)

From Stdlib Require Import ZArith List Lia Sorted.
From Stdlib Require Import Floats.SpecFloat.
From stdpp Require Import gmap strings list pretty.

Set Warnings "-register-all".

Open Scope string_scope.
Open Scope Z_scope.
Open Scope list_scope.

(** ** JavaScript values *)

(** binary64 *)
Definition prec : Z := 53.
Definition emax : Z := 1024.

Definition num_of_Z (z : Z) : spec_float := binary_normalize prec emax z 0 false.

(** JSON-shaped values, plus [undefined] for an absent property. *)
Inductive jsval :=
| JUndefined
| JNull
| JBool (b : bool)
| JNum (x : spec_float)
| JStr (s : string)
| JArr (items : list jsval)
| JObj (fields : list (string * jsval)).

(** What the sources leave to the JavaScript engine and this development
    does not compute: printing of numbers that are not safe integers,
    parsing of numeric strings, [Math.pow] and [JSON.stringify]. *)
Class JsEngine := {
  NumberToString_other : spec_float -> string;
  StringToNumber : string -> spec_float;
  Math_pow : spec_float -> spec_float -> spec_float;
  JSON_stringify : jsval -> string;
}.

(** [Some z] when the finite binary64 value [m * 2^e] is an integer below
    2^53 in magnitude. *)
Definition safe_integer (m : positive) (e : Z) : option Z :=
  let z := if 0 <=? e then Z.pos m * 2 ^ e
           else if Z.pos m mod 2 ^ (- e) =? 0 then Z.pos m / 2 ^ (- e)
           else -1 in
  if (0 <=? z) && (z <? 2 ^ 53) then Some z else None.

(** [ToBoolean] *)
Definition truthy (v : jsval) : bool :=
  match v with
  | JUndefined | JNull => false
  | JBool b => b
  | JNum (S754_zero _) | JNum S754_nan => false
  | JNum _ => true
  | JStr s => negb (String.eqb s "")
  | JArr _ | JObj _ => true
  end.

(** Property read [o.k] on a parsed JSON object: the last binding of a
    repeated key wins, an absent key reads [undefined]. *)
Fixpoint lookup_last (k : string) (fields : list (string * jsval)) : option jsval :=
  match fields with
  | [] => None
  | (k', v) :: rest =>
      match lookup_last k rest with
      | Some w => Some w
      | None => if String.eqb k k' then Some v else None
      end
  end.

Definition get_prop (k : string) (fields : list (string * jsval)) : jsval :=
  match lookup_last k fields with
  | Some v => v
  | None => JUndefined
  end.

(** [v.k] for any value [v] that is not [null] or [undefined]. *)
Definition prop (k : string) (v : jsval) : jsval :=
  match v with
  | JObj fields => get_prop k fields
  | _ => JUndefined
  end.

Section Engine.
Context `{JsEngine}.

(** [Number::toString] in radix 10. *)
Definition NumberToString (x : spec_float) : string :=
  match x with
  | S754_nan => "NaN"
  | S754_zero _ => "0"
  | S754_infinity false => "Infinity"
  | S754_infinity true => "-Infinity"
  | S754_finite s m e =>
      match safe_integer m e with
      | Some z => (if s then "-" else "") +:+ pretty z
      | None => NumberToString_other x
      end
  end.

(** [Array.prototype.join(",")] over already converted elements. *)
Fixpoint join_comma (parts : list string) : string :=
  match parts with
  | [] => ""
  | [p] => p
  | p :: rest => p +:+ "," +:+ join_comma rest
  end.

(** [ToString] *)
Fixpoint ToString (v : jsval) : string :=
  match v with
  | JUndefined => "undefined"
  | JNull => "null"
  | JBool true => "true"
  | JBool false => "false"
  | JNum x => NumberToString x
  | JStr s => s
  | JArr items =>
      join_comma (map (fun it => match it with
                                 | JUndefined | JNull => ""
                                 | _ => ToString it
                                 end) items)
  | JObj _ => "[object Object]"
  end.

(** [ToPrimitive]: arrays and plain objects convert through [toString]. *)
Definition ToPrimitive (v : jsval) : jsval :=
  match v with
  | JArr _ | JObj _ => JStr (ToString v)
  | _ => v
  end.

(** [ToNumber] *)
Definition ToNumber (v : jsval) : spec_float :=
  match ToPrimitive v with
  | JUndefined => S754_nan
  | JNull => S754_zero false
  | JBool true => num_of_Z 1
  | JBool false => S754_zero false
  | JNum x => x
  | JStr s => StringToNumber s
  | _ => S754_nan
  end.

(** [a + b] *)
Definition js_add (a b : jsval) : jsval :=
  let pa := ToPrimitive a in
  let pb := ToPrimitive b in
  match pa, pb with
  | JStr _, _ | _, JStr _ => JStr (ToString pa +:+ ToString pb)
  | _, _ => JNum (SFadd prec emax (ToNumber pa) (ToNumber pb))
  end.

(** [a - b], [a * b], [a / b] *)
Definition js_sub (a b : jsval) : jsval :=
  JNum (SFsub prec emax (ToNumber a) (ToNumber b)).
Definition js_mul (a b : jsval) : jsval :=
  JNum (SFmul prec emax (ToNumber a) (ToNumber b)).
Definition js_div (a b : jsval) : jsval :=
  JNum (SFdiv prec emax (ToNumber a) (ToNumber b)).

(** [v === 0] *)
Definition strict_eq_zero (v : jsval) : bool :=
  match v with
  | JNum (S754_zero _) => true
  | _ => false
  end.

(** [v < 0] *)
Definition lt_zero (v : jsval) : bool :=
  SFltb (ToNumber v) (S754_zero false).

(** [Math.pow(b, e)], [Math.sqrt(v)] *)
Definition js_pow (b e : jsval) : jsval :=
  JNum (Math_pow (ToNumber b) (ToNumber e)).
Definition js_sqrt (v : jsval) : jsval :=
  JNum (SFsqrt prec emax (ToNumber v)).

End Engine.

(** Outcome of a block that may [throw new Error(msg)]. *)
Inductive outcome (A : Type) :=
| Return (a : A)
| Throw (message : string).
Arguments Return {A} a.
Arguments Throw {A} message.

(** ** calculator-server.ts *)

Module Calculator.

Record ContentItem := { type : string; text : string }.

(** [isError] is optional: [None] when the property is not set. *)
Record CallToolResult := { content : list ContentItem; isError : option bool }.

(** [request.params] of a [tools/call] request, as the SDK schema types it:
    [arguments] is a record or [undefined]. *)
Record CallToolParams := {
  name : string;
  arguments : option (list (string * jsval));
}.

Definition textResult (t : string) : CallToolResult :=
  {| content := [ {| type := "text"; text := t |} ]; isError := None |}.

Section Handler.
Context `{JsEngine}.

(** The body of the handler's [try] block. *)
Definition callTool_try (params : CallToolParams) : outcome CallToolResult :=
  match arguments params with
  | None => Throw "Arguments are required"
  | Some args =>
      if String.eqb (name params) "add" then
        let a := get_prop "a" args in
        let b := get_prop "b" args in
        let result := js_add a b in
        Return (textResult
          (ToString a +:+ " + " +:+ ToString b +:+ " = " +:+ ToString result))
      else if String.eqb (name params) "subtract" then
        let a := get_prop "a" args in
        let b := get_prop "b" args in
        let result := js_sub a b in
        Return (textResult
          (ToString a +:+ " - " +:+ ToString b +:+ " = " +:+ ToString result))
      else if String.eqb (name params) "multiply" then
        let a := get_prop "a" args in
        let b := get_prop "b" args in
        let result := js_mul a b in
        Return (textResult
          (ToString a +:+ " × " +:+ ToString b +:+ " = " +:+ ToString result))
      else if String.eqb (name params) "divide" then
        let a := get_prop "a" args in
        let b := get_prop "b" args in
        if strict_eq_zero b then Throw "Division by zero is not allowed"
        else
          let result := js_div a b in
          Return (textResult
            (ToString a +:+ " ÷ " +:+ ToString b +:+ " = " +:+ ToString result))
      else if String.eqb (name params) "power" then
        let base := get_prop "base" args in
        let exponent := get_prop "exponent" args in
        let result := js_pow base exponent in
        Return (textResult
          (ToString base +:+ "^" +:+ ToString exponent +:+ " = " +:+ ToString result))
      else if String.eqb (name params) "sqrt" then
        let number := get_prop "number" args in
        if lt_zero number
        then Throw "Cannot calculate square root of negative number"
        else
          let result := js_sqrt number in
          Return (textResult
            ("√" +:+ ToString number +:+ " = " +:+ ToString result))
      else Throw ("Unknown tool: " +:+ name params)
  end.

(** The [CallToolRequestSchema] handler: the [try] block and its [catch]. *)
Definition callTool (params : CallToolParams) : CallToolResult :=
  match callTool_try params with
  | Return r => r
  | Throw message =>
      {| content := [ {| type := "text"; text := "Error: " +:+ message |} ];
         isError := Some true |}
  end.

End Handler.

End Calculator.

(** ** useWebSocket.ts *)

Module Hook.

Inductive MessageType := request | response | notification.
Inductive Direction := client_to_server | server_to_client.

(** [MCPMessage]; optional properties read [undefined] ([JUndefined], or
    [None] for [method]) when absent. *)
Record MCPMessage := {
  id : string;
  timestamp : Z;
  type : MessageType;
  method : option string;
  params : jsval;
  result : jsval;
  error : jsval;
  serverName : string;
  direction : Direction;
}.

Record ServerStatus := {
  name : string;
  server_connected : bool;
  resources : Z;
  tools : Z;
  prompts : Z;
}.

(** A parsed frame from the hub, typed by the control-channel protocol:
    the three pushes, and any other object ([Reply]) with its [type],
    [requestId], [result] and [error] properties. *)
Inductive WsData :=
| InitialState (servers : option (list ServerStatus)) (messages : option (list MCPMessage))
| ServerStatusUpdate (servers : list ServerStatus)
| NewMessage (message : MCPMessage)
| Reply (type : string) (requestId : jsval) (result error : jsval).

(** Frames the dashboard sends to the hub. *)
Inductive Outgoing :=
| SendExecuteTool (requestId serverName toolName : string) (params : jsval)
| SendListResources (requestId serverName : string)
| SendReadResource (requestId serverName uri : string)
| SendListTools (requestId serverName : string).

Inductive PromiseState :=
| Pending
| Fulfilled (value : jsval)
| Rejected (message : jsval).   (* the argument of [new Error(...)] *)

(** The [handleResponse] closures, one constructor per call site, carrying
    the variables each closure captures. *)
Inductive Listener :=
| ExecuteToolListener (requestId requestKey : string) (timeoutId promise : nat)
| ListResourcesListener (requestId requestKey : string) (timeoutId promise : nat)
| ReadResourceListener (requestId serverName : string) (timeoutId promise : nat)
| ListToolsListener (requestId requestKey : string) (timeoutId promise : nat).

(** The callbacks handed to [setTimeout]; [ConnectCallback] is
    [() => connect()]. *)
Inductive TimerCallback :=
| ConnectCallback
| ExecuteToolTimeout (promise : nat)
| ListResourcesTimeout (requestKey : string) (promise : nat)
| ReadResourceTimeout (requestId serverName : string) (promise : nat)
| ListToolsTimeout (requestKey : string) (promise : nat).

Record Timer := { delay : Z; callback : TimerCallback }.

Inductive ReadyState := CONNECTING | OPEN | CLOSING | CLOSED.

Record WebSocket := { readyState : ReadyState; listeners : list Listener }.

#[global] Instance Listener_eq_dec : EqDecision Listener.
Proof. solve_decision. Defined.
#[global] Instance ReadyState_eq_dec : EqDecision ReadyState.
Proof. solve_decision. Defined.

(** The state of one mounted [useWebSocket] hook: its [useState] cells, its
    refs, and the part of the runtime its closures act on (promises, pending
    timers, frames sent). A promise is identified by its index in
    [promises]; a timer by the id [setTimeout] returned. *)
Record HookState := {
  servers : list ServerStatus;
  messages : list MCPMessage;
  connected : bool;
  reconnectAttempts : Z;
  ws : option WebSocket;
  reconnectTimeoutRef : option nat;
  isConnecting : bool;
  ongoingRequests : gmap string nat;
  requestCache : gmap string (jsval * Z);
  promises : list PromiseState;
  timers : gmap nat Timer;
  nextTimer : nat;
  sent : list Outgoing;
  url_ok : bool;   (* whether [new WebSocket(url)] accepts the hook's [url] *)
}.

Definition maxReconnectAttempts : Z := 5.
Definition CACHE_DURATION : Z := 2000.

(** The hook right after mounting: empty state, and the effect's timer
    that calls [connect()] after 3 seconds. *)
Definition initial (url_accepted : bool) : HookState :=
  {| servers := []; messages := []; connected := false;
     reconnectAttempts := 0; ws := None; reconnectTimeoutRef := None;
     isConnecting := false; ongoingRequests := ∅; requestCache := ∅;
     promises := [];
     timers := {[ 1%nat := {| delay := 3000; callback := ConnectCallback |} ]};
     nextTimer := 2; sent := [];
     url_ok := url_accepted |}.

(** Field updates. *)
Definition set_servers v (st : HookState) : HookState :=
  {| servers := v; messages := messages st; connected := connected st;
     reconnectAttempts := reconnectAttempts st; ws := ws st;
     reconnectTimeoutRef := reconnectTimeoutRef st;
     isConnecting := isConnecting st; ongoingRequests := ongoingRequests st;
     requestCache := requestCache st; promises := promises st;
     timers := timers st; nextTimer := nextTimer st; sent := sent st;
     url_ok := url_ok st |}.
Definition set_messages v (st : HookState) : HookState :=
  {| servers := servers st; messages := v; connected := connected st;
     reconnectAttempts := reconnectAttempts st; ws := ws st;
     reconnectTimeoutRef := reconnectTimeoutRef st;
     isConnecting := isConnecting st; ongoingRequests := ongoingRequests st;
     requestCache := requestCache st; promises := promises st;
     timers := timers st; nextTimer := nextTimer st; sent := sent st;
     url_ok := url_ok st |}.
Definition set_connected v (st : HookState) : HookState :=
  {| servers := servers st; messages := messages st; connected := v;
     reconnectAttempts := reconnectAttempts st; ws := ws st;
     reconnectTimeoutRef := reconnectTimeoutRef st;
     isConnecting := isConnecting st; ongoingRequests := ongoingRequests st;
     requestCache := requestCache st; promises := promises st;
     timers := timers st; nextTimer := nextTimer st; sent := sent st;
     url_ok := url_ok st |}.
Definition set_reconnectAttempts v (st : HookState) : HookState :=
  {| servers := servers st; messages := messages st; connected := connected st;
     reconnectAttempts := v; ws := ws st;
     reconnectTimeoutRef := reconnectTimeoutRef st;
     isConnecting := isConnecting st; ongoingRequests := ongoingRequests st;
     requestCache := requestCache st; promises := promises st;
     timers := timers st; nextTimer := nextTimer st; sent := sent st;
     url_ok := url_ok st |}.
Definition set_ws v (st : HookState) : HookState :=
  {| servers := servers st; messages := messages st; connected := connected st;
     reconnectAttempts := reconnectAttempts st; ws := v;
     reconnectTimeoutRef := reconnectTimeoutRef st;
     isConnecting := isConnecting st; ongoingRequests := ongoingRequests st;
     requestCache := requestCache st; promises := promises st;
     timers := timers st; nextTimer := nextTimer st; sent := sent st;
     url_ok := url_ok st |}.
Definition set_reconnectTimeoutRef v (st : HookState) : HookState :=
  {| servers := servers st; messages := messages st; connected := connected st;
     reconnectAttempts := reconnectAttempts st; ws := ws st;
     reconnectTimeoutRef := v;
     isConnecting := isConnecting st; ongoingRequests := ongoingRequests st;
     requestCache := requestCache st; promises := promises st;
     timers := timers st; nextTimer := nextTimer st; sent := sent st;
     url_ok := url_ok st |}.
Definition set_isConnecting v (st : HookState) : HookState :=
  {| servers := servers st; messages := messages st; connected := connected st;
     reconnectAttempts := reconnectAttempts st; ws := ws st;
     reconnectTimeoutRef := reconnectTimeoutRef st;
     isConnecting := v; ongoingRequests := ongoingRequests st;
     requestCache := requestCache st; promises := promises st;
     timers := timers st; nextTimer := nextTimer st; sent := sent st;
     url_ok := url_ok st |}.
Definition set_ongoingRequests v (st : HookState) : HookState :=
  {| servers := servers st; messages := messages st; connected := connected st;
     reconnectAttempts := reconnectAttempts st; ws := ws st;
     reconnectTimeoutRef := reconnectTimeoutRef st;
     isConnecting := isConnecting st; ongoingRequests := v;
     requestCache := requestCache st; promises := promises st;
     timers := timers st; nextTimer := nextTimer st; sent := sent st;
     url_ok := url_ok st |}.
Definition set_requestCache v (st : HookState) : HookState :=
  {| servers := servers st; messages := messages st; connected := connected st;
     reconnectAttempts := reconnectAttempts st; ws := ws st;
     reconnectTimeoutRef := reconnectTimeoutRef st;
     isConnecting := isConnecting st; ongoingRequests := ongoingRequests st;
     requestCache := v; promises := promises st;
     timers := timers st; nextTimer := nextTimer st; sent := sent st;
     url_ok := url_ok st |}.
Definition set_promises v (st : HookState) : HookState :=
  {| servers := servers st; messages := messages st; connected := connected st;
     reconnectAttempts := reconnectAttempts st; ws := ws st;
     reconnectTimeoutRef := reconnectTimeoutRef st;
     isConnecting := isConnecting st; ongoingRequests := ongoingRequests st;
     requestCache := requestCache st; promises := v;
     timers := timers st; nextTimer := nextTimer st; sent := sent st;
     url_ok := url_ok st |}.
Definition set_timers v n (st : HookState) : HookState :=
  {| servers := servers st; messages := messages st; connected := connected st;
     reconnectAttempts := reconnectAttempts st; ws := ws st;
     reconnectTimeoutRef := reconnectTimeoutRef st;
     isConnecting := isConnecting st; ongoingRequests := ongoingRequests st;
     requestCache := requestCache st; promises := promises st;
     timers := v; nextTimer := n; sent := sent st;
     url_ok := url_ok st |}.
Definition set_sent v (st : HookState) : HookState :=
  {| servers := servers st; messages := messages st; connected := connected st;
     reconnectAttempts := reconnectAttempts st; ws := ws st;
     reconnectTimeoutRef := reconnectTimeoutRef st;
     isConnecting := isConnecting st; ongoingRequests := ongoingRequests st;
     requestCache := requestCache st; promises := promises st;
     timers := timers st; nextTimer := nextTimer st; sent := v;
     url_ok := url_ok st |}.

(** [l.slice(-n)]: the last [n] elements, all of [l] when it is shorter. *)
Definition slice_last {A} (n : nat) (l : list A) : list A :=
  drop (length l - n) l.

(** [setState(prev => ({...prev, messages: [...prev.messages, m].slice(-100)}))] *)
Definition appendMessage (m : MCPMessage) (st : HookState) : HookState :=
  set_messages (slice_last 100 (messages st ++ [m])) st.

(** *** Promises, timers, listeners *)

(** [new Promise(...)]: a fresh pending promise. *)
Definition new_Promise (st : HookState) : nat * HookState :=
  (length (promises st), set_promises (promises st ++ [Pending]) st).

(** [Promise.resolve(v)]: a fresh promise, already fulfilled. *)
Definition Promise_resolve (v : jsval) (st : HookState) : nat * HookState :=
  (length (promises st), set_promises (promises st ++ [Fulfilled v]) st).

(** The promise's [resolve] and [reject] functions: they act on a pending
    promise and do nothing on a settled one. Updates are written as the new
    value of the one field they touch. *)
Definition settle (p : nat) (o : PromiseState) (st : HookState) : HookState :=
  set_promises
    match promises st !! p with
    | Some Pending => <[p := o]> (promises st)
    | _ => promises st
    end st.
Definition resolve (p : nat) (v : jsval) : HookState -> HookState :=
  settle p (Fulfilled v).
Definition reject (p : nat) (message : jsval) : HookState -> HookState :=
  settle p (Rejected message).

Definition setTimeout (cb : TimerCallback) (ms : Z) (st : HookState) : nat * HookState :=
  (nextTimer st,
   set_timers (<[nextTimer st := {| delay := ms; callback := cb |}]> (timers st))
              (S (nextTimer st)) st).

Definition clearTimeout (timeoutId : nat) (st : HookState) : HookState :=
  set_timers (delete timeoutId (timers st)) (nextTimer st) st.

(** [if (ws.current) ws.current.addEventListener('message', l)] *)
Definition addEventListener (l : Listener) (st : HookState) : HookState :=
  set_ws
    match ws st with
    | Some sock => Some {| readyState := readyState sock;
                           listeners := listeners sock ++ [l] |}
    | None => None
    end st.

(** [ws.current?.removeEventListener('message', l)] *)
Definition removeEventListener (l : Listener) (st : HookState) : HookState :=
  set_ws
    match ws st with
    | Some sock => Some {| readyState := readyState sock;
                           listeners := filter (fun l' => l' ≠ l) (listeners sock) |}
    | None => None
    end st.

Definition sendMessage (m : Outgoing) (st : HookState) : HookState :=
  set_sent
    match ws st with
    | Some sock =>
        if decide (readyState sock = OPEN) then sent st ++ [m] else sent st
    | None => sent st       (* console.error: cannot send *)
    end st.

(** *** Result cache *)

Definition getCachedResult (now : Z) (requestKey : string) (st : HookState) : jsval :=
  match requestCache st !! requestKey with
  | Some (result, timestamp) =>
      if now - timestamp <? CACHE_DURATION then result else JNull
  | None => JNull
  end.

Definition setCachedResult (now : Z) (requestKey : string) (result : jsval)
    (st : HookState) : HookState :=
  set_requestCache (<[requestKey := (result, now)]> (requestCache st)) st.

(** [new Error(e.message || fallback)], kept as the constructor's argument. *)
Definition errorMessage (e : jsval) (fallback : string) : jsval :=
  if truthy (prop "message" e) then prop "message" e else JStr fallback.

(** [data.requestId === requestId] *)
Definition is_requestId (v : jsval) (requestId : string) : bool :=
  match v with
  | JStr s => String.eqb s requestId
  | _ => false
  end.

(** [`${prefix}${Date.now()}_${Math.random().toString(36).substr(2, 9)}`];
    [rnd] is the random suffix. *)
Definition makeRequestId (prefix : string) (now : Z) (rnd : string) : string :=
  prefix +:+ pretty now +:+ "_" +:+ rnd.

(** *** Connection life cycle *)

Definition connect (st : HookState) : HookState :=
  if isConnecting st then st
  else
    let st := set_isConnecting true st in
    let st := set_ws
                match ws st with
                | Some sock =>
                    if decide (readyState sock = CLOSED) then Some sock
                    else Some {| readyState := CLOSING; listeners := listeners sock |}
                | None => None
                end st in
    if url_ok st
    then set_ws (Some {| readyState := CONNECTING; listeners := [] |}) st
    else set_isConnecting false st.

Definition onopen (st : HookState) : HookState :=
  let st := set_connected true st in
  let st := set_reconnectAttempts 0 st in
  set_isConnecting false st.

Definition onclose (code : Z) (st : HookState) : HookState :=
  let st := set_connected false st in
  let st := set_isConnecting false st in
  if negb (code =? 1000) then
    let currentAttempts := reconnectAttempts st in
    if currentAttempts <? maxReconnectAttempts then
      let timeout := Z.min (2000 + (currentAttempts * 1000)) 10000 in
      let '(timeoutId, st) := setTimeout ConnectCallback timeout st in
      let st := set_reconnectTimeoutRef (Some timeoutId) st in
      set_reconnectAttempts (currentAttempts + 1) st
    else st
  else st.

Definition onerror (st : HookState) : HookState :=
  set_isConnecting false st.

Definition manualReconnect (st : HookState) : HookState :=
  let st := set_reconnectAttempts 0 st in
  let st := match reconnectTimeoutRef st with
            | Some timeoutId => clearTimeout timeoutId st
            | None => st
            end in
  connect st.

(** [ws.current.onmessage] *)
Definition onmessage (data : option WsData) (st : HookState) : HookState :=
  match data with
  | Some (InitialState servers messages) =>
      set_messages (default [] messages) (set_servers (default [] servers) st)
  | Some (ServerStatusUpdate servers) => set_servers servers st
  | Some (NewMessage message) => appendMessage message st
  | Some (Reply _ _ _ _) => st     (* default: unknown message type *)
  | None => st                     (* JSON.parse threw; caught *)
  end.

(** *** The observer's calls *)

Section Calls.
Context `{JsEngine}.

Definition createRequestKey (type serverName : string) (params : option jsval) : string :=
  let paramString := match params with
                     | Some p => if truthy p then JSON_stringify p else ""
                     | None => ""
                     end in
  type +:+ ":" +:+ serverName +:+ ":" +:+ paramString.

Definition executeTool (now : Z) (rnd : string) (serverName toolName : string)
    (params : jsval) (st : HookState) : nat * HookState :=
  let requestKey :=
    createRequestKey "executeTool" serverName
      (Some (JObj [("toolName", JStr toolName); ("params", params)])) in
  let cachedResult := getCachedResult now requestKey st in
  if truthy cachedResult &&
     match requestCache st !! requestKey with
     | Some (_, timestamp) => now - timestamp <? 500
     | None => false
     end
  then Promise_resolve cachedResult st
  else
    let '(promise, st) := new_Promise st in
    let requestId := makeRequestId "tool_" now rnd in
    let '(timeoutId, st) := setTimeout (ExecuteToolTimeout promise) 30000 st in
    let handleResponse := ExecuteToolListener requestId requestKey timeoutId promise in
    let st := addEventListener handleResponse st in
    let st := sendMessage (SendExecuteTool requestId serverName toolName params) st in
    (promise, st).

Definition listResources (now : Z) (rnd : string) (serverName : string)
    (st : HookState) : nat * HookState :=
  let requestKey := createRequestKey "listResources" serverName None in
  let cachedResult := getCachedResult now requestKey st in
  if truthy cachedResult then Promise_resolve cachedResult st
  else
    match ongoingRequests st !! requestKey with
    | Some existingRequest => (existingRequest, st)
    | None =>
        let '(promise, st) := new_Promise st in
        let requestId := makeRequestId "resources_" now rnd in
        let '(timeoutId, st) :=
          setTimeout (ListResourcesTimeout requestKey promise) 10000 st in
        let handleResponse :=
          ListResourcesListener requestId requestKey timeoutId promise in
        let st := addEventListener handleResponse st in
        let st := sendMessage (SendListResources requestId serverName) st in
        let st := set_ongoingRequests
                    (<[requestKey := promise]> (ongoingRequests st)) st in
        (promise, st)
    end.

Definition readResource (now : Z) (rnd : string) (serverName uri : string)
    (st : HookState) : nat * HookState :=
  let '(promise, st) := new_Promise st in
  let requestId := makeRequestId "read_resource_" now rnd in
  let requestMessage :=
    {| id := requestId; timestamp := now; type := request;
       method := Some "resources/read";
       params := JObj [("uri", JStr uri)];
       result := JUndefined; error := JUndefined;
       serverName := serverName; direction := client_to_server |} in
  let st := appendMessage requestMessage st in
  let '(timeoutId, st) :=
    setTimeout (ReadResourceTimeout requestId serverName promise) 10000 st in
  let handleResponse := ReadResourceListener requestId serverName timeoutId promise in
  let st := addEventListener handleResponse st in
  let st := sendMessage (SendReadResource requestId serverName uri) st in
  (promise, st).

Definition listTools (now : Z) (rnd : string) (serverName : string)
    (st : HookState) : nat * HookState :=
  let requestKey := createRequestKey "listTools" serverName None in
  let cachedResult := getCachedResult now requestKey st in
  if truthy cachedResult then Promise_resolve cachedResult st
  else
    match ongoingRequests st !! requestKey with
    | Some existingRequest => (existingRequest, st)
    | None =>
        let '(promise, st) := new_Promise st in
        let requestId := makeRequestId "tools_" now rnd in
        let '(timeoutId, st) :=
          setTimeout (ListToolsTimeout requestKey promise) 10000 st in
        let handleResponse :=
          ListToolsListener requestId requestKey timeoutId promise in
        let st := addEventListener handleResponse st in
        let st := sendMessage (SendListTools requestId serverName) st in
        let st := set_ongoingRequests
                    (<[requestKey := promise]> (ongoingRequests st)) st in
        (promise, st)
    end.

End Calls.

(** *** The closures run by the event loop *)

(** A [handleResponse] closure applied to a frame received at time [now];
    [None] is a frame that [JSON.parse] rejects (the exception is caught
    and ignored). *)
Definition handleResponse (now : Z) (l : Listener) (data : option WsData)
    (st : HookState) : HookState :=
  match data with
  | Some (Reply data_type data_requestId data_result data_error) =>
      match l with
      | ExecuteToolListener requestId requestKey timeoutId promise =>
          if String.eqb data_type "tool-response" && is_requestId data_requestId requestId
          then
            let st := clearTimeout timeoutId st in
            let st := removeEventListener l st in
            if truthy data_error
            then reject promise (errorMessage data_error "Tool execution failed") st
            else
              let st := setCachedResult now requestKey data_result st in
              resolve promise data_result st
          else st
      | ListResourcesListener requestId requestKey timeoutId promise =>
          if String.eqb data_type "resources-response" && is_requestId data_requestId requestId
          then
            let st := clearTimeout timeoutId st in
            let st := removeEventListener l st in
            if truthy data_error
            then
              let st := set_ongoingRequests (delete requestKey (ongoingRequests st)) st in
              reject promise (errorMessage data_error "Failed to list resources") st
            else
              let st := setCachedResult now requestKey data_result st in
              let st := set_ongoingRequests (delete requestKey (ongoingRequests st)) st in
              resolve promise data_result st
          else st
      | ReadResourceListener requestId serverName timeoutId promise =>
          if String.eqb data_type "read-resource-response" && is_requestId data_requestId requestId
          then
            let st := clearTimeout timeoutId st in
            let st := removeEventListener l st in
            let responseMessage :=
              {| id := requestId +:+ "_response"; timestamp := now; type := response;
                 method := None; params := JUndefined;
                 result := data_result; error := data_error;
                 serverName := serverName; direction := server_to_client |} in
            let st := appendMessage responseMessage st in
            if truthy data_error
            then reject promise (errorMessage data_error "Failed to read resource") st
            else resolve promise data_result st
          else st
      | ListToolsListener requestId requestKey timeoutId promise =>
          if String.eqb data_type "tools-response" && is_requestId data_requestId requestId
          then
            let st := clearTimeout timeoutId st in
            let st := removeEventListener l st in
            if truthy data_error
            then
              let st := set_ongoingRequests (delete requestKey (ongoingRequests st)) st in
              reject promise (errorMessage data_error "Failed to list tools") st
            else
              let st := setCachedResult now requestKey data_result st in
              let st := set_ongoingRequests (delete requestKey (ongoingRequests st)) st in
              resolve promise data_result st
          else st
      end
  | _ => st
  end.

(** A timer callback run at time [now]. *)
Definition runTimer (now : Z) (cb : TimerCallback) (st : HookState) : HookState :=
  match cb with
  | ConnectCallback => connect st
  | ExecuteToolTimeout promise =>
      reject promise (JStr "Tool execution timeout") st
  | ListResourcesTimeout requestKey promise =>
      let st := set_ongoingRequests (delete requestKey (ongoingRequests st)) st in
      reject promise (JStr "List resources timeout") st
  | ReadResourceTimeout requestId serverName promise =>
      let errorMessage :=
        {| id := requestId +:+ "_timeout"; timestamp := now; type := response;
           method := None; params := JUndefined; result := JUndefined;
           error := JObj [("message", JStr "Read resource timeout")];
           serverName := serverName; direction := server_to_client |} in
      let st := appendMessage errorMessage st in
      reject promise (JStr "Read resource timeout") st
  | ListToolsTimeout requestKey promise =>
      let st := set_ongoingRequests (delete requestKey (ongoingRequests st)) st in
      reject promise (JStr "List tools timeout") st
  end.

(** Delivery of one [message] event on the current socket: the [onmessage]
    handler first, then every listener that was attached when the dispatch
    began and has not been removed since. *)
Definition dispatchMessage (now : Z) (data : option WsData) (st : HookState) : HookState :=
  match ws st with
  | Some sock =>
      fold_left
        (fun st l =>
           match ws st with
           | Some sock' =>
               if decide (l ∈ listeners sock') then handleResponse now l data st else st
           | None => st
           end)
        (listeners sock) (onmessage data st)
  | None => st
  end.

Definition set_readyState (rs : ReadyState) (st : HookState) : HookState :=
  set_ws
    match ws st with
    | Some sock => Some {| readyState := rs; listeners := listeners sock |}
    | None => None
    end st.

(** *** The event loop *)

(** What can happen to a mounted hook: events of the current socket ([open]
    on a CONNECTING socket, [close] on one not yet CLOSED, [message] on an
    OPEN one), the [close] event of a socket that [connect] has replaced, a
    timer coming due, and calls of the functions the hook returns. [now] is the value
    [Date.now()] returns during the event, [rnd] the suffix drawn from
    [Math.random()]. *)
Inductive Event :=
| SocketOpen
| SocketClose (code : Z)
| OldSocketClose (code : Z)
| SocketError
| SocketMessage (now : Z) (data : option WsData)
| TimerFires (now : Z) (timeoutId : nat)
| CallManualReconnect
| CallExecuteTool (now : Z) (rnd serverName toolName : string) (params : jsval)
| CallListResources (now : Z) (rnd serverName : string)
| CallReadResource (now : Z) (rnd serverName uri : string)
| CallListTools (now : Z) (rnd serverName : string).

Section Loop.
Context `{JsEngine}.

Definition step (st : HookState) (e : Event) : HookState :=
  match e with
  | SocketOpen =>
      match ws st with
      | Some sock =>
          if decide (readyState sock = CONNECTING)
          then onopen (set_readyState OPEN st) else st
      | None => st
      end
  | SocketClose code =>
      match ws st with
      | Some sock =>
          if decide (readyState sock = CLOSED) then st
          else onclose code (set_readyState CLOSED st)
      | None => st
      end
  | OldSocketClose code => onclose code st
  | SocketError =>
      match ws st with
      | Some _ => onerror st
      | None => st
      end
  | SocketMessage now data =>
      match ws st with
      | Some sock =>
          if decide (readyState sock = OPEN) then dispatchMessage now data st else st
      | None => st
      end
  | TimerFires now timeoutId =>
      match timers st !! timeoutId with
      | Some t => runTimer now (callback t) (clearTimeout timeoutId st)
      | None => st
      end
  | CallManualReconnect => manualReconnect st
  | CallExecuteTool now rnd serverName toolName params =>
      snd (executeTool now rnd serverName toolName params st)
  | CallListResources now rnd serverName =>
      snd (listResources now rnd serverName st)
  | CallReadResource now rnd serverName uri =>
      snd (readResource now rnd serverName uri st)
  | CallListTools now rnd serverName =>
      snd (listTools now rnd serverName st)
  end.

Definition run (st : HookState) (events : list Event) : HookState :=
  fold_left step events st.

(** The timer an event arms, if it arms one. *)
Definition armedBy (st : HookState) (e : Event) : option Timer :=
  if decide (nextTimer (step st e) = S (nextTimer st))
  then timers (step st e) !! nextTimer st
  else None.

(** The reconnect timers armed along a run, in order: for each, the
    attempt count before it was armed and its delay. *)
Fixpoint reconnectLog (st : HookState) (events : list Event) : list (Z * Z) :=
  match events with
  | [] => []
  | e :: rest =>
      match armedBy st e with
      | Some {| delay := d; callback := ConnectCallback |} =>
          (reconnectAttempts st, d) :: reconnectLog (step st e) rest
      | _ => reconnectLog (step st e) rest
      end
  end.

End Loop.

#[global] Instance MessageType_eq_dec : EqDecision MessageType.
Proof. solve_decision. Defined.

(** [ProtocolInspector.tsx]: the response paired with the selected message. *)
Definition pairedResponse (message : option MCPMessage) (messages : list MCPMessage)
    : option MCPMessage :=
  match message with
  | None => None
  | Some message =>
      if decide (type message = request)
      then find (fun msg => bool_decide (type msg = response)
                            && String.eqb (id msg) (id message)) messages
      else None
  end.

End Hook.

(** ** client/src/index.ts: the hub's tool dispatch *)

Module Hub.

(** An entry of [this.servers]: the connection flag and the server's
    [client.callTool], which returns a result or throws. *)
Record ServerEntry := {
  connected : bool;
  callTool : Calculator.CallToolParams -> outcome Calculator.CallToolResult;
}.

(** The [tool-response] frame: [result] or [error: {message}]. *)
Inductive ToolResponseBody :=
| result (r : Calculator.CallToolResult)
| error (message : string).

Record ToolResponse := {
  type : string;
  requestId : string;
  body : ToolResponseBody;
}.

(** [executeToolFromDashboard]; the value is the frame written to the
    observer's socket, [None] when nothing is sent ([ws.readyState] is not 1). *)
Definition executeToolFromDashboard (ws_readyState : Z) (requestId serverName toolName : string)
    (params : option (list (string * jsval))) (servers : gmap string ServerEntry)
    : option ToolResponse :=
  let reply b :=
    if ws_readyState =? 1
    then Some {| type := "tool-response"; requestId := requestId; body := b |}
    else None in
  match servers !! serverName with
  | None => reply (error ("Server " +:+ serverName +:+ " not found"))
  | Some server =>
      if negb (connected server)
      then reply (error ("Server " +:+ serverName +:+ " is not connected"))
      else
        match callTool server {| Calculator.name := toolName;
                                 Calculator.arguments := params |} with
        | Return r => reply (result r)
        | Throw message => reply (error message)
        end
  end.

End Hub.

(** ** Sample inputs and vocabulary of the statements *)

(** An engine to run the model on sample inputs. The engine functions are
    only reached when a non-integer number is printed, a string is read as
    a number, a power is taken or a cache key is built from parameters. *)
Definition sampleEngine : JsEngine :=
  {| NumberToString_other := fun _ => "";
     StringToNumber := fun _ => S754_nan;
     Math_pow := fun _ _ => S754_nan;
     JSON_stringify := fun _ => "" |}.

Definition add_5_3 : Calculator.CallToolParams :=
  {| Calculator.name := "add";
     Calculator.arguments :=
       Some [("a", JNum (num_of_Z 5)); ("b", JNum (num_of_Z 3))] |}.

(** [server.client.callTool] of a connected calculator server: the request
    reaches the server's handler and its result comes back. *)
Definition calculatorEntry `{JsEngine} : Hub.ServerEntry :=
  {| Hub.connected := true;
     Hub.callTool := fun params => Return (Calculator.callTool params) |}.

(** The result the handler's [catch] block builds from a thrown error. *)
Definition errorResult (message : string) : Calculator.CallToolResult :=
  {| Calculator.content :=
       [ {| Calculator.type := "text";
            Calculator.text := "Error: " +:+ message |} ];
     Calculator.isError := Some true |}.

Definition toolNames : list string :=
  ["add"; "subtract"; "multiply"; "divide"; "power"; "sqrt"].

Definition toolCall (n : string) (args : list (string * jsval)) : Calculator.CallToolParams :=
  {| Calculator.name := n; Calculator.arguments := Some args |}.


Definition notManualReconnect (e : Hook.Event) : bool :=
  match e with
  | Hook.CallManualReconnect => false
  | _ => true
  end.


(** The hook after its automatic attempts are used up: the counter is at
    the maximum, the status is disconnected, the socket (if any) is not
    connecting and no timer is left that would call [connect()]. *)
Definition exhausted (st : Hook.HookState) : Prop :=
  Hook.reconnectAttempts st = Hook.maxReconnectAttempts
  /\ Hook.connected st = false
  /\ (forall sock, Hook.ws st = Some sock -> Hook.readyState sock <> Hook.CONNECTING)
  /\ (forall i t, Hook.timers st !! i = Some t -> Hook.callback t <> Hook.ConnectCallback).

(** A sample episode: the mount timer fires, the first connection fails,
    and so do the reconnect attempts that follow. *)
Definition failingEpisode : list Hook.Event :=
  [ Hook.TimerFires 3000 1; Hook.SocketClose 1006;
    Hook.TimerFires 5000 2; Hook.SocketClose 1006;
    Hook.TimerFires 8000 3; Hook.SocketClose 1006;
    Hook.TimerFires 12000 4; Hook.SocketClose 1006;
    Hook.TimerFires 17000 5; Hook.SocketClose 1006;
    Hook.TimerFires 23000 6; Hook.SocketClose 1006 ].

(** A sample session: the mount timer fires, the socket opens, the
    observer reads a resource and the hub answers that request. *)
Definition readSession : list Hook.Event :=
  [ Hook.TimerFires 3000 1; Hook.SocketOpen;
    Hook.CallReadResource 4000 "k3x9q2m1z" "file-server" "file:///readme.txt";
    Hook.SocketMessage 4100
      (Some (Hook.Reply "read-resource-response"
               (JStr "read_resource_4000_k3x9q2m1z")
               (JObj [("contents", JArr [])]) JUndefined)) ].

(** The frame type a [handleResponse] closure waits for, and its request id. *)
Definition responseType (l : Hook.Listener) : string :=
  match l with
  | Hook.ExecuteToolListener _ _ _ _ => "tool-response"
  | Hook.ListResourcesListener _ _ _ _ => "resources-response"
  | Hook.ReadResourceListener _ _ _ _ => "read-resource-response"
  | Hook.ListToolsListener _ _ _ _ => "tools-response"
  end.

Definition listenerRequestId (l : Hook.Listener) : string :=
  match l with
  | Hook.ExecuteToolListener requestId _ _ _
  | Hook.ListResourcesListener requestId _ _ _
  | Hook.ReadResourceListener requestId _ _ _
  | Hook.ListToolsListener requestId _ _ _ => requestId
  end.

Definition listenerPromise (l : Hook.Listener) : nat :=
  match l with
  | Hook.ExecuteToolListener _ _ _ promise
  | Hook.ListResourcesListener _ _ _ promise
  | Hook.ReadResourceListener _ _ _ promise
  | Hook.ListToolsListener _ _ _ promise => promise
  end.

Definition listenerTimeoutId (l : Hook.Listener) : nat :=
  match l with
  | Hook.ExecuteToolListener _ _ timeoutId _
  | Hook.ListResourcesListener _ _ timeoutId _
  | Hook.ReadResourceListener _ _ timeoutId _
  | Hook.ListToolsListener _ _ timeoutId _ => timeoutId
  end.

(** The hub's reply to the request a listener waits for. *)
Definition replyTo (l : Hook.Listener) (result error : jsval) : Hook.WsData :=
  Hook.Reply (responseType l) (JStr (listenerRequestId l)) result error.

(** [l] is attached to the current socket. *)
Definition attached (l : Hook.Listener) (st : Hook.HookState) : Prop :=
  exists sock, Hook.ws st = Some sock /\ l ∈ Hook.listeners sock.

(** The hook with an open socket and nothing in flight: mounted, the mount
    timer fired, the socket opened. *)
Definition openHook `{JsEngine} : Hook.HookState :=
  Hook.run (Hook.initial true) [Hook.TimerFires 3000 1; Hook.SocketOpen].

(** A call that created a new pending promise (it was not answered from
    the cache and did not join a request in flight): [p] is the promise it
    returned, [st] the state before and [st1] the state after the call. *)
Definition issued (st st1 : Hook.HookState) (p : nat) : Prop :=
  p = length (Hook.promises st) /\ Hook.promises st1 !! p = Some Hook.Pending.

Definition addParams : jsval :=
  JObj [("a", JNum (num_of_Z 5)); ("b", JNum (num_of_Z 3))].

(** *** Vocabulary for the life of one call *)

Definition callbackPromise (cb : Hook.TimerCallback) : option nat :=
  match cb with
  | Hook.ConnectCallback => None
  | Hook.ExecuteToolTimeout promise
  | Hook.ListResourcesTimeout _ promise
  | Hook.ReadResourceTimeout _ _ promise
  | Hook.ListToolsTimeout _ promise => Some promise
  end.

(** The rejection a timeout callback produces. *)
Definition timeoutOutcome (cb : Hook.TimerCallback) : Hook.PromiseState :=
  Hook.Rejected
    (JStr match cb with
          | Hook.ConnectCallback => ""
          | Hook.ExecuteToolTimeout _ => "Tool execution timeout"
          | Hook.ListResourcesTimeout _ _ => "List resources timeout"
          | Hook.ReadResourceTimeout _ _ _ => "Read resource timeout"
          | Hook.ListToolsTimeout _ _ => "List tools timeout"
          end).

Definition fallbackMessage (l : Hook.Listener) : string :=
  match l with
  | Hook.ExecuteToolListener _ _ _ _ => "Tool execution failed"
  | Hook.ListResourcesListener _ _ _ _ => "Failed to list resources"
  | Hook.ReadResourceListener _ _ _ _ => "Failed to read resource"
  | Hook.ListToolsListener _ _ _ _ => "Failed to list tools"
  end.

(** How a listener settles its promise on the reply it waits for: with the
    error payload when the frame has a truthy [error], else with [result]. *)
Definition replyOutcome (l : Hook.Listener) (result error : jsval) : Hook.PromiseState :=
  if truthy error
  then Hook.Rejected (Hook.errorMessage error (fallbackMessage l))
  else Hook.Fulfilled result.

(** The frame is the one listener [l] waits for. *)
Definition matches (l : Hook.Listener) (data : option Hook.WsData) : bool :=
  match data with
  | Some (Hook.Reply data_type data_requestId _ _) =>
      String.eqb data_type (responseType l)
      && Hook.is_requestId data_requestId (listenerRequestId l)
  | _ => false
  end.

(** Well-formed hook states: listeners and timers refer to promises and
    timers that exist, and the cache keys held by [executeTool] listeners
    are [executeTool] keys. Every reachable state is well formed. *)
Definition wf `{JsEngine} (s : Hook.HookState) : Prop :=
  (forall l, attached l s ->
     (listenerPromise l < length (Hook.promises s))%nat
     /\ (listenerTimeoutId l < Hook.nextTimer s)%nat)
  /\ (forall timeoutId t, Hook.timers s !! timeoutId = Some t ->
        (timeoutId < Hook.nextTimer s)%nat
        /\ forall p, callbackPromise (Hook.callback t) = Some p ->
                     (p < length (Hook.promises s))%nat)
  /\ (forall timeoutId, Hook.reconnectTimeoutRef s = Some timeoutId ->
        (timeoutId < Hook.nextTimer s)%nat)
  /\ (forall requestId requestKey timeoutId p,
        attached (Hook.ExecuteToolListener requestId requestKey timeoutId p) s ->
        exists serverName params,
          requestKey = Hook.createRequestKey "executeTool" serverName (Some params)).

(** What one event can do to the promises, timers and listeners of the
    hook, [s] before and [s'] after the event [e]. *)
Record footprint `{JsEngine} (s : Hook.HookState) (e : Hook.Event) (s' : Hook.HookState) : Prop := {
  fp_nextTimer : (Hook.nextTimer s <= Hook.nextTimer s')%nat;
  fp_length : (length (Hook.promises s) <= length (Hook.promises s'))%nat;
  fp_new_timer : forall timeoutId t,
    Hook.timers s' !! timeoutId = Some t ->
    Hook.timers s !! timeoutId = Some t
    \/ (timeoutId = Hook.nextTimer s /\ (timeoutId < Hook.nextTimer s')%nat
        /\ forall p, callbackPromise (Hook.callback t) = Some p ->
                     p = length (Hook.promises s)
                     /\ (p < length (Hook.promises s'))%nat);
  fp_new_listener : forall l,
    attached l s' ->
    attached l s
    \/ (listenerPromise l = length (Hook.promises s)
        /\ (listenerPromise l < length (Hook.promises s'))%nat
        /\ listenerTimeoutId l = Hook.nextTimer s
        /\ (Hook.nextTimer s < Hook.nextTimer s')%nat
        /\ forall requestId requestKey timeoutId p,
             l = Hook.ExecuteToolListener requestId requestKey timeoutId p ->
             exists serverName params,
               requestKey = Hook.createRequestKey "executeTool" serverName (Some params));
  fp_ref : forall timeoutId,
    Hook.reconnectTimeoutRef s' = Some timeoutId ->
    Hook.reconnectTimeoutRef s = Some timeoutId
    \/ (timeoutId = Hook.nextTimer s /\ (timeoutId < Hook.nextTimer s')%nat);
  fp_timer_gone : forall timeoutId t,
    Hook.timers s !! timeoutId = Some t ->
    Hook.timers s' !! timeoutId = Some t
    \/ (exists now, e = Hook.TimerFires now timeoutId)
    \/ (exists l, attached l s /\ listenerTimeoutId l = timeoutId
                  /\ Hook.promises s' !! listenerPromise l <> Some Hook.Pending)
    \/ Hook.reconnectTimeoutRef s = Some timeoutId;
  fp_timer_fires : forall now timeoutId t p,
    e = Hook.TimerFires now timeoutId ->
    Hook.timers s !! timeoutId = Some t ->
    callbackPromise (Hook.callback t) = Some p ->
    Hook.promises s !! p = Some Hook.Pending ->
    Hook.promises s' !! p = Some (timeoutOutcome (Hook.callback t));
  fp_promise : forall p o,
    Hook.promises s !! p = Some o ->
    Hook.promises s' !! p = Some o
    \/ (o = Hook.Pending
        /\ ((exists now timeoutId t,
               e = Hook.TimerFires now timeoutId
               /\ Hook.timers s !! timeoutId = Some t
               /\ callbackPromise (Hook.callback t) = Some p
               /\ Hook.promises s' !! p = Some (timeoutOutcome (Hook.callback t)))
            \/ (exists now l result error,
                  e = Hook.SocketMessage now (Some (replyTo l result error))
                  /\ attached l s /\ listenerPromise l = p
                  /\ Hook.promises s' !! p = Some (replyOutcome l result error))));
  fp_cache : forall k,
    Hook.requestCache s' !! k = Hook.requestCache s !! k
    \/ Hook.ongoingRequests s' !! k = None
    \/ (exists requestId timeoutId p,
          attached (Hook.ExecuteToolListener requestId k timeoutId p) s);
  fp_ongoing : forall k q,
    Hook.ongoingRequests s' !! k = Some q ->
    Hook.ongoingRequests s !! k = Some q
    \/ (q = length (Hook.promises s) /\ (q < length (Hook.promises s'))%nat);
}.

(** What the handlers run during one delivery of [data] have done so far,
    [st] at the start of the delivery and [s] now. *)
Record delivering (st : Hook.HookState) (data : option Hook.WsData) (s : Hook.HookState) : Prop := {
  dl_nextTimer : Hook.nextTimer s = Hook.nextTimer st;
  dl_ref : Hook.reconnectTimeoutRef s = Hook.reconnectTimeoutRef st;
  dl_length : length (Hook.promises s) = length (Hook.promises st);
  dl_listener : forall l, attached l s -> attached l st;
  dl_timer : forall timeoutId t,
    Hook.timers s !! timeoutId = Some t -> Hook.timers st !! timeoutId = Some t;
  dl_timer_gone : forall timeoutId t,
    Hook.timers st !! timeoutId = Some t ->
    Hook.timers s !! timeoutId = Some t
    \/ (exists l, attached l st /\ listenerTimeoutId l = timeoutId
                  /\ Hook.promises s !! listenerPromise l <> Some Hook.Pending);
  dl_promise : forall p o,
    Hook.promises st !! p = Some o ->
    Hook.promises s !! p = Some o
    \/ (o = Hook.Pending
        /\ exists l result error,
             data = Some (replyTo l result error)
             /\ attached l st /\ listenerPromise l = p
             /\ Hook.promises s !! p = Some (replyOutcome l result error));
  dl_cache : forall k,
    Hook.requestCache s !! k = Hook.requestCache st !! k
    \/ Hook.ongoingRequests s !! k = None
    \/ (exists requestId timeoutId p,
          attached (Hook.ExecuteToolListener requestId k timeoutId p) st);
  dl_ongoing : forall k q,
    Hook.ongoingRequests s !! k = Some q -> Hook.ongoingRequests st !! k = Some q;
}.

(** A call's hold on its promise and its timer: listener [l] is the only
    one that refers to them, timer [T] is the only one armed for the
    promise, and [T] stays armed for as long as the promise is pending. *)
Definition owns (l : Hook.Listener) (T : Hook.Timer) (s : Hook.HookState) : Prop :=
  let p := listenerPromise l in
  let timeoutId := listenerTimeoutId l in
  (p < length (Hook.promises s))%nat
  /\ (timeoutId < Hook.nextTimer s)%nat
  /\ Hook.reconnectTimeoutRef s <> Some timeoutId
  /\ (forall l', attached l' s ->
        listenerPromise l' = p \/ listenerTimeoutId l' = timeoutId -> l' = l)
  /\ (forall i t, Hook.timers s !! i = Some t ->
        i = timeoutId \/ callbackPromise (Hook.callback t) = Some p ->
        i = timeoutId /\ t = T)
  /\ (Hook.promises s !! p = Some Hook.Pending -> Hook.timers s !! timeoutId = Some T).


(** *** The three cached calls, uniformly *)

Inductive Call :=
| ToolCall (serverName toolName : string) (params : jsval)
| ResourcesCall (serverName : string)
| ToolsCall (serverName : string).

Section CallVocabulary.
Context `{JsEngine}.

Definition invoke (c : Call) (now : Z) (rnd : string) (st : Hook.HookState)
    : nat * Hook.HookState :=
  match c with
  | ToolCall serverName toolName params =>
      Hook.executeTool now rnd serverName toolName params st
  | ResourcesCall serverName => Hook.listResources now rnd serverName st
  | ToolsCall serverName => Hook.listTools now rnd serverName st
  end.

(** The call's cache key. *)
Definition callKey (c : Call) : string :=
  match c with
  | ToolCall serverName toolName params =>
      Hook.createRequestKey "executeTool" serverName
        (Some (JObj [("toolName", JStr toolName); ("params", params)]))
  | ResourcesCall serverName => Hook.createRequestKey "listResources" serverName None
  | ToolsCall serverName => Hook.createRequestKey "listTools" serverName None
  end.

(** The call's own test for answering from the cache. *)
Definition cacheHit (c : Call) (now : Z) (st : Hook.HookState) : bool :=
  match c with
  | ToolCall _ _ _ =>
      truthy (Hook.getCachedResult now (callKey c) st)
      && match Hook.requestCache st !! callKey c with
         | Some (_, timestamp) => now - timestamp <? 500
         | None => false
         end
  | _ => truthy (Hook.getCachedResult now (callKey c) st)
  end.

(** Whether the call registers itself in the in-flight table. *)
Definition registers (c : Call) : bool :=
  match c with
  | ToolCall _ _ _ => false
  | _ => true
  end.

(** The listener, timer and frame of a call issued from [st]. *)
Definition callListener (c : Call) (now : Z) (rnd : string) (st : Hook.HookState)
    : Hook.Listener :=
  match c with
  | ToolCall _ _ _ =>
      Hook.ExecuteToolListener (Hook.makeRequestId "tool_" now rnd) (callKey c)
        (Hook.nextTimer st) (length (Hook.promises st))
  | ResourcesCall _ =>
      Hook.ListResourcesListener (Hook.makeRequestId "resources_" now rnd) (callKey c)
        (Hook.nextTimer st) (length (Hook.promises st))
  | ToolsCall _ =>
      Hook.ListToolsListener (Hook.makeRequestId "tools_" now rnd) (callKey c)
        (Hook.nextTimer st) (length (Hook.promises st))
  end.

Definition callTimer (c : Call) (st : Hook.HookState) : Hook.Timer :=
  match c with
  | ToolCall _ _ _ =>
      {| Hook.delay := 30000;
         Hook.callback := Hook.ExecuteToolTimeout (length (Hook.promises st)) |}
  | ResourcesCall _ =>
      {| Hook.delay := 10000;
         Hook.callback := Hook.ListResourcesTimeout (callKey c) (length (Hook.promises st)) |}
  | ToolsCall _ =>
      {| Hook.delay := 10000;
         Hook.callback := Hook.ListToolsTimeout (callKey c) (length (Hook.promises st)) |}
  end.

Definition callRequest (c : Call) (now : Z) (rnd : string) : Hook.Outgoing :=
  match c with
  | ToolCall serverName toolName params =>
      Hook.SendExecuteTool (Hook.makeRequestId "tool_" now rnd) serverName toolName params
  | ResourcesCall serverName =>
      Hook.SendListResources (Hook.makeRequestId "resources_" now rnd) serverName
  | ToolsCall serverName =>
      Hook.SendListTools (Hook.makeRequestId "tools_" now rnd) serverName
  end.

End CallVocabulary.

(** The in-flight key a list listener unregisters. *)
Definition listenerOngoingKey (l : Hook.Listener) : option string :=
  match l with
  | Hook.ListResourcesListener _ requestKey _ _
  | Hook.ListToolsListener _ requestKey _ _ => Some requestKey
  | _ => None
  end.

(** What a listener has done once it has handled its reply. *)
Definition handled (l : Hook.Listener) (s : Hook.HookState) : Prop :=
  Hook.promises s !! listenerPromise l <> Some Hook.Pending
  /\ forall k, listenerOngoingKey l = Some k -> Hook.ongoingRequests s !! k = None.


Definition openSocket : Hook.WebSocket :=
  {| Hook.readyState := Hook.OPEN; Hook.listeners := [] |}.


(** ** Further vocabulary *)

(** The cache key a listener writes on a successful reply; [readResource]
    does not cache. *)
Definition listenerCacheKey (l : Hook.Listener) : option string :=
  match l with
  | Hook.ExecuteToolListener _ requestKey _ _
  | Hook.ListResourcesListener _ requestKey _ _
  | Hook.ListToolsListener _ requestKey _ _ => Some requestKey
  | Hook.ReadResourceListener _ _ _ _ => None
  end.

(** How long a cached result answers the same call again: 500 ms for
    [executeTool] (its own test on top of the cache's), the cache duration
    for the two list calls. *)
Definition window (c : Call) : Z :=
  match c with
  | ToolCall _ _ _ => 500
  | _ => Hook.CACHE_DURATION
  end.


(** No listener on the current socket settles promise [p]. *)
Definition orphaned (p : nat) (s : Hook.HookState) : Prop :=
  forall l, attached l s -> listenerPromise l <> p.

(** The reconnect policy's range: the attempt counter is between 0 and the
    maximum, and every pending timer that calls [connect()] waits 2000,
    3000, 4000, 5000 or 6000 ms. *)
Definition reconnectBounded (s : Hook.HookState) : Prop :=
  0 <= Hook.reconnectAttempts s <= Hook.maxReconnectAttempts
  /\ forall timeoutId t,
       Hook.timers s !! timeoutId = Some t ->
       Hook.callback t = Hook.ConnectCallback ->
       exists k, 0 <= k < Hook.maxReconnectAttempts /\ Hook.delay t = 2000 + k * 1000.

(** The in-flight key a timeout callback unregisters. *)
Definition timerOngoingKey (cb : Hook.TimerCallback) : option string :=
  match cb with
  | Hook.ListResourcesTimeout requestKey _
  | Hook.ListToolsTimeout requestKey _ => Some requestKey
  | _ => None
  end.

(** The in-flight table is in step with the promises: a registered promise
    is pending, and the listeners and timers that can settle it are those
    of the call registered under that key. *)
Definition inflight (s : Hook.HookState) : Prop :=
  forall k q, Hook.ongoingRequests s !! k = Some q ->
    Hook.promises s !! q = Some Hook.Pending
    /\ (forall l, attached l s -> listenerPromise l = q ->
          listenerOngoingKey l = Some k)
    /\ (forall timeoutId t, Hook.timers s !! timeoutId = Some t ->
          callbackPromise (Hook.callback t) = Some q ->
          timerOngoingKey (Hook.callback t) = Some k).

(** ** calculator-server.ts: the tool list *)

Module CalculatorTools.

(** A tool's [inputSchema]; [properties] holds the properties in the order
    the object literal lists them (their [Object.entries] order, none of
    the keys being an array index). *)
Record InputSchema := {
  type : string;
  properties : list (string * jsval);
  required : list string;
}.

Record Tool := {
  name : string;
  description : string;
  inputSchema : InputSchema;
}.

Definition number (description : string) : jsval :=
  JObj [("type", JStr "number"); ("description", JStr description)].

(** The [ListToolsRequestSchema] handler's [tools]. *)
Definition tools : list Tool :=
  [ {| name := "add"; description := "Add two numbers";
       inputSchema :=
         {| type := "object";
            properties := [("a", number "First number"); ("b", number "Second number")];
            required := ["a"; "b"] |} |};
    {| name := "subtract"; description := "Subtract two numbers";
       inputSchema :=
         {| type := "object";
            properties := [("a", number "First number"); ("b", number "Second number")];
            required := ["a"; "b"] |} |};
    {| name := "multiply"; description := "Multiply two numbers";
       inputSchema :=
         {| type := "object";
            properties := [("a", number "First number"); ("b", number "Second number")];
            required := ["a"; "b"] |} |};
    {| name := "divide"; description := "Divide two numbers";
       inputSchema :=
         {| type := "object";
            properties := [("a", number "Dividend"); ("b", number "Divisor")];
            required := ["a"; "b"] |} |};
    {| name := "power"; description := "Raise a number to a power";
       inputSchema :=
         {| type := "object";
            properties := [("base", number "Base number");
                           ("exponent", number "Exponent")];
            required := ["base"; "exponent"] |} |};
    {| name := "sqrt"; description := "Calculate square root of a number";
       inputSchema :=
         {| type := "object";
            properties := [("number", number "Number to find square root of")];
            required := ["number"] |} |} ].

End CalculatorTools.

(** ** ToolExecutor.tsx *)

Module ToolExecutor.

(** [s.includes(search)] on strings. *)
Fixpoint includes (search s : string) : bool :=
  String.prefix search s
  || match s with
     | EmptyString => false
     | String _ rest => includes search rest
     end.

(** [schema.description?.includes(search)], as a truth value; [None] when
    the call throws a [TypeError] because [description] is neither nullish
    nor a string nor an array. *)
Definition description_includes (schema : jsval) (search : string) : option bool :=
  match prop "description" schema with
  | JUndefined | JNull => Some false
  | JStr s => Some (includes search s)
  | JArr items =>
      Some (existsb (fun it => match it with
                               | JStr x => String.eqb x search
                               | _ => false
                               end) items)
  | _ => None
  end.

(** The tools of a server as the component stores them; [properties] holds
    the entries of [inputSchema.properties] in [Object.entries] order,
    [None] standing for a falsy [properties] or an absent [required]. *)
Record InputSchema := {
  type : string;
  properties : option (list (string * jsval));
  required : option (list string);
}.

Record ToolSchema := {
  name : string;
  description : string;
  inputSchema : InputSchema;
}.

(** The value the effect assigns to a required property of the given
    schema; [None] when reading the schema throws a [TypeError]. *)
Definition defaultValue (schema : jsval) : option jsval :=
  match schema with
  | JUndefined | JNull => None        (* schema.type of a nullish schema *)
  | _ =>
      match prop "type" schema with
      | JStr t =>
          if String.eqb t "string" then
            match description_includes schema "location" with
            | None => None
            | Some true => Some (JStr "San Francisco, CA")
            | Some false =>
                match description_includes schema "filename" with
                | None => None
                | Some true => Some (JStr "readme.txt")
                | Some false =>
                    match description_includes schema "title" with
                    | None => None
                    | Some true => Some (JStr "Sample Title")
                    | Some false =>
                        match description_includes schema "query" with
                        | None => None
                        | Some true => Some (JStr "search term")
                        | Some false => Some (JStr "")
                        end
                    end
                end
            end
          else if String.eqb t "number" then Some (JNum (num_of_Z 5))
          else if String.eqb t "array" then Some (JArr [])
          else if String.eqb t "object" then Some (JObj [])
          else Some JNull
      | _ => Some JNull
      end
  end.

(** The body of the effect that fills in default parameters: the object
    built by the [forEach] over the schema's properties, as the list of its
    assignments; [None] when a [TypeError] ends it. *)
Fixpoint assignDefaults (required : option (list string))
    (entries : list (string * jsval)) (defaultParams : list (string * jsval))
    : option (list (string * jsval)) :=
  match entries with
  | [] => Some defaultParams
  | (key, schema) :: rest =>
      if match required with
         | Some names => existsb (String.eqb key) names
         | None => false
         end
      then
        match defaultValue schema with
        | Some v => assignDefaults required rest (defaultParams ++ [(key, v)])
        | None => None
        end
      else assignDefaults required rest defaultParams
  end.

Definition defaultParams (currentTool : ToolSchema) : option (list (string * jsval)) :=
  assignDefaults (required (inputSchema currentTool))
    (default [] (properties (inputSchema currentTool))) [].

(** [fetchServerTools]: a listed tool as the component stores it. *)
Definition toolSchema (tool : CalculatorTools.Tool) : ToolSchema :=
  {| name := CalculatorTools.name tool;
     description := CalculatorTools.description tool;
     inputSchema :=
       {| type := CalculatorTools.type (CalculatorTools.inputSchema tool);
          properties := Some (CalculatorTools.properties (CalculatorTools.inputSchema tool));
          required := Some (CalculatorTools.required (CalculatorTools.inputSchema tool)) |} |}.

(** *** The execution history *)

Inductive Status := pending | success | error.

(** [result] of a history entry: absent, the tool's response, or
    [{error, details}] built from a caught [Error] ([details] is kept as the
    argument the [Error] was constructed with). *)
Inductive ExecutionResult :=
| NoResult
| Response (response : jsval)
| Failure (error : string) (details : jsval).

Record Execution := {
  id : string;
  timestamp : Z;
  server : string;
  tool : string;
  params : jsval;
  status : Status;
  result : ExecutionResult;
}.

(** [handleExecute] up to its [await]: nothing happens without a selected
    server and tool; otherwise a pending entry goes to the front of the
    history, which keeps its first nine entries behind it. The value is
    the execution id (if any) and the new history. *)
Definition handleExecute_start (now : Z) (selectedServer selectedTool : string)
    (toolParams : jsval) (executionHistory : list Execution)
    : option string * list Execution :=
  if String.eqb selectedServer "" || String.eqb selectedTool ""
  then (None, executionHistory)
  else
    let executionId := "exec_" +:+ pretty now in
    let newExecution :=
      {| id := executionId; timestamp := now; server := selectedServer;
         tool := selectedTool; params := toolParams; status := pending;
         result := NoResult |} in
    (Some executionId, newExecution :: take 9 executionHistory).

(** [handleExecute] after its [await]: the entries with the execution's id
    are marked with the outcome of [onExecuteTool]. *)
Section Finish.
Context `{JsEngine}.

Definition handleExecute_finish (executionId : string) (outcome : Hook.PromiseState)
    (executionHistory : list Execution) : list Execution :=
  match outcome with
  | Hook.Pending => executionHistory
  | Hook.Fulfilled response =>
      map (fun exec =>
             if String.eqb (id exec) executionId
             then {| id := id exec; timestamp := timestamp exec; server := server exec;
                     tool := tool exec; params := params exec;
                     status := success; result := Response response |}
             else exec) executionHistory
  | Hook.Rejected message =>
      map (fun exec =>
             if String.eqb (id exec) executionId
             then {| id := id exec; timestamp := timestamp exec; server := server exec;
                     tool := tool exec; params := params exec;
                     status := error;
                     result := Failure match message with
                                       | JUndefined => ""
                                       | _ => ToString message
                                       end message |}
             else exec) executionHistory
  end.

End Finish.

End ToolExecutor.

(** What happens to the execution history: an execution is started, or the
    call of an earlier execution settles. *)
Inductive HistoryEvent :=
| Started (now : Z) (selectedServer selectedTool : string) (toolParams : jsval)
| Finished (executionId : string) (outcome : Hook.PromiseState).

Definition historyStep `{JsEngine} (executionHistory : list ToolExecutor.Execution)
    (e : HistoryEvent) : list ToolExecutor.Execution :=
  match e with
  | Started now selectedServer selectedTool toolParams =>
      snd (ToolExecutor.handleExecute_start now selectedServer selectedTool toolParams
             executionHistory)
  | Finished executionId outcome =>
      ToolExecutor.handleExecute_finish executionId outcome executionHistory
  end.


(** The argument object made of the given keys, each bound to 5. *)
Definition fives (keys : list string) : list (string * jsval) :=
  map (fun k => (k, JNum (num_of_Z 5))) keys.


(** ** client/src/index.ts: the hub's message log *)

Module MCPClient.

(** A dashboard socket of [wss.clients]: its [readyState] (1 is OPEN) and
    the frames the hub has written to it, oldest first. *)
Record DashboardSocket := { readyState : Z; outbox : list Hook.WsData }.

(** A logging wrapper ([client.callTool], [client.listTools] or
    [client.listResources]) suspended at its [await]: the request id it
    drew and the values it logs again with the response. *)
Record Suspended := {
  requestId : string;
  method : string;
  params : jsval;
  serverName : string;
}.

Record State := {
  messageHistory : list Hook.MCPMessage;
  messageIdCounter : Z;
  clients : list DashboardSocket;
  suspended : list Suspended;
}.

Definition initial : State :=
  {| messageHistory := []; messageIdCounter := 0; clients := []; suspended := [] |}.

(** [++this.messageIdCounter] on a JavaScript number that holds a natural
    number: exact below 2^53, where adding 1 no longer changes the value. *)
Definition increment (counter : Z) : Z :=
  if counter <? 9007199254740992 then counter + 1 else counter.

(** [broadcastMessage]: the [new-message] frame goes to every client whose
    socket is open. *)
Definition broadcastMessage (message : Hook.MCPMessage) (st : State) : State :=
  {| messageHistory := messageHistory st;
     messageIdCounter := messageIdCounter st;
     clients :=
       map (fun client =>
              if readyState client =? 1
              then {| readyState := readyState client;
                      outbox := outbox client ++ [Hook.NewMessage message] |}
              else client) (clients st);
     suspended := suspended st |}.

(** [broadcastServerStatus], given the value of [getServerStatus()]. *)
Definition broadcastServerStatus (status : list Hook.ServerStatus) (st : State) : State :=
  {| messageHistory := messageHistory st;
     messageIdCounter := messageIdCounter st;
     clients :=
       map (fun client =>
              if readyState client =? 1
              then {| readyState := readyState client;
                      outbox := outbox client ++ [Hook.ServerStatusUpdate status] |}
              else client) (clients st);
     suspended := suspended st |}.

(** [logMessage]: push, keep the last 100 once there are more, broadcast. *)
Definition logMessage (message : Hook.MCPMessage) (st : State) : State :=
  let history := messageHistory st ++ [message] in
  broadcastMessage message
    {| messageHistory := if (100 <? length history)%nat
                         then Hook.slice_last 100 history else history;
       messageIdCounter := messageIdCounter st;
       clients := clients st;
       suspended := suspended st |}.

(** The [connection] handler of the WebSocket server: the new socket is
    sent the initial state, [serverStatus] being the value of
    [getServerStatus()]. *)
Definition onConnection (serverStatus : list Hook.ServerStatus) (st : State) : State :=
  {| messageHistory := messageHistory st;
     messageIdCounter := messageIdCounter st;
     clients :=
       clients st
       ++ [ {| readyState := 1;
               outbox := [Hook.InitialState (Some serverStatus)
                            (Some (messageHistory st))] |} ];
     suspended := suspended st |}.

(** A logging wrapper up to its [await]: it draws the next id and logs the
    request. [method] and [params] are ['tools/call'] and the request for
    [callTool], ['tools/list'] or ['resources/list'] and [{}] for the two
    list wrappers. *)
Definition wrapper_called (method : string) (params : jsval) (serverName : string)
    (now : Z) (st : State) : State :=
  let counter := increment (messageIdCounter st) in
  let requestId := pretty counter in
  let st := logMessage
              {| Hook.id := requestId; Hook.timestamp := now;
                 Hook.type := Hook.request; Hook.method := Some method;
                 Hook.params := params; Hook.result := JUndefined;
                 Hook.error := JUndefined; Hook.serverName := serverName;
                 Hook.direction := Hook.client_to_server |}
              {| messageHistory := messageHistory st;
                 messageIdCounter := counter;
                 clients := clients st;
                 suspended := suspended st |} in
  {| messageHistory := messageHistory st;
     messageIdCounter := messageIdCounter st;
     clients := clients st;
     suspended := suspended st
                  ++ [ {| requestId := requestId; method := method;
                          params := params; serverName := serverName |} ] |}.

(** The wrapper after its [await]: it logs the response, or the error,
    under the id of its request (and returns or rethrows). *)
Definition wrapper_resumed (w : Suspended) (now : Z) (response : outcome jsval)
    (st : State) : State :=
  logMessage
    {| Hook.id := requestId w; Hook.timestamp := now;
       Hook.type := Hook.response; Hook.method := Some (method w);
       Hook.params := params w;
       Hook.result := match response with
                      | Return r => r
                      | Throw _ => JUndefined
                      end;
       Hook.error := match response with
                     | Return _ => JUndefined
                     | Throw message => JObj [("message", JStr message)]
                     end;
       Hook.serverName := serverName w;
       Hook.direction := Hook.server_to_client |} st.

(** A message the demo logs by hand: it draws an id of its own. *)
Definition demo_log (message : Hook.MCPMessage) (st : State) : State :=
  let counter := increment (messageIdCounter st) in
  logMessage
    {| Hook.id := pretty counter; Hook.timestamp := Hook.timestamp message;
       Hook.type := Hook.type message; Hook.method := Hook.method message;
       Hook.params := Hook.params message; Hook.result := Hook.result message;
       Hook.error := Hook.error message; Hook.serverName := Hook.serverName message;
       Hook.direction := Hook.direction message |}
    {| messageHistory := messageHistory st;
       messageIdCounter := counter;
       clients := clients st;
       suspended := suspended st |}.

(** What happens at the hub, as far as its log and its dashboard sockets
    are concerned. *)
Inductive Event :=
| Connection (serverStatus : list Hook.ServerStatus)
| SocketState (client : nat) (state : Z)
| StatusChanged (status : list Hook.ServerStatus)
| WrapperCalled (method : string) (params : jsval) (serverName : string) (now : Z)
| WrapperResumed (i : nat) (now : Z) (response : outcome jsval)
| DemoLog (message : Hook.MCPMessage).

Definition step (st : State) (e : Event) : State :=
  match e with
  | Connection serverStatus => onConnection serverStatus st
  | SocketState client state =>
      {| messageHistory := messageHistory st;
         messageIdCounter := messageIdCounter st;
         clients :=
           match clients st !! client with
           | Some c => <[client := {| readyState := state; outbox := outbox c |}]>
                         (clients st)
           | None => clients st
           end;
         suspended := suspended st |}
  | StatusChanged status => broadcastServerStatus status st
  | WrapperCalled method params serverName now =>
      wrapper_called method params serverName now st
  | WrapperResumed i now response =>
      match suspended st !! i with
      | Some w =>
          wrapper_resumed w now response
            {| messageHistory := messageHistory st;
               messageIdCounter := messageIdCounter st;
               clients := clients st;
               suspended := delete i (suspended st) |}
      | None => st
      end
  | DemoLog message => demo_log message st
  end.

Definition run (st : State) (events : list Event) : State :=
  fold_left step events st.

End MCPClient.





(** A sample of hub activity: a tool call through the logging wrapper and
    its answer. *)
Definition sampleHubEvents : list MCPClient.Event :=
  [ MCPClient.WrapperCalled "tools/call"
      (JObj [("name", JStr "add"); ("arguments", addParams)]) "calculator-server" 5000;
    MCPClient.WrapperResumed 0 5100 (Return (JObj [("content", JArr [])])) ].


(** The ids of the messages of a given type, in log order. *)
Definition idsOf (t : Hook.MessageType) (h : list Hook.MCPMessage) : list string :=
  map Hook.id (filter (fun m => bool_decide (Hook.type m = t)) h).

(** The hub's ids are in order: every logged id is the numeral of a counter
    value drawn so far, no two requests and no two responses in the history
    share an id, the suspended wrappers hold distinct ids, and no response
    is in the history yet for a wrapper that is still suspended. *)
Definition hubIds (st : MCPClient.State) : Prop :=
  0 <= MCPClient.messageIdCounter st
  /\ (forall m, m ∈ MCPClient.messageHistory st ->
        exists k, 1 <= k <= MCPClient.messageIdCounter st /\ Hook.id m = pretty k)
  /\ (forall w, w ∈ MCPClient.suspended st ->
        (exists k, 1 <= k <= MCPClient.messageIdCounter st
                   /\ MCPClient.requestId w = pretty k)
        /\ MCPClient.requestId w ∉ idsOf Hook.response (MCPClient.messageHistory st))
  /\ NoDup (map MCPClient.requestId (MCPClient.suspended st))
  /\ NoDup (idsOf Hook.request (MCPClient.messageHistory st))
  /\ NoDup (idsOf Hook.response (MCPClient.messageHistory st))
  /\ (length (MCPClient.messageHistory st) <= 100)%nat.

(** ** A tool call across the control channel *)

(** A tool result as the hub's [JSON.stringify] and the dashboard's
    [JSON.parse] carry it: [content], and [isError] when it is set. *)
Definition resultValue (r : Calculator.CallToolResult) : jsval :=
  JObj (("content",
         JArr (map (fun item => JObj [("type", JStr (Calculator.type item));
                                      ("text", JStr (Calculator.text item))])
                 (Calculator.content r)))
        :: match Calculator.isError r with
           | Some b => [("isError", JBool b)]
           | None => []
           end).

(** The [tool-response] frame of the hub as the dashboard parses it: the
    frame has [result] or [error: {message}], the other property is absent. *)
Definition toolResponseFrame (r : Hub.ToolResponse) : Hook.WsData :=
  Hook.Reply (Hub.type r) (JStr (Hub.requestId r))
    match Hub.body r with
    | Hub.result v => resultValue v
    | Hub.error _ => JUndefined
    end
    match Hub.body r with
    | Hub.result _ => JUndefined
    | Hub.error message => JObj [("message", JStr message)]
    end.

(** How the promise of [executeTool] ends for an outcome of the hub's
    [server.client.callTool]. *)
Definition callOutcome (o : outcome Calculator.CallToolResult) : Hook.PromiseState :=
  match o with
  | Return r => Hook.Fulfilled (resultValue r)
  | Throw message =>
      Hook.Rejected (JStr (if String.eqb message "" then "Tool execution failed"
                           else message))
  end.

(** ** dashboard/src/components/ConnectionStatus.tsx *)

Module ConnectionStatus.

Record Props := {
  connected : bool;
  reconnectAttempts : Z;
  maxReconnectAttempts : Z;
}.

Definition getStatusColor (props : Props) : string :=
  if connected props then "bg-green-500"
  else if (0 <? reconnectAttempts props)
          && (reconnectAttempts props <? maxReconnectAttempts props)
       then "bg-yellow-500"
       else "bg-red-500".

Definition getStatusText (props : Props) : string :=
  if connected props then "Connected to MCP Client"
  else if (0 <? reconnectAttempts props)
          && (reconnectAttempts props <? maxReconnectAttempts props)
       then "Reconnecting... (" +:+ pretty (reconnectAttempts props) +:+ "/"
            +:+ pretty (maxReconnectAttempts props) +:+ ")"
       else "Disconnected from MCP Client".

(** The class of the banner's frame. *)
Definition frameClass (props : Props) : string :=
  if connected props then "bg-green-50 border border-green-200"
  else if 0 <? reconnectAttempts props then "bg-yellow-50 border border-yellow-200"
       else "bg-red-50 border border-red-200".

(** The class of the status text. *)
Definition textClass (props : Props) : string :=
  if connected props then "text-green-800"
  else if 0 <? reconnectAttempts props then "text-yellow-800"
       else "text-red-800".

(** The paragraph shown under the status while not connected. *)
Definition hint (props : Props) : option string :=
  if connected props then None
  else Some (if maxReconnectAttempts props <=? reconnectAttempts props
             then "Connection failed. Check if MCP client is running."
             else "Make sure the MCP client is running on port 8081").

End ConnectionStatus.

(** [App]: the banner is given the hook's values. *)
Definition banner (st : Hook.HookState) : ConnectionStatus.Props :=
  {| ConnectionStatus.connected := Hook.connected st;
     ConnectionStatus.reconnectAttempts := Hook.reconnectAttempts st;
     ConnectionStatus.maxReconnectAttempts := Hook.maxReconnectAttempts |}.

(** ** client/src/index.ts: the hub's server configurations *)

Module ServerConfigs.

Record ServerConfig := {
  id : string;
  name : string;
  description : string;
  connectionType : string;
  command : option string;
  args : option (list string);
  url : option string;
  enabled : bool;
  isBuiltIn : bool;
}.

(** [this.serverConfigs], a [Map<string, ServerConfig>]: its entries in
    insertion order. *)
Definition ConfigMap := list (string * ServerConfig).

Fixpoint get (key : string) (m : ConfigMap) : option ServerConfig :=
  match m with
  | [] => None
  | (k, v) :: rest => if String.eqb k key then Some v else get key rest
  end.

(** [Map.prototype.set]: an existing key keeps its place. *)
Fixpoint set (key : string) (value : ServerConfig) (m : ConfigMap) : ConfigMap :=
  match m with
  | [] => [(key, value)]
  | (k, v) :: rest =>
      if String.eqb k key then (key, value) :: rest else (k, v) :: set key value rest
  end.

Fixpoint delete (key : string) (m : ConfigMap) : ConfigMap :=
  match m with
  | [] => []
  | (k, v) :: rest => if String.eqb k key then rest else (k, v) :: delete key rest
  end.

Definition values (m : ConfigMap) : list ServerConfig := map snd m.

Definition builtInServers : list ServerConfig :=
  [ {| id := "file-server"; name := "file-server";
       description := "File system resource and tool server";
       connectionType := "stdio"; command := Some "node";
       args := Some ["../server/dist/file-server.js"]; url := None;
       enabled := true; isBuiltIn := true |};
    {| id := "calculator-server"; name := "calculator-server";
       description := "Mathematical calculation tools";
       connectionType := "stdio"; command := Some "node";
       args := Some ["../server/dist/calculator-server.js"]; url := None;
       enabled := true; isBuiltIn := true |};
    {| id := "notes-server"; name := "notes-server";
       description := "Note-taking with SQLite persistence";
       connectionType := "stdio"; command := Some "node";
       args := Some ["../server/dist/notes-server.js"]; url := None;
       enabled := true; isBuiltIn := true |};
    {| id := "weather-server"; name := "weather-server";
       description := "Weather data and forecasting";
       connectionType := "stdio"; command := Some "node";
       args := Some ["../server/dist/weather-server.js"]; url := None;
       enabled := true; isBuiltIn := true |} ].

(** [loadServerConfigs], run by the constructor on the empty map. [file] is
    the parsed content of the configuration file, [None] when the file
    does not exist or cannot be read. *)
Definition loadServerConfigs (file : option (list ServerConfig)) (serverConfigs : ConfigMap)
    : ConfigMap :=
  let serverConfigs :=
    fold_left (fun m config => set (name config) config m) builtInServers serverConfigs in
  match file with
  | Some configs =>
      fold_left (fun m config =>
                   if negb (String.prefix "test-" (name config))
                   then set (name config) config m
                   else m) configs serverConfigs
  | None => serverConfigs
  end.

(** [saveServerConfigs]: the configurations written to the file. *)
Definition saveServerConfigs (serverConfigs : ConfigMap) : list ServerConfig :=
  List.filter (fun config => negb (isBuiltIn config)
                             && negb (String.prefix "test-" (name config)))
    (values serverConfigs).

(** [addServerFromDashboard] up to [saveServerConfigs()]: the validation
    and the new map. [servers_has] is [this.servers.has(config.name)]. *)
Definition addServerFromDashboard (config : ServerConfig) (servers_has : bool)
    (serverConfigs : ConfigMap) : outcome ConfigMap :=
  if String.eqb (name config) "" || String.eqb (connectionType config) ""
  then Throw "Invalid server configuration"
  else if servers_has || bool_decide (is_Some (get (name config) serverConfigs))
       then Throw "Server already exists"
       else Return (set (name config) config serverConfigs).

(** [removeServerFromDashboard]: the map it saves. *)
Definition removeServerFromDashboard (serverId : string) (serverConfigs : ConfigMap)
    : ConfigMap :=
  let serverName := match get serverId serverConfigs with
                    | Some config => name config
                    | None => serverId
                    end in
  delete serverName serverConfigs.

(** [toggleServerFromDashboard] up to [saveServerConfigs()]. *)
Definition toggleServerFromDashboard (serverId : string) (value : bool)
    (serverConfigs : ConfigMap) : outcome ConfigMap :=
  match get serverId serverConfigs with
  | None => Throw ("Server configuration for " +:+ serverId +:+ " not found")
  | Some config =>
      Return (set serverId
                {| id := id config; name := name config;
                   description := description config;
                   connectionType := connectionType config;
                   command := command config; args := args config; url := url config;
                   enabled := value; isBuiltIn := isBuiltIn config |}
                serverConfigs)
  end.

(** The requests of the server manager, as far as the configurations are
    concerned. A request that throws before it saves leaves the map alone. *)
Inductive Event :=
| AddServer (config : ServerConfig) (servers_has : bool)
| RemoveServer (serverId : string)
| ToggleServer (serverId : string) (value : bool).

Definition step (serverConfigs : ConfigMap) (e : Event) : ConfigMap :=
  match e with
  | AddServer config servers_has =>
      match addServerFromDashboard config servers_has serverConfigs with
      | Return m => m
      | Throw _ => serverConfigs
      end
  | RemoveServer serverId => removeServerFromDashboard serverId serverConfigs
  | ToggleServer serverId value =>
      match toggleServerFromDashboard serverId value serverConfigs with
      | Return m => m
      | Throw _ => serverConfigs
      end
  end.

Definition run (serverConfigs : ConfigMap) (events : list Event) : ConfigMap :=
  fold_left step events serverConfigs.

(** A configuration that [saveServerConfigs] writes. *)
Definition persisted (config : ServerConfig) : bool :=
  negb (isBuiltIn config) && negb (String.prefix "test-" (name config)).

End ServerConfigs.

(** The keys of a configuration map are distinct and each configuration is
    stored under its name. *)
Definition keyed (m : ServerConfigs.ConfigMap) : Prop :=
  NoDup (map fst m) /\ Forall (fun kv => ServerConfigs.name kv.2 = kv.1) m.
(** * Properties *)

Import Hook.

(** ** The message list *)

Section MessageList.

Lemma slice_last_length {A} (n : nat) (l : list A) :
  length (slice_last n l) = (length l `min` n)%nat.
Proof. unfold slice_last. rewrite length_drop. lia. Qed.

Lemma slice_last_snoc {A} (n : nat) (l : list A) (x : A) :
  (1 <= n)%nat ->
  slice_last n (slice_last n l ++ [x]) = slice_last n (l ++ [x]).
Proof.
  intros Hn. unfold slice_last.
  rewrite !length_app, length_drop. simpl.
  destruct (decide (length l <= n)%nat) as [Hle | Hgt].
  - replace (length l - n)%nat with 0%nat by lia. simpl.
    now rewrite Nat.sub_0_r.
  - replace (length l - (length l - n) + 1 - n)%nat with 1%nat by lia.
    rewrite !drop_app_le by (rewrite ?length_drop; lia).
    rewrite drop_drop. f_equal. f_equal. lia.
Qed.

Lemma appendMessage_messages (m : MCPMessage) (st : HookState) :
  messages (appendMessage m st) = slice_last 100 (messages st ++ [m]).
Proof. reflexivity. Qed.

Lemma append_many (ms : list MCPMessage) : forall (m : MCPMessage) (st : HookState),
  messages (fold_left (fun s x => onmessage (Some (NewMessage x)) s) ms
              (appendMessage m st))
  = slice_last 100 (messages st ++ m :: ms).
Proof.
  induction ms as [| x ms IH] using rev_ind; intros m st.
  - reflexivity.
  - rewrite fold_left_app.
    change (fold_left ?f [x] ?s) with (appendMessage x s).
    rewrite appendMessage_messages, IH, slice_last_snoc by lia.
    now rewrite <- app_assoc.
Qed.

End MessageList.

(** C7. Each [new-message] frame is appended and the list is cut to its
    last 100 entries: after one or more appends the list is the last 100
    entries of the old list followed by the appended messages, so its length
    is min(initial + appended, 100), what was dropped is a prefix (the oldest
    entries), and the length never exceeds 100. *)
Theorem C7_message_buffer_keeps_last_100
    (st : HookState) (m : MCPMessage) (ms : list MCPMessage) :
  let appended := m :: ms in
  let st' := fold_left (fun s x => onmessage (Some (NewMessage x)) s) appended st in
  messages st' = slice_last 100 (messages st ++ appended)
  /\ length (messages st')
     = ((length (messages st) + length appended) `min` 100)%nat
  /\ (exists dropped, messages st ++ appended = dropped ++ messages st')
  /\ (length (messages st') <= 100)%nat.
Proof.
  intros appended st'. subst st'.
  change (fold_left ?f appended st)
    with (fold_left f ms (appendMessage m st)).
  rewrite (append_many ms m st). fold appended.
  split; [reflexivity |].
  split; [rewrite slice_last_length, length_app; reflexivity |].
  split.
  - exists (take (length (messages st ++ appended) - 100) (messages st ++ appended)).
    unfold slice_last. now rewrite take_drop.
  - rewrite slice_last_length. lia.
Qed.

(** ** The calculator server *)

(** C8. The calculator's handler answers [add] with arguments
    [{a: 5, b: 3}] by the single text item ["5 + 3 = 8"] and sets no error
    flag; the hub, asked to execute that tool on the connected
    [calculator-server] for request [r1], replies with a [tool-response]
    frame for [r1] carrying exactly that result. *)
Theorem C8_add_5_3 `{JsEngine} :
  Calculator.callTool add_5_3
  = {| Calculator.content :=
         [ {| Calculator.type := "text"; Calculator.text := "5 + 3 = 8" |} ];
       Calculator.isError := None |}
  /\ Hub.executeToolFromDashboard 1 "r1" "calculator-server" "add"
       (Calculator.arguments add_5_3)
       {[ "calculator-server" := calculatorEntry ]}
     = Some {| Hub.type := "tool-response"; Hub.requestId := "r1";
               Hub.body := Hub.result
                 {| Calculator.content :=
                      [ {| Calculator.type := "text";
                           Calculator.text := "5 + 3 = 8" |} ];
                    Calculator.isError := None |} |}.
Proof.
  split.
  - vm_compute. reflexivity.
  - unfold Hub.executeToolFromDashboard.
    rewrite lookup_singleton_eq. vm_compute. reflexivity.
Qed.

Section CalculatorTotal.
Context `{JsEngine}.

Lemma callTool_of_try (params : Calculator.CallToolParams) :
  Calculator.callTool params
  = match Calculator.callTool_try params with
    | Return r => r
    | Throw message => errorResult message
    end.
Proof. reflexivity. Qed.

(** A normal return of the [try] block is one text item, no error flag. *)
Lemma callTool_try_return (params : Calculator.CallToolParams) r :
  Calculator.callTool_try params = Return r ->
  exists t, r = Calculator.textResult t.
Proof.
  unfold Calculator.callTool_try.
  destruct (Calculator.arguments params) as [args |]; [| discriminate].
  repeat match goal with
         | |- context [if ?b then _ else _] => destruct b
         end;
    intros Hr; solve [discriminate Hr | inversion Hr; eauto].
Qed.

Lemma unknown_tool (n : string) (args : list (string * jsval)) :
  existsb (String.eqb n) toolNames = false ->
  Calculator.callTool_try (toolCall n args) = Throw ("Unknown tool: " +:+ n).
Proof.
  unfold toolNames, Calculator.callTool_try. cbn [existsb toolCall
    Calculator.arguments Calculator.name].
  intros Hn.
  repeat match goal with
         | |- context [String.eqb n ?s] =>
             destruct (String.eqb n s); [discriminate Hn |]
         end.
  reflexivity.
Qed.

End CalculatorTotal.


(** ** Reconnection *)

Section Frames.
Context `{JsEngine}.

(** Whatever every listener and [onmessage] preserve, a dispatch preserves. *)
Lemma dispatch_preserves (P : HookState -> Prop) now data :
  (forall st, P st -> P (onmessage data st)) ->
  (forall l st, P st -> P (handleResponse now l data st)) ->
  forall st, P st -> P (dispatchMessage now data st).
Proof.
  intros Hon Hl st HP. unfold dispatchMessage.
  destruct (ws st) as [sock |]; [| exact HP].
  specialize (Hon st HP). revert Hon.
  generalize (onmessage data st). 
  induction (listeners sock) as [| l ls IH]; intros s Hs; simpl; [exact Hs |].
  apply IH. destruct (ws s) as [sock' |]; [| exact Hs].
  destruct (decide (l ∈ listeners sock')); auto.
Qed.

End Frames.

Ltac unfold_ops :=
  unfold reject, resolve, settle, setCachedResult, removeEventListener,
    addEventListener, sendMessage, clearTimeout, setTimeout, appendMessage,
    new_Promise, Promise_resolve, set_readyState in *.

Ltac crush_handler :=
  unfold handleResponse; unfold_ops; repeat (case_match; simpl in *; try done).

Section Reconnect.
Context `{JsEngine}.

Lemma handleResponse_conn now l data st :
  reconnectAttempts (handleResponse now l data st) = reconnectAttempts st
  /\ nextTimer (handleResponse now l data st) = nextTimer st
  /\ connected (handleResponse now l data st) = connected st.
Proof. crush_handler. Qed.

Lemma dispatch_conn now data st :
  reconnectAttempts (dispatchMessage now data st) = reconnectAttempts st
  /\ nextTimer (dispatchMessage now data st) = nextTimer st
  /\ connected (dispatchMessage now data st) = connected st.
Proof.
  apply (dispatch_preserves
           (fun s => reconnectAttempts s = reconnectAttempts st
                     /\ nextTimer s = nextTimer st
                     /\ connected s = connected st)); auto.
  - intros s Hs. destruct data as [[] |]; exact Hs.
  - intros l s Hs.
    destruct (handleResponse_conn now l data s) as (-> & -> & ->). exact Hs.
Qed.

Lemma connect_conn st :
  reconnectAttempts (connect st) = reconnectAttempts st
  /\ nextTimer (connect st) = nextTimer st
  /\ connected (connect st) = connected st
  /\ timers (connect st) = timers st.
Proof. unfold connect. repeat (case_match; simpl); auto. Qed.

Lemma runTimer_conn now cb st :
  reconnectAttempts (runTimer now cb st) = reconnectAttempts st
  /\ nextTimer (runTimer now cb st) = nextTimer st
  /\ connected (runTimer now cb st) = connected st.
Proof.
  destruct cb; simpl; [destruct (connect_conn st) as (? & ? & ? & ?); auto | ..];
    auto.
Qed.

End Reconnect.

Section Backoff.
Context `{JsEngine}.





End Backoff.



Section Exhausted.
Context `{JsEngine}.

Lemma handleResponse_ws now l data st sock' :
  ws (handleResponse now l data st) = Some sock' ->
  exists sock, ws st = Some sock /\ readyState sock' = readyState sock.
Proof.
  unfold handleResponse.
  repeat (case_match; simpl; eauto); intros [= <-]; eauto.
Qed.

Lemma handleResponse_timers now l data st :
  timers (handleResponse now l data st) = timers st
  \/ exists timeoutId, timers (handleResponse now l data st) = delete timeoutId (timers st).
Proof. unfold handleResponse. repeat (case_match; simpl; eauto). Qed.

Lemma handleResponse_exhausted now l data st :
  exhausted st -> exhausted (handleResponse now l data st).
Proof.
  intros (Ha & Hc & Hws & Ht).
  destruct (handleResponse_conn now l data st) as (Ha' & _ & Hc').
  split; [congruence | split; [congruence | split]].
  - intros sock' Hs. apply handleResponse_ws in Hs as (sock & Hs & ->). eauto.
  - intros i t.
    destruct (handleResponse_timers now l data st) as [-> | [tid ->]]; [apply Ht |].
    intros Hl. apply lookup_delete_Some in Hl as [_ Hl]. eauto.
Qed.

Lemma exhausted_onclose code st :
  exhausted st -> exhausted (onclose code st).
Proof.
  intros (Ha & Hc & Hws & Ht). unfold onclose. simpl. rewrite Ha.
  destruct (negb (code =? 1000)); simpl; repeat split; auto.
Qed.

Lemma exhausted_armed (cb : TimerCallback) ms l m st :
  cb <> ConnectCallback -> exhausted st ->
  exhausted (sendMessage m (addEventListener l (setTimeout cb ms st).2)).
Proof.
  intros Hcb (Ha & Hc & Hws & Ht). repeat split; auto; simpl.
  - intros sock. destruct (ws st) as [s0 |] eqn:Hs; [| done].
    intros [= <-]. simpl. eauto.
  - intros i t Hi.
    apply lookup_insert_Some in Hi as [[_ <-] | [_ Hi]]; [done | eauto].
Qed.

Lemma exhausted_step st e :
  exhausted st -> notManualReconnect e = true -> exhausted (step st e).
Proof.
  intros Hex He.
  destruct e; try discriminate He; cbn [step].
  - (* SocketOpen *)
    destruct (ws st) as [sock |] eqn:Hs; [| exact Hex].
    rewrite decide_False; [exact Hex |].
    destruct Hex as (_ & _ & Hws & _). now apply Hws.
  - (* SocketClose *)
    destruct (ws st) as [sock |] eqn:Hs; [| exact Hex].
    destruct (decide (readyState sock = CLOSED)); [exact Hex |].
    apply exhausted_onclose. destruct Hex as (? & ? & ? & ?).
    repeat split; auto.
    unfold set_readyState; simpl. rewrite Hs. intros ? [= <-]. done.
  - (* OldSocketClose *)
    now apply exhausted_onclose.
  - (* SocketError *)
    destruct (ws st) eqn:Hs; [| exact Hex].
    destruct Hex as (? & ? & ? & ?). repeat split; simpl; auto.
  - (* SocketMessage *)
    destruct (ws st) as [sock |] eqn:Hs; [| exact Hex].
    destruct (decide (readyState sock = OPEN)); [| exact Hex].
    apply (dispatch_preserves exhausted); auto.
    + intros s Hex'. destruct data as [[] |]; exact Hex'.
    + intros l s. apply handleResponse_exhausted.
  - (* TimerFires *)
    destruct (timers st !! timeoutId) as [t |] eqn:Hl; [| exact Hex].
    assert (Hex' : exhausted (clearTimeout timeoutId st)).
    { destruct Hex as (? & ? & ? & Ht). repeat split; auto.
      intros i t' Hi. simpl in Hi.
      apply lookup_delete_Some in Hi as [_ Hi]. eauto. }
    destruct Hex as (_ & _ & _ & Ht). specialize (Ht _ _ Hl).
    destruct Hex' as (? & ? & ? & ?).
    destruct (callback t); [done | ..]; simpl; repeat split; auto.
  - (* executeTool *)
    unfold executeTool. destruct (_ && _).
    + destruct Hex as (? & ? & ? & ?). repeat split; simpl; auto.
    + apply exhausted_armed; [done |].
      destruct Hex as (? & ? & ? & ?). repeat split; simpl; auto.
  - unfold listResources. destruct (truthy _); [| destruct (_ !! _)];
      [destruct Hex as (? & ? & ? & ?); repeat split; simpl; auto
      | exact Hex |].
    assert (Hex' : exhausted (new_Promise st).2)
        by (destruct Hex as (? & ? & ? & ?); repeat split; auto).
      apply (exhausted_armed (ListResourcesTimeout
               (createRequestKey "listResources" serverName0 None)
               (length (promises st))) 10000
               (ListResourcesListener (makeRequestId "resources_" now rnd)
                  (createRequestKey "listResources" serverName0 None)
                  (nextTimer st) (length (promises st)))
               (SendListResources (makeRequestId "resources_" now rnd) serverName0))
        in Hex'; [| done].
    destruct Hex' as (? & ? & ? & ?). repeat split; simpl; auto.
  - unfold readResource.
    apply (exhausted_armed (ReadResourceTimeout _ _ _) 10000); [done |].
    destruct Hex as (? & ? & ? & ?). repeat split; simpl; auto.
  - unfold listTools. destruct (truthy _); [| destruct (_ !! _)];
      [destruct Hex as (? & ? & ? & ?); repeat split; simpl; auto
      | exact Hex |].
    assert (Hex' : exhausted (new_Promise st).2)
        by (destruct Hex as (? & ? & ? & ?); repeat split; auto).
      apply (exhausted_armed (ListToolsTimeout
               (createRequestKey "listTools" serverName0 None)
               (length (promises st))) 10000
               (ListToolsListener (makeRequestId "tools_" now rnd)
                  (createRequestKey "listTools" serverName0 None)
                  (nextTimer st) (length (promises st)))
               (SendListTools (makeRequestId "tools_" now rnd) serverName0))
        in Hex'; [| done].
    destruct Hex' as (? & ? & ? & ?). repeat split; simpl; auto.
Qed.

Lemma exhausted_run (events : list Event) : forall st,
  exhausted st -> Forall (fun e => notManualReconnect e = true) events ->
  exhausted (run st events) /\ reconnectLog st events = [].
Proof.
  induction events as [| e events IH]; intros st Hex Hall; [now split |].
  inversion Hall as [| ? ? He Hrest]; subst.
  pose proof (exhausted_step st e Hex He) as Hex'.
  destruct (IH _ Hex' Hrest) as (Hrun & Hlog).
  split; [exact Hrun |].
  cbn [reconnectLog]. rewrite Hlog.
  destruct (armedBy st e) as [[d cb] |] eqn:Harm; [| reflexivity].
  destruct cb; try reflexivity.
  unfold armedBy in Harm. case_decide; [| discriminate].
  destruct Hex' as (_ & _ & _ & Ht). now apply Ht in Harm.
Qed.
End Exhausted.

(** C4. Once the automatic attempts are used up (the counter is at 5, the
    status is disconnected, nothing is left that would connect), a close
    event arms no timer, and whatever happens next short of a manual
    reconnect - close events included - no reconnect timer is armed, the
    counter stays at 5 and the status stays disconnected; a manual
    reconnect resets the counter. *)
Theorem C4_no_sixth_attempt `{JsEngine} (st : HookState) (events : list Event) :
  exhausted st ->
  Forall (fun e => notManualReconnect e = true) events ->
  (forall code,
      timers (onclose code st) = timers st
      /\ nextTimer (onclose code st) = nextTimer st
      /\ reconnectTimeoutRef (onclose code st) = reconnectTimeoutRef st
      /\ connected (onclose code st) = false)
  /\ reconnectLog st events = []
  /\ reconnectAttempts (run st events) = 5
  /\ connected (run st events) = false
  /\ exhausted (run st events)
  /\ reconnectAttempts (manualReconnect (run st events)) = 0.
Proof.
  intros Hex Hall.
  destruct (exhausted_run events st Hex Hall) as (Hrun & Hlog).
  split; [| split; [exact Hlog | split; [apply Hrun | split; [apply Hrun | split; [exact Hrun |]]]]].
  - intros code. destruct Hex as (Ha & _). unfold onclose. simpl. rewrite Ha.
    destruct (negb (code =? 1000)); simpl; auto.
  - unfold manualReconnect.
    destruct (connect_conn
                (match reconnectTimeoutRef (set_reconnectAttempts 0 (run st events)) with
                 | Some timeoutId =>
                     clearTimeout timeoutId (set_reconnectAttempts 0 (run st events))
                 | None => set_reconnectAttempts 0 (run st events)
                 end)) as (-> & _).
    now destruct (reconnectTimeoutRef _).
Qed.

Lemma failingEpisode_exhausted :
  exhausted (run (H := sampleEngine) (initial true) failingEpisode).
Proof.
  assert (Ha : reconnectAttempts (run (H := sampleEngine) (initial true) failingEpisode) = 5)
    by (vm_compute; reflexivity).
  assert (Hc : connected (run (H := sampleEngine) (initial true) failingEpisode) = false)
    by (vm_compute; reflexivity).
  assert (Hw : ws (run (H := sampleEngine) (initial true) failingEpisode)
               = Some {| readyState := CLOSED; listeners := [] |})
    by (vm_compute; reflexivity).
  assert (Ht : map_to_list (timers (run (H := sampleEngine) (initial true) failingEpisode)) = [])
    by (vm_compute; reflexivity).
  revert Ha Hc Hw Ht.
  generalize (run (H := sampleEngine) (initial true) failingEpisode).
  intros s Ha Hc Hw Ht. unfold exhausted.
  split; [exact Ha | split; [exact Hc | split]].
  - intros sock Hs. rewrite Hw in Hs. injection Hs as <-. discriminate.
  - intros i t Hi. apply map_to_list_empty_iff in Ht.
    rewrite Ht, lookup_empty in Hi. discriminate Hi.
Qed.

Lemma C4_no_sixth_attempt_witness :
  let st := run (H := sampleEngine) (initial true) failingEpisode in
  let events := [SocketClose 1006; OldSocketClose 1006; TimerFires 30000 7] in
  (forall code,
      timers (onclose code st) = timers st
      /\ nextTimer (onclose code st) = nextTimer st
      /\ reconnectTimeoutRef (onclose code st) = reconnectTimeoutRef st
      /\ connected (onclose code st) = false)
  /\ reconnectLog (H := sampleEngine) st events = []
  /\ reconnectAttempts (run (H := sampleEngine) st events) = 5
  /\ connected (run (H := sampleEngine) st events) = false
  /\ exhausted (run (H := sampleEngine) st events)
  /\ reconnectAttempts (manualReconnect (run (H := sampleEngine) st events)) = 0.
Proof.
  intros st events.
  apply (C4_no_sixth_attempt (H := sampleEngine) st events).
  - apply failingEpisode_exhausted.
  - repeat constructor.
Defined.

(** ** The message log of [readResource] *)

Section Strings.

Lemma append_suffix_neq (s t : string) : t <> "" -> s +:+ t <> s.
Proof.
  intros Ht. induction s as [| c s IH]; simpl; [exact Ht |].
  intros [= Heq]. now apply IH.
Qed.

Lemma last_slice_last_snoc {A} (n : nat) (l : list A) (x : A) :
  (1 <= n)%nat -> last (slice_last n (l ++ [x])) = Some x.
Proof.
  intros Hn. unfold slice_last. rewrite length_app. simpl.
  rewrite drop_app_le by lia. apply last_snoc.
Qed.

End Strings.

(** C1, as the code has it. [readResource] logs its request under the
    generated request id, but the response it logs when the hub answers
    carries that id followed by ["_response"], and the one it logs on
    timeout carries it followed by ["_timeout"]: neither id equals the
    request's, so [pairedResponse], which pairs by id equality, finds no
    response for a request logged by [readResource]. *)
Theorem C1_readResource_response_id_differs
    (now : Z) (rnd serverName uri : string) (st : HookState) :
  let requestId := makeRequestId "read_resource_" now rnd in
  let promise := (readResource now rnd serverName uri st).1 in
  let st1 := (readResource now rnd serverName uri st).2 in
  (exists m, last (messages st1) = Some m
             /\ type m = request /\ id m = requestId)
  /\ timers st1 !! nextTimer st
     = Some {| delay := 10000;
               callback := ReadResourceTimeout requestId serverName promise |}
  /\ (forall sock, ws st = Some sock ->
        exists sock1, ws st1 = Some sock1
          /\ listeners sock1
             = listeners sock
               ++ [ReadResourceListener requestId serverName (nextTimer st) promise])
  /\ (forall now' data_result data_error st',
        exists m,
          last (messages
                  (handleResponse now'
                     (ReadResourceListener requestId serverName (nextTimer st) promise)
                     (Some (Reply "read-resource-response" (JStr requestId)
                              data_result data_error)) st')) = Some m
          /\ type m = response
          /\ id m = requestId +:+ "_response"
          /\ id m <> requestId)
  /\ (forall now' st',
        exists m,
          last (messages
                  (runTimer now' (ReadResourceTimeout requestId serverName promise) st'))
          = Some m
          /\ type m = response
          /\ id m = requestId +:+ "_timeout"
          /\ id m <> requestId)
  /\ (let log := messages (run (H := sampleEngine) (initial true) readSession) in
      map (fun m => (type m, id m)) log
      = [ (request, "read_resource_4000_k3x9q2m1z");
          (response, "read_resource_4000_k3x9q2m1z_response") ]
      /\ pairedResponse (head log) log = None).
Proof.
  intros requestId promise st1.
  split; [| split; [| split; [| split; [| split]]]].
  - eexists. split; [| split].
    + unfold st1, readResource. simpl. apply last_slice_last_snoc. lia.
    + reflexivity.
    + reflexivity.
  - unfold st1, readResource. simpl. apply lookup_insert_eq.
  - intros sock Hs. unfold st1, readResource. simpl. rewrite Hs. eauto.
  - intros now' data_result data_error st'.
    eexists. split; [| split; [| split]].
    + unfold handleResponse.
      replace (String.eqb "read-resource-response" "read-resource-response"
               && is_requestId (JStr requestId) requestId) with true
        by (simpl; now rewrite String.eqb_refl).
      destruct (truthy data_error); simpl; apply last_slice_last_snoc; lia.
    + reflexivity.
    + reflexivity.
    + simpl. now apply append_suffix_neq.
  - intros now' st'. eexists. split; [| split; [| split]].
    + simpl. apply last_slice_last_snoc. lia.
    + reflexivity.
    + reflexivity.
    + simpl. now apply append_suffix_neq.
  - vm_compute. split; reflexivity.
Qed.

(** ** Listeners *)

Section Listeners.
Context `{JsEngine}.

(** A handler leaves the socket alone or removes its own listener. *)
Lemma handleResponse_listeners now l data st :
  ws (handleResponse now l data st) = ws st
  \/ ws (handleResponse now l data st) = ws (removeEventListener l st).
Proof. unfold handleResponse. repeat (case_match; simpl; auto). Qed.

(** On the reply it waits for, a handler removes its listener. *)
Lemma handleResponse_reply_removes now l data_result data_error st :
  ws (handleResponse now l (Some (replyTo l data_result data_error)) st)
  = ws (removeEventListener l st).
Proof.
  destruct l; unfold replyTo, handleResponse; cbn [responseType listenerRequestId];
    cbn [is_requestId]; rewrite !String.eqb_refl; cbn [andb];
    destruct (truthy data_error); reflexivity.
Qed.

Lemma not_attached_remove l l' st :
  ~ attached l (removeEventListener l' st) \/ l <> l'.
Proof.
  destruct (decide (l = l')) as [-> | Hne]; [left | now right].
  intros (sock & Hs & Hin). simpl in Hs.
  destruct (ws st) as [s0 |]; [| discriminate]. injection Hs as <-.
  simpl in Hin. apply list_elem_of_filter in Hin as [Hne _]. now apply Hne.
Qed.

Lemma not_attached_handle now l l' data st :
  ~ attached l st -> ~ attached l (handleResponse now l' data st).
Proof.
  intros Hn (sock & Hs & Hin).
  destruct (handleResponse_listeners now l' data st) as [Heq | Heq];
    rewrite Heq in Hs.
  - apply Hn. now exists sock.
  - simpl in Hs. destruct (ws st) as [s0 |] eqn:Hs0; [| discriminate].
    injection Hs as <-. simpl in Hin.
    apply list_elem_of_filter in Hin as [_ Hin]. apply Hn. now exists s0.
Qed.

(** Delivery of the reply a listener waits for leaves it detached. *)
Lemma dispatch_reply_detaches now l data_result data_error st :
  ~ attached l (dispatchMessage now (Some (replyTo l data_result data_error)) st).
Proof.
  unfold dispatchMessage.
  destruct (ws st) as [sock |] eqn:Hs.
  2:{ intros (s & Hs' & _). congruence. }
  set (data := Some (replyTo l data_result data_error)).
  assert (Hstart : ~ attached l (onmessage data st) \/ l ∈ listeners sock).
  { destruct (decide (l ∈ listeners sock)) as [Hin | Hnin]; [now right | left].
    intros (s & Hs' & Hin). simpl in Hs'. rewrite Hs in Hs'.
    injection Hs' as <-. contradiction. }
  revert Hstart. generalize (onmessage data st).
  induction (listeners sock) as [| l' ls IH]; intros s Hstart; cbn [fold_left].
  - destruct Hstart as [Hn | Hin]; [exact Hn | now apply not_elem_of_nil in Hin].
  - apply IH.
    destruct Hstart as [Hn | Hin].
    + left. destruct (ws s) as [sock' |]; [| exact Hn].
      destruct (decide (l' ∈ listeners sock')); [| exact Hn].
      now apply not_attached_handle.
    + apply elem_of_cons in Hin as [-> | Hin]; [left | now right].
      destruct (ws s) as [sock' |] eqn:Hs'.
      2:{ intros (s0 & Hs0 & _). congruence. }
      destruct (decide (l' ∈ listeners sock')) as [Hin' | Hnin'].
      * intros (s0 & Hs0 & Hin0). subst data.
        rewrite handleResponse_reply_removes in Hs0.
        destruct (not_attached_remove l' l' s) as [Hn | Hne]; [| done].
        apply Hn. now exists s0.
      * intros (s0 & Hs0 & Hin0). rewrite Hs' in Hs0. injection Hs0 as <-.
        contradiction.
Qed.

End Listeners.

Section IssuedCalls.
Context `{JsEngine}.

Lemma lookup_snoc {A} (l : list A) (x : A) : (l ++ [x]) !! length l = Some x.
Proof. rewrite lookup_app_r by lia. now rewrite Nat.sub_diag. Qed.

Lemma insert_snoc {A} (l : list A) (x y : A) :
  <[length l := y]> (l ++ [x]) = l ++ [y].
Proof.
  rewrite insert_app_r_alt by lia. now rewrite Nat.sub_diag.
Qed.

(** What a call that goes to the backend leaves behind. *)
Lemma executeTool_issued now rnd serverName toolName params st :
  let p := (executeTool now rnd serverName toolName params st).1 in
  let st1 := (executeTool now rnd serverName toolName params st).2 in
  issued st st1 p ->
  st1 = sendMessage
          (SendExecuteTool (makeRequestId "tool_" now rnd) serverName toolName params)
          (addEventListener
             (ExecuteToolListener (makeRequestId "tool_" now rnd)
                (createRequestKey "executeTool" serverName
                   (Some (JObj [("toolName", JStr toolName); ("params", params)])))
                (nextTimer st) p)
             (setTimeout (ExecuteToolTimeout p) 30000 (new_Promise st).2).2).
Proof.
  intros p st1 [Hp Hpend]. subst p st1. revert Hp Hpend.
  unfold executeTool. destruct (_ && _); simpl.
  - intros _. rewrite lookup_snoc. discriminate.
  - reflexivity.
Qed.

Lemma listResources_issued now rnd serverName st :
  let p := (listResources now rnd serverName st).1 in
  let st1 := (listResources now rnd serverName st).2 in
  let requestKey := createRequestKey "listResources" serverName None in
  issued st st1 p ->
  st1 = set_ongoingRequests
          (<[requestKey := p]> (ongoingRequests st))
          (sendMessage
             (SendListResources (makeRequestId "resources_" now rnd) serverName)
             (addEventListener
                (ListResourcesListener (makeRequestId "resources_" now rnd)
                   requestKey (nextTimer st) p)
                (setTimeout (ListResourcesTimeout requestKey p) 10000
                   (new_Promise st).2).2)).
Proof.
  intros p st1 requestKey [Hp Hpend]. subst p st1 requestKey. revert Hp Hpend.
  unfold listResources. destruct (truthy _); [| destruct (_ !! _)]; simpl.
  - intros _. rewrite lookup_snoc. discriminate.
  - intros ->. rewrite lookup_ge_None_2 by lia. discriminate.
  - reflexivity.
Qed.

Lemma listTools_issued now rnd serverName st :
  let p := (listTools now rnd serverName st).1 in
  let st1 := (listTools now rnd serverName st).2 in
  let requestKey := createRequestKey "listTools" serverName None in
  issued st st1 p ->
  st1 = set_ongoingRequests
          (<[requestKey := p]> (ongoingRequests st))
          (sendMessage
             (SendListTools (makeRequestId "tools_" now rnd) serverName)
             (addEventListener
                (ListToolsListener (makeRequestId "tools_" now rnd)
                   requestKey (nextTimer st) p)
                (setTimeout (ListToolsTimeout requestKey p) 10000
                   (new_Promise st).2).2)).
Proof.
  intros p st1 requestKey [Hp Hpend]. subst p st1 requestKey. revert Hp Hpend.
  unfold listTools. destruct (truthy _); [| destruct (_ !! _)]; simpl.
  - intros _. rewrite lookup_snoc. discriminate.
  - intros ->. rewrite lookup_ge_None_2 by lia. discriminate.
  - reflexivity.
Qed.

End IssuedCalls.

Section TimeoutLeavesListener.
Context `{JsEngine}.

(** After a call that armed timer [cb] for its new promise and attached
    listener [l], the timer coming due rejects the promise and leaves
    the listener where it is. *)
Lemma timeout_keeps_listener (cb : TimerCallback) (ms : Z) (l : Listener)
    (st st1 : HookState) (sock : WebSocket) (reason : string) now' :
  ws st = Some sock ->
  timers st1 = <[nextTimer st := {| delay := ms; callback := cb |}]> (timers st) ->
  ws st1 = Some {| readyState := readyState sock; listeners := listeners sock ++ [l] |} ->
  promises st1 = promises st ++ [Pending] ->
  (forall s, ws (runTimer now' cb s) = ws s
             /\ promises (runTimer now' cb s)
                = promises (reject (length (promises st)) (JStr reason) s)) ->
  attached l st1
  /\ timers st1 !! nextTimer st = Some {| delay := ms; callback := cb |}
  /\ promises (step st1 (TimerFires now' (nextTimer st))) !! length (promises st)
     = Some (Rejected (JStr reason))
  /\ attached l (step st1 (TimerFires now' (nextTimer st))).
Proof.
  intros Hs Ht Hw Hp Hcb.
  assert (Hatt : attached l st1).
  { eexists. split; [exact Hw |]. simpl. apply elem_of_app. right. now left. }
  assert (Hl : timers st1 !! nextTimer st = Some {| delay := ms; callback := cb |})
    by (rewrite Ht; apply lookup_insert_eq).
  split; [exact Hatt | split; [exact Hl |]].
  cbn [step]. rewrite Hl. cbn [callback].
  destruct (Hcb (clearTimeout (nextTimer st) st1)) as (Hws' & Hpr'). split.
  - rewrite Hpr'. simpl. rewrite Hp, lookup_snoc, insert_snoc. apply lookup_snoc.
  - destruct Hatt as (s0 & Hs0 & Hin). exists s0. split; [| exact Hin].
    rewrite Hws'. exact Hs0.
Qed.

End TimeoutLeavesListener.

(** C9, as amended. A call that goes to the backend attaches its listener
    and arms its timeout. Delivery of the matching response leaves the
    listener detached; the timeout coming due rejects the promise and
    leaves the listener attached. *)
Theorem C9_listener_removed_on_response_only `{JsEngine}
    (st : HookState) (sock : WebSocket) :
  ws st = Some sock ->
  (forall now l data_result data_error s,
      ~ attached l (dispatchMessage now (Some (replyTo l data_result data_error)) s))
  /\ (forall now rnd serverName toolName params now',
        let p := (executeTool now rnd serverName toolName params st).1 in
        let st1 := (executeTool now rnd serverName toolName params st).2 in
        let l := ExecuteToolListener (makeRequestId "tool_" now rnd)
                   (createRequestKey "executeTool" serverName
                      (Some (JObj [("toolName", JStr toolName); ("params", params)])))
                   (nextTimer st) p in
        issued st st1 p ->
        attached l st1
        /\ timers st1 !! nextTimer st
           = Some {| delay := 30000; callback := ExecuteToolTimeout p |}
        /\ promises (step st1 (TimerFires now' (nextTimer st))) !! p
           = Some (Rejected (JStr "Tool execution timeout"))
        /\ attached l (step st1 (TimerFires now' (nextTimer st))))
  /\ (forall now rnd serverName now',
        let p := (listResources now rnd serverName st).1 in
        let st1 := (listResources now rnd serverName st).2 in
        let requestKey := createRequestKey "listResources" serverName None in
        let l := ListResourcesListener (makeRequestId "resources_" now rnd)
                   requestKey (nextTimer st) p in
        issued st st1 p ->
        attached l st1
        /\ timers st1 !! nextTimer st
           = Some {| delay := 10000; callback := ListResourcesTimeout requestKey p |}
        /\ promises (step st1 (TimerFires now' (nextTimer st))) !! p
           = Some (Rejected (JStr "List resources timeout"))
        /\ attached l (step st1 (TimerFires now' (nextTimer st))))
  /\ (forall now rnd serverName now',
        let p := (listTools now rnd serverName st).1 in
        let st1 := (listTools now rnd serverName st).2 in
        let requestKey := createRequestKey "listTools" serverName None in
        let l := ListToolsListener (makeRequestId "tools_" now rnd)
                   requestKey (nextTimer st) p in
        issued st st1 p ->
        attached l st1
        /\ timers st1 !! nextTimer st
           = Some {| delay := 10000; callback := ListToolsTimeout requestKey p |}
        /\ promises (step st1 (TimerFires now' (nextTimer st))) !! p
           = Some (Rejected (JStr "List tools timeout"))
        /\ attached l (step st1 (TimerFires now' (nextTimer st)))).
Proof.
  intros Hs. split; [| split; [| split]].
  - intros. apply dispatch_reply_detaches.
  - intros now rnd serverName toolName params now' p st1 l Hiss.
    pose proof (executeTool_issued now rnd serverName toolName params st Hiss) as Heq.
    fold st1 p in Heq. destruct Hiss as [Hp _]. subst l. rewrite Hp.
    rewrite Hp in Heq.
    eapply timeout_keeps_listener; rewrite ?Heq; simpl; rewrite ?Hs; eauto.
  - intros now rnd serverName now' p st1 requestKey l Hiss.
    pose proof (listResources_issued now rnd serverName st Hiss) as Heq.
    fold st1 p requestKey in Heq. destruct Hiss as [Hp _]. subst l. rewrite Hp.
    rewrite Hp in Heq.
    eapply timeout_keeps_listener; rewrite ?Heq; simpl; rewrite ?Hs; eauto.
  - intros now rnd serverName now' p st1 requestKey l Hiss.
    pose proof (listTools_issued now rnd serverName st Hiss) as Heq.
    fold st1 p requestKey in Heq. destruct Hiss as [Hp _]. subst l. rewrite Hp.
    rewrite Hp in Heq.
    eapply timeout_keeps_listener; rewrite ?Heq; simpl; rewrite ?Hs; eauto.
Qed.
Lemma C9_listener_removed_on_response_only_witness :
  let st := openHook (H := sampleEngine) in
  let p := (executeTool (H := sampleEngine) 4000 "k3x9q2m1z" "calculator-server" "add" addParams st).1 in
  let st1 := (executeTool (H := sampleEngine) 4000 "k3x9q2m1z" "calculator-server" "add" addParams st).2 in
  let l := ExecuteToolListener (makeRequestId "tool_" 4000 "k3x9q2m1z")
             (createRequestKey (H := sampleEngine) "executeTool" "calculator-server"
                (Some (JObj [("toolName", JStr "add"); ("params", addParams)])))
             (nextTimer st) p in
  ws st = Some {| readyState := OPEN; listeners := [] |}
  /\ issued st st1 p
  /\ attached l st1
  /\ timers st1 !! nextTimer st
     = Some {| delay := 30000; callback := ExecuteToolTimeout p |}
  /\ promises (step (H := sampleEngine) st1 (TimerFires 34000 (nextTimer st))) !! p
     = Some (Rejected (JStr "Tool execution timeout"))
  /\ attached l (step (H := sampleEngine) st1 (TimerFires 34000 (nextTimer st))).
Proof.
  intros st p st1 l.
  assert (Hws : ws st = Some {| readyState := OPEN; listeners := [] |})
    by (vm_compute; reflexivity).
  assert (Hiss : issued st st1 p) by (split; vm_compute; reflexivity).
  split; [exact Hws | split; [exact Hiss |]].
  exact (proj1 (proj2 (C9_listener_removed_on_response_only (H := sampleEngine) st
           {| readyState := OPEN; listeners := [] |} Hws))
           4000 "k3x9q2m1z" "calculator-server" "add" addParams 34000 Hiss).
Defined.

(** C9 fails as stated: after [executeTool] on an open socket and its
    30-second timeout, the promise is rejected, no timer is left, and the
    call's listener is still attached to the socket. *)
Lemma C9_listener_remains_after_timeout :
  let st := run (H := sampleEngine) (openHook (H := sampleEngine))
              [ CallExecuteTool 4000 "k3x9q2m1z" "calculator-server" "add" addParams;
                TimerFires 34000 2 ] in
  promises st !! 0%nat = Some (Rejected (JStr "Tool execution timeout"))
  /\ map_to_list (timers st) = []
  /\ ws st = Some {| readyState := OPEN;
                     listeners := [ ExecuteToolListener "tool_4000_k3x9q2m1z"
                                      "executeTool:calculator-server:" 2 0 ] |}.
Proof.
  split; [vm_compute; reflexivity | split; vm_compute; reflexivity].
Qed.

(** ** The footprint of an event *)

Section Handlers.
Context `{JsEngine}.

Lemma matches_reply l data_type data_requestId data_result data_error :
  matches l (Some (Reply data_type data_requestId data_result data_error)) = true ->
  Reply data_type data_requestId data_result data_error
  = replyTo l data_result data_error.
Proof.
  unfold matches, replyTo, is_requestId. intros Hm.
  apply andb_prop in Hm as [Ht Hr]. apply String.eqb_eq in Ht as ->.
  destruct data_requestId; try discriminate Hr.
  now apply String.eqb_eq in Hr as ->.
Qed.

Lemma handleResponse_skip now l data s :
  matches l data = false -> handleResponse now l data s = s.
Proof.
  unfold matches, handleResponse.
  destruct data as [[] |]; try reflexivity.
  destruct l; cbn [responseType listenerRequestId]; now intros ->.
Qed.

Lemma replyOutcome_settled l data_result data_error :
  replyOutcome l data_result data_error <> Pending.
Proof. unfold replyOutcome. now destruct (truthy data_error). Qed.

(** The handler on the reply it waits for: it settles its promise, clears
    its timer, removes itself, and touches the cache and the in-flight
    table only under its own key. *)
Lemma handleResponse_hit now l data_result data_error s :
  let s' := handleResponse now l (Some (replyTo l data_result data_error)) s in
  promises s' = promises (settle (listenerPromise l)
                            (replyOutcome l data_result data_error) s)
  /\ timers s' = delete (listenerTimeoutId l) (timers s)
  /\ nextTimer s' = nextTimer s
  /\ reconnectTimeoutRef s' = reconnectTimeoutRef s
  /\ ws s' = ws (removeEventListener l s)
  /\ (forall k, requestCache s' !! k = requestCache s !! k
                \/ ongoingRequests s' !! k = None
                \/ exists requestId timeoutId p,
                     l = ExecuteToolListener requestId k timeoutId p)
  /\ (forall k q, ongoingRequests s' !! k = Some q -> ongoingRequests s !! k = Some q).
Proof.
  destruct l; unfold replyTo, handleResponse; cbn [responseType listenerRequestId];
    cbn [is_requestId]; rewrite !String.eqb_refl; cbn [andb];
    unfold replyOutcome; cbn [fallbackMessage listenerPromise listenerTimeoutId];
    destruct (truthy data_error); simpl;
    repeat split; auto;
    try (intros k q Hk; apply lookup_delete_Some in Hk as [_ Hk]; exact Hk).
  - intros k. destruct (decide (k = requestKey)) as [-> | Hne]; [eauto 10 |].
    left. now rewrite lookup_insert_ne.
  - intros k. destruct (decide (k = requestKey)) as [-> | Hne].
    + right; left. apply lookup_delete_eq.
    + left. now rewrite lookup_insert_ne.
  - intros k. destruct (decide (k = requestKey)) as [-> | Hne].
    + right; left. apply lookup_delete_eq.
    + left. now rewrite lookup_insert_ne.
Qed.

End Handlers.

Section Delivery.
Context `{JsEngine}.

Lemma attached_ws l s1 s2 : ws s1 = ws s2 -> attached l s1 -> attached l s2.
Proof. intros Heq (sock & Hs & Hin). exists sock. now rewrite <- Heq. Qed.

Lemma attached_remove l l' s : attached l (removeEventListener l' s) -> attached l s.
Proof.
  intros (sock & Hs & Hin). simpl in Hs.
  destruct (ws s) as [s0 |] eqn:Hs0; [| discriminate]. injection Hs as <-.
  simpl in Hin. apply list_elem_of_filter in Hin as [_ Hin]. now exists s0.
Qed.

Lemma settle_length p o s : length (promises (settle p o s)) = length (promises s).
Proof.
  unfold settle. simpl. destruct (promises s !! p) as [[] |]; auto.
  apply length_insert.
Qed.

Lemma settle_pending p o s :
  promises s !! p = Some Pending -> promises (settle p o s) !! p = Some o.
Proof.
  intros Hp. unfold settle. simpl. rewrite Hp.
  apply list_lookup_insert_eq. now apply lookup_lt_Some in Hp.
Qed.

Lemma settle_other p o s q x :
  promises s !! q = Some x -> q <> p \/ x <> Pending ->
  promises (settle p o s) !! q = Some x.
Proof.
  intros Hq Hne. unfold settle. simpl.
  destruct (promises s !! p) as [[] |] eqn:Hp; auto.
  destruct (decide (q = p)) as [-> | Hqp].
  - rewrite Hp in Hq. injection Hq as <-. now destruct Hne.
  - now rewrite list_lookup_insert_ne.
Qed.

Lemma settle_not_pending p o s q :
  promises s !! q <> Some Pending -> o <> Pending ->
  promises (settle p o s) !! q <> Some Pending.
Proof.
  intros Hq Ho. unfold settle. simpl.
  destruct (promises s !! p) as [[] |] eqn:Hp; auto.
  destruct (decide (q = p)) as [-> | Hqp]; [congruence |].
  now rewrite list_lookup_insert_ne.
Qed.

Lemma settle_settles p o s :
  o <> Pending -> promises (settle p o s) !! p <> Some Pending.
Proof.
  intros Ho. destruct (promises s !! p) as [x |] eqn:Hp.
  - destruct x.
    + rewrite (settle_pending _ _ _ Hp). congruence.
    + rewrite (settle_other _ _ _ _ _ Hp) by (now right). congruence.
    + rewrite (settle_other _ _ _ _ _ Hp) by (now right). congruence.
  - unfold settle. simpl. rewrite Hp. congruence.
Qed.

Lemma delivering_start st data : delivering st data (onmessage data st).
Proof.
  assert (Heq : ws (onmessage data st) = ws st
                /\ nextTimer (onmessage data st) = nextTimer st
                /\ reconnectTimeoutRef (onmessage data st) = reconnectTimeoutRef st
                /\ promises (onmessage data st) = promises st
                /\ timers (onmessage data st) = timers st
                /\ requestCache (onmessage data st) = requestCache st
                /\ ongoingRequests (onmessage data st) = ongoingRequests st)
    by (destruct data as [[] |]; repeat split; reflexivity).
  destruct Heq as (Hw & Hn & Hr & Hp & Ht & Hc & Ho).
  split.
  - exact Hn.
  - exact Hr.
  - now rewrite Hp.
  - intros l. now apply attached_ws.
  - intros id t. now rewrite Ht.
  - intros id t Hid. left. now rewrite Ht.
  - intros p o Hpo. left. now rewrite Hp.
  - intros k. left. now rewrite Hc.
  - intros k q. now rewrite Ho.
Qed.

Lemma delivering_handle now st data l s :
  delivering st data s -> attached l s ->
  delivering st data (handleResponse now l data s).
Proof.
  intros D Hl. destruct (matches l data) eqn:Hm.
  2:{ now rewrite handleResponse_skip. }
  destruct data as [[| | | data_type data_requestId data_result data_error] |];
    try discriminate Hm.
  rewrite (matches_reply _ _ _ _ _ Hm) in *. clear Hm.
  destruct (handleResponse_hit now l data_result data_error s)
    as (Hp & Ht & Hn & Hr & Hw & Hc & Ho).
  set (s' := handleResponse now l (Some (replyTo l data_result data_error)) s) in *.
  pose proof (replyOutcome_settled l data_result data_error) as Hout.
  assert (Hlst : attached l st) by (now apply (dl_listener _ _ _ D)).
  split.
  - rewrite Hn. apply D.
  - rewrite Hr. apply D.
  - rewrite Hp, settle_length. apply D.
  - intros l' Hl'. apply (dl_listener _ _ _ D).
    apply attached_remove with (l' := l). now apply (attached_ws l' s').
  - intros id t Hid. rewrite Ht in Hid.
    apply lookup_delete_Some in Hid as [_ Hid]. now apply (dl_timer _ _ _ D).
  - intros id t Hid.
    destruct (dl_timer_gone _ _ _ D id t Hid) as [Hin | (l0 & Hl0 & Hid0 & Hp0)].
    + destruct (decide (id = listenerTimeoutId l)) as [-> | Hne].
      * right. exists l. split; [exact Hlst | split; [reflexivity |]].
        rewrite Hp. now apply settle_settles.
      * left. rewrite Ht. now rewrite lookup_delete_ne.
    + right. exists l0. split; [exact Hl0 | split; [exact Hid0 |]].
      rewrite Hp. now apply settle_not_pending.
  - intros p o Hpo.
    destruct (dl_promise _ _ _ D p o Hpo) as [Hsame | (-> & l0 & r0 & e0 & Hd & Hl0 & Hp0 & Hout0)].
    + destruct (decide (p = listenerPromise l)) as [-> | Hne].
      * destruct o.
        -- right. split; [reflexivity |].
           exists l, data_result, data_error.
           split; [reflexivity | split; [exact Hlst | split; [reflexivity |]]].
           rewrite Hp. now apply settle_pending.
        -- left. rewrite Hp. apply settle_other; [exact Hsame | now right].
        -- left. rewrite Hp. apply settle_other; [exact Hsame | now right].
      * left. rewrite Hp. apply settle_other; [exact Hsame | now left].
    + right. split; [reflexivity |]. exists l0, r0, e0.
      split; [exact Hd | split; [exact Hl0 | split; [exact Hp0 |]]].
      rewrite Hp. apply settle_other; [exact Hout0 |]. right.
      apply replyOutcome_settled.
  - intros k.
    destruct (Hc k) as [Hsame | [Hnone | (rid & tid & p & ->)]].
    + destruct (dl_cache _ _ _ D k) as [Hk | [Hk | Hk]].
      * left. congruence.
      * right; left. destruct (ongoingRequests s' !! k) as [q |] eqn:Hq; [| reflexivity].
        apply Ho in Hq. congruence.
      * now right; right.
    + now right; left.
    + right; right. eauto.
  - intros k q Hk. apply (dl_ongoing _ _ _ D). now apply Ho.
Qed.

Lemma dispatch_delivering now data st :
  delivering st data (dispatchMessage now data st).
Proof.
  unfold dispatchMessage.
  destruct (ws st) as [sock |] eqn:Hs.
  2:{ split; auto. }
  pose proof (delivering_start st data) as D. revert D.
  generalize (onmessage data st).
  induction (listeners sock) as [| l ls IH]; intros s D; cbn [fold_left]; [exact D |].
  apply IH. destruct (ws s) as [sock' |] eqn:Hs'; [| exact D].
  destruct (decide (l ∈ listeners sock')) as [Hin | Hnin]; [| exact D].
  apply delivering_handle; [exact D |]. now exists sock'.
Qed.

End Delivery.

Section Footprint.
Context `{JsEngine}.

(** Events that only extend the promises and timers. *)
Lemma footprint_extend s e s' extra :
  (forall now timeoutId, e <> TimerFires now timeoutId) ->
  promises s' = promises s ++ extra ->
  (nextTimer s <= nextTimer s')%nat ->
  (forall timeoutId t,
      timers s' !! timeoutId = Some t ->
      timers s !! timeoutId = Some t
      \/ (timeoutId = nextTimer s /\ (timeoutId < nextTimer s')%nat
          /\ forall p, callbackPromise (callback t) = Some p ->
                       p = length (promises s) /\ (p < length (promises s'))%nat)) ->
  (forall timeoutId t, timers s !! timeoutId = Some t -> timers s' !! timeoutId = Some t) ->
  (forall l,
      attached l s' ->
      attached l s
      \/ (listenerPromise l = length (promises s)
          /\ (listenerPromise l < length (promises s'))%nat
          /\ listenerTimeoutId l = nextTimer s
          /\ (nextTimer s < nextTimer s')%nat
          /\ forall requestId requestKey timeoutId p,
               l = ExecuteToolListener requestId requestKey timeoutId p ->
               exists serverName params,
                 requestKey = createRequestKey "executeTool" serverName (Some params))) ->
  (forall timeoutId,
      reconnectTimeoutRef s' = Some timeoutId ->
      reconnectTimeoutRef s = Some timeoutId
      \/ (timeoutId = nextTimer s /\ (timeoutId < nextTimer s')%nat)) ->
  requestCache s' = requestCache s ->
  (forall k q,
      ongoingRequests s' !! k = Some q ->
      ongoingRequests s !! k = Some q
      \/ (q = length (promises s) /\ (q < length (promises s'))%nat)) ->
  footprint s e s'.
Proof.
  intros He Hp Hn Ht Hkeep Hl Hr Hc Ho. split.
  - exact Hn.
  - rewrite Hp, length_app. lia.
  - exact Ht.
  - exact Hl.
  - exact Hr.
  - intros id t Hid. left. now apply Hkeep.
  - intros now id t p ->. now destruct (He now id).
  - intros p o Hpo. left. rewrite Hp. now apply lookup_app_l_Some.
  - intros k. left. now rewrite Hc.
  - exact Ho.
Qed.

Lemma attached_readyState l rs s : attached l (set_readyState rs s) -> attached l s.
Proof.
  intros (sock & Hs & Hin). simpl in Hs.
  destruct (ws s) as [s0 |] eqn:Hs0; [| discriminate]. injection Hs as <-.
  now exists s0.
Qed.

Lemma wf_timer_fresh s : wf s -> timers s !! nextTimer s = None.
Proof.
  intros (_ & Ht & _). destruct (timers s !! nextTimer s) as [t |] eqn:Hl; [| reflexivity].
  apply Ht in Hl as [Hlt _]. lia.
Qed.

(** [onclose] after a step [s0] of [s] that kept everything but the socket. *)
Lemma footprint_onclose code s s0 e :
  wf s ->
  (forall now timeoutId, e <> TimerFires now timeoutId) ->
  promises s0 = promises s -> nextTimer s0 = nextTimer s -> timers s0 = timers s ->
  reconnectTimeoutRef s0 = reconnectTimeoutRef s ->
  requestCache s0 = requestCache s -> ongoingRequests s0 = ongoingRequests s ->
  (forall l, attached l s0 -> attached l s) ->
  footprint s e (onclose code s0).
Proof.
  intros Hwf He Hp Hn Ht Hr Hc Ho Hl.
  pose proof (wf_timer_fresh s Hwf) as Hfresh.
  assert (Hcases :
    onclose code s0 = set_isConnecting false (set_connected false s0)
    \/ onclose code s0
       = set_reconnectAttempts (reconnectAttempts s0 + 1)
           (set_reconnectTimeoutRef (Some (nextTimer s0))
              (setTimeout ConnectCallback
                 (Z.min (2000 + reconnectAttempts s0 * 1000) 10000)
                 (set_isConnecting false (set_connected false s0))).2)).
  { unfold onclose. simpl. repeat case_match; auto. }
  destruct Hcases as [-> | ->];
    apply footprint_extend with (extra := []); simpl;
    rewrite ?app_nil_r, ?Hp, ?Hn, ?Ht, ?Hr, ?Hc, ?Ho; auto.
  all: try (intros l Hl'; left; apply Hl; revert Hl'; now apply attached_ws).
  all: try (intros id [= <-]; right; split; [reflexivity | lia]).
  - intros id t Hid.
    apply lookup_insert_Some in Hid as [[<- <-] | [_ Hid]]; [right | now left].
    split; [reflexivity | split; [lia | discriminate]].
  - intros id t Hid. rewrite lookup_insert_ne; [exact Hid | congruence].
Qed.

Lemma attached_connect l s : attached l (connect s) -> attached l s.
Proof.
  unfold connect. intros (sock & Hs & Hin). revert Hs.
  destruct (isConnecting s); [intros Hs; now exists sock |].
  simpl. destruct (url_ok s); simpl.
  - intros [= <-]. now apply not_elem_of_nil in Hin.
  - destruct (ws s) as [s0 |] eqn:Hs0; [| discriminate].
    destruct (decide (readyState s0 = CLOSED)); intros [= <-]; now exists s0.
Qed.

Lemma connect_frame s :
  promises (connect s) = promises s /\ timers (connect s) = timers s
  /\ nextTimer (connect s) = nextTimer s
  /\ reconnectTimeoutRef (connect s) = reconnectTimeoutRef s
  /\ requestCache (connect s) = requestCache s
  /\ ongoingRequests (connect s) = ongoingRequests s.
Proof. unfold connect. repeat (case_match; simpl); auto 10. Qed.

(** A call that creates a promise, arms a timer and attaches a listener. *)
Lemma footprint_issue s e s' l cb ms :
  wf s ->
  (forall now timeoutId, e <> TimerFires now timeoutId) ->
  promises s' = promises s ++ [Pending] ->
  nextTimer s' = S (nextTimer s) ->
  timers s' = <[nextTimer s := {| delay := ms; callback := cb |}]> (timers s) ->
  ws s' = ws (addEventListener l s) ->
  reconnectTimeoutRef s' = reconnectTimeoutRef s ->
  requestCache s' = requestCache s ->
  (ongoingRequests s' = ongoingRequests s
   \/ exists k, ongoingRequests s' = <[k := length (promises s)]> (ongoingRequests s)) ->
  callbackPromise cb = Some (length (promises s)) ->
  listenerPromise l = length (promises s) ->
  listenerTimeoutId l = nextTimer s ->
  (forall requestId requestKey timeoutId p,
      l = ExecuteToolListener requestId requestKey timeoutId p ->
      exists serverName params,
        requestKey = createRequestKey "executeTool" serverName (Some params)) ->
  footprint s e s'.
Proof.
  intros Hwf He Hp Hn Ht Hw Hr Hc Ho Hcb Hlp Hlt Hkey.
  pose proof (wf_timer_fresh s Hwf) as Hfresh.
  apply footprint_extend with (extra := [Pending]); auto.
  - lia.
  - intros id t Hid. rewrite Ht in Hid.
    apply lookup_insert_Some in Hid as [[<- <-] | [_ Hid]]; [right | now left].
    split; [reflexivity | split; [lia |]]. simpl. intros p Hpp.
    rewrite Hcb in Hpp. injection Hpp as <-. rewrite Hp, length_app. simpl. lia.
  - intros id t Hid. rewrite Ht, lookup_insert_ne; [exact Hid | congruence].
  - intros l' (sock & Hs & Hin). rewrite Hw in Hs. simpl in Hs.
    destruct (ws s) as [s0 |] eqn:Hs0; [| discriminate]. injection Hs as <-.
    simpl in Hin. apply elem_of_app in Hin as [Hin | Hin].
    + left. now exists s0.
    + apply list_elem_of_singleton in Hin as ->. right.
      rewrite Hp, length_app, Hlp, Hlt. simpl. repeat split; auto; lia.
  - intros id Hid. left. now rewrite <- Hr.
  - intros k q Hk. destruct Ho as [Ho | [k' Ho]]; rewrite Ho in Hk; [now left |].
    apply lookup_insert_Some in Hk as [[_ <-] | [_ Hk]]; [right | now left].
    rewrite Hp, length_app. simpl. lia.
Qed.

(** A call answered at once with a fresh fulfilled promise. *)
Lemma footprint_cached s e v :
  (forall now timeoutId, e <> TimerFires now timeoutId) ->
  footprint s e (Promise_resolve v s).2.
Proof.
  intros He. apply footprint_extend with (extra := [Fulfilled v]); simpl; auto.
Qed.

Lemma footprint_refl s e :
  (forall now timeoutId, e <> TimerFires now timeoutId) -> footprint s e s.
Proof.
  intros He. apply footprint_extend with (extra := []); auto.
  now rewrite app_nil_r.
Qed.

Lemma footprint_timer now timeoutId s :
  footprint s (TimerFires now timeoutId) (step s (TimerFires now timeoutId)).
Proof.
  cbn [step]. destruct (timers s !! timeoutId) as [t |] eqn:Hl.
  2:{ split; auto.
      all: try (intros k; now left).
      all: intros ? ? ? ? [= -> ->] Hid; congruence. }
  set (s0 := clearTimeout timeoutId s).
  assert (Hfr : promises (runTimer now (callback t) s0)
                = match callbackPromise (callback t) with
                  | Some p => promises (settle p (timeoutOutcome (callback t)) s)
                  | None => promises s
                  end
                /\ timers (runTimer now (callback t) s0) = delete timeoutId (timers s)
                /\ nextTimer (runTimer now (callback t) s0) = nextTimer s
                /\ reconnectTimeoutRef (runTimer now (callback t) s0) = reconnectTimeoutRef s
                /\ requestCache (runTimer now (callback t) s0) = requestCache s
                /\ (forall l, attached l (runTimer now (callback t) s0) -> attached l s)
                /\ (forall k q, ongoingRequests (runTimer now (callback t) s0) !! k = Some q ->
                                ongoingRequests s !! k = Some q)).
  { destruct (callback t); cbn [runTimer callbackPromise timeoutOutcome].
    - destruct (connect_frame s0) as (-> & -> & -> & -> & -> & ->).
      repeat split; auto. intros l Hl'. now apply attached_connect in Hl'.
    - repeat split; auto.
    - repeat split; auto. simpl. intros k q Hk.
      now apply lookup_delete_Some in Hk as [_ Hk].
    - repeat split; auto.
    - repeat split; auto. simpl. intros k q Hk.
      now apply lookup_delete_Some in Hk as [_ Hk]. }
  destruct Hfr as (Hp & Ht & Hn & Hr & Hc & Hatt & Ho).
  assert (Hlen : length (promises (runTimer now (callback t) s0)) = length (promises s)).
  { rewrite Hp. destruct (callbackPromise (callback t)); [apply settle_length | reflexivity]. }
  split.
  - lia.
  - lia.
  - intros id t' Hid. left. rewrite Ht in Hid.
    now apply lookup_delete_Some in Hid as [_ Hid].
  - intros l Hl'. left. now apply Hatt.
  - intros id Hid. left. now rewrite <- Hr.
  - intros id t' Hid. destruct (decide (id = timeoutId)) as [-> | Hne]; [eauto |].
    left. rewrite Ht. now rewrite lookup_delete_ne.
  - intros now' id t' p [= -> ->] Hid Hcb Hpend.
    rewrite Hl in Hid. injection Hid as <-. rewrite Hp, Hcb.
    now apply settle_pending.
  - intros p o Hpo. rewrite Hp.
    destruct (callbackPromise (callback t)) as [p' |] eqn:Hcb; [| now left].
    destruct (decide (p = p')) as [-> | Hne].
    + destruct o.
      * right. split; [reflexivity |]. left. exists now, timeoutId, t.
        repeat split; auto. now apply settle_pending.
      * left. apply settle_other; [exact Hpo | now right].
      * left. apply settle_other; [exact Hpo | now right].
    + left. apply settle_other; [exact Hpo | now left].
  - intros k. left. now rewrite Hc.
  - intros k q Hk. left. now apply Ho.
Qed.

Lemma footprint_message now data s :
  footprint s (SocketMessage now data) (dispatchMessage now data s).
Proof.
  pose proof (dispatch_delivering now data s) as D.
  split.
  - rewrite (dl_nextTimer _ _ _ D). lia.
  - rewrite (dl_length _ _ _ D). lia.
  - intros id t Hid. left. now apply (dl_timer _ _ _ D).
  - intros l Hl. left. now apply (dl_listener _ _ _ D).
  - intros id Hid. left. now rewrite <- (dl_ref _ _ _ D).
  - intros id t Hid.
    destruct (dl_timer_gone _ _ _ D id t Hid) as [Hk | Hg]; [now left |].
    right; right; now left.
  - intros now' id t p [=].
  - intros p o Hpo.
    destruct (dl_promise _ _ _ D p o Hpo) as [Hk | (-> & l & r & e & -> & Hl & Hp & Hout)];
      [now left |].
    right. split; [reflexivity |]. right. exists now, l, r, e. auto.
  - apply (dl_cache _ _ _ D).
  - intros k q Hk. left. now apply (dl_ongoing _ _ _ D).
Qed.

Lemma footprint_manualReconnect s :
  footprint s CallManualReconnect (manualReconnect s).
Proof.
  unfold manualReconnect.
  set (s1 := match reconnectTimeoutRef (set_reconnectAttempts 0 s) with
             | Some timeoutId => clearTimeout timeoutId (set_reconnectAttempts 0 s)
             | None => set_reconnectAttempts 0 s
             end).
  assert (Hs1 : promises s1 = promises s /\ nextTimer s1 = nextTimer s
                /\ reconnectTimeoutRef s1 = reconnectTimeoutRef s
                /\ requestCache s1 = requestCache s
                /\ ongoingRequests s1 = ongoingRequests s
                /\ ws s1 = ws s
                /\ (timers s1 = timers s
                    \/ exists rid, reconnectTimeoutRef s = Some rid
                                   /\ timers s1 = delete rid (timers s))).
  { subst s1. simpl. destruct (reconnectTimeoutRef s) as [rid |] eqn:Href; simpl;
    repeat split; eauto. }
  destruct Hs1 as (Hp & Hn & Hr & Hc & Ho & Hw & Ht).
  destruct (connect_frame s1) as (Hp' & Ht' & Hn' & Hr' & Hc' & Ho').
  split.
  - rewrite Hn', Hn. lia.
  - rewrite Hp', Hp. lia.
  - intros id t Hid. left. rewrite Ht' in Hid.
    destruct Ht as [Ht | (rid & _ & Ht)]; rewrite Ht in Hid; [exact Hid |].
    now apply lookup_delete_Some in Hid as [_ Hid].
  - intros l Hl. left. apply attached_connect in Hl. revert Hl. now apply attached_ws.
  - intros id Hid. left. now rewrite <- Hr, <- Hr'.
  - intros id t Hid. rewrite Ht'.
    destruct Ht as [Ht | (rid & Href & Ht)]; rewrite Ht; [now left |].
    destruct (decide (id = rid)) as [-> | Hne]; [now right; right; right |].
    left. now rewrite lookup_delete_ne.
  - intros now id t p [=].
  - intros p o Hpo. left. now rewrite Hp', Hp.
  - intros k. left. now rewrite Hc', Hc.
  - intros k q Hk. left. now rewrite <- Ho, <- Ho'.
Qed.

(** Every event leaves its footprint. *)
Lemma step_footprint s e : wf s -> footprint s e (step s e).
Proof.
  intros Hwf. destruct e; cbn [step].
  - (* SocketOpen *)
    destruct (ws s) as [sock |]; [| now apply footprint_refl].
    destruct (decide (readyState sock = CONNECTING)); [| now apply footprint_refl].
    apply footprint_extend with (extra := []); simpl; rewrite ?app_nil_r; auto.
    intros l Hl. left. revert Hl. apply (attached_readyState l OPEN).
  - (* SocketClose *)
    destruct (ws s) as [sock |]; [| now apply footprint_refl].
    destruct (decide (readyState sock = CLOSED)); [now apply footprint_refl |].
    apply footprint_onclose; auto. intros l. apply attached_readyState.
  - (* OldSocketClose *)
    apply footprint_onclose; auto.
  - (* SocketError *)
    destruct (ws s) as [sock |]; [| now apply footprint_refl].
    apply footprint_extend with (extra := []); simpl; rewrite ?app_nil_r; auto.
  - (* SocketMessage *)
    destruct (ws s) as [sock |].
    2:{ apply footprint_extend with (extra := []); simpl; rewrite ?app_nil_r; auto. }
    destruct (decide (readyState sock = OPEN)); [apply footprint_message |].
    apply footprint_extend with (extra := []); simpl; rewrite ?app_nil_r; auto.
  - apply footprint_timer.
  - apply footprint_manualReconnect.
  - (* executeTool *)
    unfold executeTool. destruct (_ && _); [now apply footprint_cached |].
    eapply footprint_issue; simpl; eauto.
    intros ? ? ? ? [= <- <- <- <-]. eauto.
  - unfold listResources.
    destruct (truthy _); [now apply footprint_cached |].
    destruct (_ !! _); [now apply footprint_refl |].
    eapply footprint_issue; simpl; eauto. discriminate.
  - unfold readResource. eapply footprint_issue; simpl; eauto. discriminate.
  - unfold listTools.
    destruct (truthy _); [now apply footprint_cached |].
    destruct (_ !! _); [now apply footprint_refl |].
    eapply footprint_issue; simpl; eauto. discriminate.
Qed.

End Footprint.

(** ** Well-formed states *)

Section WellFormed.
Context `{JsEngine}.

Lemma wf_step s e : wf s -> wf (step s e).
Proof.
  intros Hwf. pose proof (step_footprint s e Hwf) as F.
  destruct Hwf as (Wl & Wt & Wr & Wk).
  pose proof (fp_nextTimer _ _ _ F) as Hn. pose proof (fp_length _ _ _ F) as Hlen.
  split; [| split; [| split]].
  - intros l Hl.
    destruct (fp_new_listener _ _ _ F l Hl) as [Hold | (Hp & Hlt & Ht & Hlt' & _)]; [| lia].
    apply Wl in Hold. lia.
  - intros id t Hid.
    destruct (fp_new_timer _ _ _ F id t Hid) as [Hold | (_ & Hlt & Hnew)].
    + apply Wt in Hold as [Hold Hp]. split; [lia |].
      intros p Hcb. specialize (Hp p Hcb). lia.
    + split; [lia |]. intros p Hcb. now apply Hnew in Hcb.
  - intros id Hid. destruct (fp_ref _ _ _ F id Hid) as [Hold | [_ Hlt]]; [| lia].
    apply Wr in Hold. lia.
  - intros rid key tid p Hl.
    destruct (fp_new_listener _ _ _ F _ Hl) as [Hold | (_ & _ & _ & _ & Hk)].
    + now apply Wk in Hold.
    + now apply (Hk rid key tid p).
Qed.

Lemma wf_initial b : wf (initial b).
Proof.
  split; [| split; [| split]].
  - intros l (sock & Hs & _). discriminate Hs.
  - intros id t Hid. simpl in Hid.
    apply lookup_singleton_Some in Hid as [<- <-]. split; [simpl; lia | discriminate].
  - discriminate.
  - intros rid key tid p (sock & Hs & _). discriminate Hs.
Qed.

Lemma wf_run (events : list Event) : forall s, wf s -> wf (run s events).
Proof.
  induction events as [| e events IH]; intros s Hwf; [exact Hwf |].
  cbn [run fold_left]. apply IH. now apply wf_step.
Qed.

(** Every state the hook can reach after mounting is well formed. *)
Lemma wf_reachable b (events : list Event) : wf (run (initial b) events).
Proof. apply wf_run, wf_initial. Qed.

End WellFormed.

(** ** Settlement of a call's promise *)

Section Ownership.
Context `{JsEngine}.

Lemma step_settled_stable s e p o :
  wf s -> promises s !! p = Some o -> o <> Pending ->
  promises (step s e) !! p = Some o.
Proof.
  intros Hwf Hp Ho.
  destruct (fp_promise _ _ _ (step_footprint s e Hwf) p o Hp) as [Hk | [-> _]];
    [exact Hk | contradiction].
Qed.

Lemma run_settled_stable (events : list Event) : forall s p o,
  wf s -> promises s !! p = Some o -> o <> Pending ->
  promises (run s events) !! p = Some o.
Proof.
  induction events as [| e events IH]; intros s p o Hwf Hp Ho; [exact Hp |].
  cbn [run fold_left]. apply IH; [now apply wf_step | | exact Ho].
  now apply step_settled_stable.
Qed.

Lemma owns_step l T s e :
  wf s -> callbackPromise (callback T) = Some (listenerPromise l) ->
  owns l T s -> owns l T (step s e).
Proof.
  intros Hwf HT (I1 & I2 & I3 & I4 & I5 & I6).
  pose proof (step_footprint s e Hwf) as F.
  pose proof (fp_nextTimer _ _ _ F) as Hn. pose proof (fp_length _ _ _ F) as Hlen.
  split; [lia | split; [lia | split; [| split; [| split]]]].
  - intros Href. destruct (fp_ref _ _ _ F _ Href) as [Hold | [Heq _]]; [contradiction | lia].
  - intros l' Hl' Hor.
    destruct (fp_new_listener _ _ _ F l' Hl') as [Hold | (Hp & _ & Ht & _)];
      [now apply I4 | lia].
  - intros i t Hi Hor.
    destruct (fp_new_timer _ _ _ F i t Hi) as [Hold | (-> & _ & Hnew)];
      [now apply (I5 i t) |].
    destruct Hor as [Heq | Hcb]; [lia |]. apply Hnew in Hcb as [Heq _]. lia.
  - intros Hpend.
    assert (Hold : promises s !! listenerPromise l = Some Pending).
    { destruct (lookup_lt_is_Some_2 (promises s) (listenerPromise l) I1) as [o Ho].
      destruct o; [exact Ho | |];
        rewrite (step_settled_stable s e _ _ Hwf Ho) in Hpend; discriminate. }
    specialize (I6 Hold).
    destruct (fp_timer_gone _ _ _ F _ _ I6) as [Hk | [[now ->] | [(l' & Hl' & Ht' & Hp') | Href]]].
    + exact Hk.
    + rewrite (fp_timer_fires _ _ _ F now _ T _ eq_refl I6 HT Hold) in Hpend.
      discriminate.
    + assert (l' = l) as -> by (apply I4; auto). contradiction.
    + contradiction.
Qed.

Lemma owns_run l T (events : list Event) : forall s,
  wf s -> callbackPromise (callback T) = Some (listenerPromise l) ->
  owns l T s -> owns l T (run s events).
Proof.
  induction events as [| e events IH]; intros s Hwf HT Ho; [exact Ho |].
  cbn [run fold_left]. apply IH; [now apply wf_step | exact HT |].
  now apply owns_step.
Qed.

(** While a call owns its pending promise: the timer is armed, its coming
    due rejects the promise, and any event either leaves the promise
    pending or is the matching reply or the timeout. *)
Lemma owns_pending l T s :
  wf s -> callbackPromise (callback T) = Some (listenerPromise l) ->
  owns l T s ->
  promises s !! listenerPromise l = Some Pending ->
  timers s !! listenerTimeoutId l = Some T
  /\ (forall now,
        promises (step s (TimerFires now (listenerTimeoutId l))) !! listenerPromise l
        = Some (timeoutOutcome (callback T)))
  /\ (forall e,
        promises (step s e) !! listenerPromise l = Some Pending
        \/ (exists now result error,
              e = SocketMessage now (Some (replyTo l result error))
              /\ promises (step s e) !! listenerPromise l
                 = Some (replyOutcome l result error))
        \/ (exists now,
              e = TimerFires now (listenerTimeoutId l)
              /\ promises (step s e) !! listenerPromise l
                 = Some (timeoutOutcome (callback T)))).
Proof.
  intros Hwf HT (I1 & I2 & I3 & I4 & I5 & I6) Hpend.
  specialize (I6 Hpend). split; [exact I6 | split].
  - intros now.
    apply (fp_timer_fires _ _ _ (step_footprint s _ Hwf) now _ T _ eq_refl I6 HT Hpend).
  - intros e.
    destruct (fp_promise _ _ _ (step_footprint s e Hwf) _ _ Hpend)
      as [Hk | [_ [(now & i & t & -> & Hi & Hcb & Hout)
                  | (now & l' & r & err & -> & Hl' & Hp' & Hout)]]].
    + now left.
    + right; right. destruct (I5 i t Hi (or_intror Hcb)) as [-> ->]. eauto.
    + right; left. assert (l' = l) as -> by (apply I4; auto). eauto.
Qed.

(** A well-formed state hands ownership to the call it issues. *)
Lemma owns_issued s s' l T :
  wf s ->
  promises s' = promises s ++ [Pending] ->
  nextTimer s' = S (nextTimer s) ->
  timers s' = <[nextTimer s := T]> (timers s) ->
  ws s' = ws (addEventListener l s) ->
  reconnectTimeoutRef s' = reconnectTimeoutRef s ->
  callbackPromise (callback T) = Some (length (promises s)) ->
  listenerPromise l = length (promises s) ->
  listenerTimeoutId l = nextTimer s ->
  owns l T s'.
Proof.
  intros (Wl & Wt & Wr & _) Hp Hn Ht Hw Hr HT Hlp Hlt.
  unfold owns. rewrite Hlp, Hlt, Hp, Hn, Ht, Hr, length_app. simpl.
  split; [lia | split; [lia | split; [| split; [| split]]]].
  - intros Href. apply Wr in Href. lia.
  - intros l' (sock & Hs & Hin) Hor. rewrite Hw in Hs. simpl in Hs.
    destruct (ws s) as [s0 |] eqn:Hs0; [| discriminate]. injection Hs as <-.
    simpl in Hin. apply elem_of_app in Hin as [Hin | Hin].
    + assert (Hatt : attached l' s) by (now exists s0). apply Wl in Hatt. lia.
    + now apply list_elem_of_singleton in Hin.
  - intros i t Hi Hor.
    apply lookup_insert_Some in Hi as [[<- <-] | [Hne Hi]]; [now split |].
    apply Wt in Hi as [Hlt' Hcb]. destruct Hor as [-> | Hor]; [lia |].
    apply Hcb in Hor. lia.
  - intros _. apply lookup_insert_eq.
Qed.

End Ownership.

Section RunLength.
Context `{JsEngine}.

Lemma run_promises_length (events : list Event) : forall s,
  wf s -> (length (promises s) <= length (promises (run s events)))%nat.
Proof.
  induction events as [| e events IH]; intros s Hwf; [reflexivity |].
  specialize (IH (step s e) (wf_step s e Hwf)).
  pose proof (fp_length _ _ _ (step_footprint s e Hwf)) as Hlen.
  unfold run in *. cbn [fold_left]. lia.
Qed.

End RunLength.


(** ** Deduplication and the cache *)

Section Dedup.
Context `{JsEngine}.





End Dedup.

Section CachedCalls.
Context `{JsEngine}.

(** A call creates a new pending promise exactly when it misses the cache
    and, for the list calls, finds nothing in flight under its key. *)
Lemma invoke_issued_iff c now rnd st :
  issued st (invoke c now rnd st).2 (invoke c now rnd st).1
  <-> cacheHit c now st = false
      /\ (registers c = true -> ongoingRequests st !! callKey c = None).
Proof.
  unfold issued. destruct c; cbn [invoke cacheHit registers callKey].
  - unfold executeTool. destruct (_ && _); simpl.
    + rewrite lookup_snoc. split; [intros [_ [=]] | intros [[=] _]].
    + rewrite lookup_snoc. split; [intros _; split; [auto | discriminate] | auto].
  - unfold listResources. destruct (truthy _); simpl.
    + rewrite lookup_snoc. split; [intros [_ [=]] | intros [[=] _]].
    + destruct (ongoingRequests st !! _) as [q |] eqn:Hq; simpl.
      * split; [intros [-> Hl] | intros [_ Hn]; discriminate (Hn eq_refl)].
        rewrite lookup_ge_None_2 in Hl by lia. discriminate.
      * rewrite lookup_snoc. split; auto.
  - unfold listTools. destruct (truthy _); simpl.
    + rewrite lookup_snoc. split; [intros [_ [=]] | intros [[=] _]].
    + destruct (ongoingRequests st !! _) as [q |] eqn:Hq; simpl.
      * split; [intros [-> Hl] | intros [_ Hn]; discriminate (Hn eq_refl)].
        rewrite lookup_ge_None_2 in Hl by lia. discriminate.
      * rewrite lookup_snoc. split; auto.
Qed.

(** The state a call leaves when it creates its promise. *)
Lemma invoke_issued_state c now rnd st :
  issued st (invoke c now rnd st).2 (invoke c now rnd st).1 ->
  (invoke c now rnd st).1 = length (promises st)
  /\ (invoke c now rnd st).2
     = set_ongoingRequests
         (if registers c
          then <[callKey c := length (promises st)]> (ongoingRequests st)
          else ongoingRequests st)
         (sendMessage (callRequest c now rnd)
            (addEventListener (callListener c now rnd st)
               (setTimeout (callback (callTimer c st)) (delay (callTimer c st))
                  (new_Promise st).2).2)).
Proof.
  intros Hiss. pose proof Hiss as [Hp _]. split; [exact Hp |].
  destruct c; cbn [invoke registers callKey callRequest callListener callTimer] in *.
  - rewrite (executeTool_issued _ _ _ _ _ _ Hiss). rewrite Hp. reflexivity.
  - rewrite (listResources_issued _ _ _ _ Hiss). rewrite Hp. reflexivity.
  - rewrite (listTools_issued _ _ _ _ Hiss). rewrite Hp. reflexivity.
Qed.


(** Timeouts never write the cache. *)
Lemma timer_keeps_cache s now timeoutId :
  requestCache (step s (TimerFires now timeoutId)) = requestCache s.
Proof.
  cbn [step]. destruct (timers s !! timeoutId) as [t |]; [| reflexivity].
  destruct (callback t); cbn [runTimer]; auto.
  now destruct (connect_frame (clearTimeout timeoutId s)) as (_ & _ & _ & _ & -> & _).
Qed.


End CachedCalls.

Section ReplyHandled.
Context `{JsEngine}.

Lemma handleResponse_ongoing now l data s k :
  ongoingRequests s !! k = None ->
  ongoingRequests (handleResponse now l data s) !! k = None.
Proof.
  intros Hk. destruct (matches l data) eqn:Hm.
  2:{ now rewrite handleResponse_skip. }
  destruct data as [[| | | ty rid r e] |]; try discriminate Hm.
  rewrite (matches_reply _ _ _ _ _ Hm).
  destruct (handleResponse_hit now l r e s) as (_ & _ & _ & _ & _ & _ & Ho).
  destruct (ongoingRequests (handleResponse _ _ _ _) !! k) as [q |] eqn:Hq; [| reflexivity].
  apply Ho in Hq. congruence.
Qed.

Lemma handleResponse_not_pending now l data s p :
  promises s !! p <> Some Pending ->
  promises (handleResponse now l data s) !! p <> Some Pending.
Proof.
  intros Hp. destruct (matches l data) eqn:Hm.
  2:{ now rewrite handleResponse_skip. }
  destruct data as [[| | | ty rid r e] |]; try discriminate Hm.
  rewrite (matches_reply _ _ _ _ _ Hm).
  destruct (handleResponse_hit now l r e s) as (-> & _).
  apply settle_not_pending; [exact Hp | apply replyOutcome_settled].
Qed.

Lemma handled_stable now l l' data s :
  handled l s -> handled l (handleResponse now l' data s).
Proof.
  intros [Hp Hk]. split.
  - now apply handleResponse_not_pending.
  - intros k Hl. apply handleResponse_ongoing. now apply Hk.
Qed.

Lemma handleResponse_hit_handled now l data_result data_error s :
  handled l (handleResponse now l (Some (replyTo l data_result data_error)) s).
Proof.
  split.
  - destruct (handleResponse_hit now l data_result data_error s) as (-> & _).
    apply settle_settles, replyOutcome_settled.
  - intros k Hk.
    destruct l; try discriminate Hk; injection Hk as <-;
      unfold replyTo, handleResponse; cbn [responseType listenerRequestId is_requestId];
      rewrite !String.eqb_refl; cbn [andb]; destruct (truthy data_error); simpl;
      apply lookup_delete_eq.
Qed.

Lemma attached_handle_other now l l' data s :
  l <> l' -> attached l s -> attached l (handleResponse now l' data s).
Proof.
  intros Hne (sock & Hs & Hin).
  destruct (handleResponse_listeners now l' data s) as [Heq | Heq].
  - exists sock. now rewrite Heq.
  - apply (attached_ws l (removeEventListener l' s)); [now symmetry |].
    unfold attached. simpl. rewrite Hs. eexists. split; [reflexivity |].
    simpl. apply list_elem_of_filter. now split.
Qed.

(** Delivery of the reply an attached listener waits for runs its handler. *)
Lemma dispatch_reply_handled now l data_result data_error s :
  attached l s ->
  handled l (dispatchMessage now (Some (replyTo l data_result data_error)) s).
Proof.
  intros Hatt.
  pose proof (dispatch_reply_detaches now l data_result data_error s) as Hdet.
  assert (Hor : attached l (dispatchMessage now (Some (replyTo l data_result data_error)) s)
                \/ handled l (dispatchMessage now (Some (replyTo l data_result data_error)) s));
    [| now destruct Hor].
  clear Hdet. unfold dispatchMessage.
  destruct (ws s) as [sock |] eqn:Hs; [| now left].
  set (data := Some (replyTo l data_result data_error)).
  assert (Hstart : attached l (onmessage data s) \/ handled l (onmessage data s)).
  { left. revert Hatt. now apply attached_ws. }
  revert Hstart. generalize (onmessage data s).
  induction (listeners sock) as [| l' ls IH]; intros s0 Hstart; cbn [fold_left];
    [exact Hstart |].
  apply IH.
  destruct (ws s0) as [sock' |] eqn:Hs0; [| exact Hstart].
  destruct (decide (l' ∈ listeners sock')) as [Hin | Hnin]; [| exact Hstart].
  destruct Hstart as [Ha | Hh]; [| right; now apply handled_stable].
  destruct (decide (l = l')) as [<- | Hne].
  - right. apply handleResponse_hit_handled.
  - left. now apply attached_handle_other.
Qed.

Lemma dispatch_keeps_open now data s sock :
  ws s = Some sock -> readyState sock = OPEN ->
  exists sock', ws (dispatchMessage now data s) = Some sock' /\ readyState sock' = OPEN.
Proof.
  intros Hs Hopen.
  apply (dispatch_preserves
           (fun s' => exists sock', ws s' = Some sock' /\ readyState sock' = OPEN)).
  - intros s0 Hs0. now destruct data as [[] |].
  - intros l s0 (sock0 & Hs0 & Ho0).
    destruct (handleResponse_listeners now l data s0) as [-> | ->]; [eauto |].
    simpl. rewrite Hs0. eauto.
  - eauto.
Qed.

End ReplyHandled.

Section Retry.
Context `{JsEngine}.

Lemma wf_invoke c now rnd st : wf st -> wf (invoke c now rnd st).2.
Proof.
  intros Hwf. destruct c as [srv tool prm | srv | srv]; cbn [invoke].
  - apply (wf_step st (CallExecuteTool now rnd srv tool prm) Hwf).
  - apply (wf_step st (CallListResources now rnd srv) Hwf).
  - apply (wf_step st (CallListTools now rnd srv) Hwf).
Qed.

(** A call that misses the cache and finds nothing in flight sends its
    request over the open socket. *)
Lemma invoke_sends c now rnd s sock :
  ws s = Some sock -> readyState sock = OPEN ->
  cacheHit c now s = false ->
  (registers c = true -> ongoingRequests s !! callKey c = None) ->
  issued s (invoke c now rnd s).2 (invoke c now rnd s).1
  /\ sent (invoke c now rnd s).2 = sent s ++ [callRequest c now rnd].
Proof.
  intros Hs Hopen Hmiss Hfree.
  assert (Hiss : issued s (invoke c now rnd s).2 (invoke c now rnd s).1)
    by (now apply invoke_issued_iff).
  split; [exact Hiss |].
  destruct (invoke_issued_state c now rnd s Hiss) as [_ ->].
  simpl. rewrite Hs. simpl. now rewrite decide_True.
Qed.

Lemma callListener_facts c now rnd st :
  listenerPromise (callListener c now rnd st) = length (promises st)
  /\ listenerTimeoutId (callListener c now rnd st) = nextTimer st
  /\ callbackPromise (callback (callTimer c st)) = Some (length (promises st))
  /\ (registers c = true ->
      listenerOngoingKey (callListener c now rnd st) = Some (callKey c))
  /\ fallbackMessage (callListener c now rnd st)
     = match c with
       | ToolCall _ _ _ => "Tool execution failed"
       | ResourcesCall _ => "Failed to list resources"
       | ToolsCall _ => "Failed to list tools"
       end.
Proof. destruct c; repeat split; auto; discriminate. Qed.

(** The state after an issued call, field by field. *)
Lemma invoke_issued_fields c now rnd st sock :
  ws st = Some sock ->
  issued st (invoke c now rnd st).2 (invoke c now rnd st).1 ->
  let st1 := (invoke c now rnd st).2 in
  promises st1 = promises st ++ [Pending]
  /\ nextTimer st1 = S (nextTimer st)
  /\ timers st1 = <[nextTimer st := callTimer c st]> (timers st)
  /\ ws st1 = ws (addEventListener (callListener c now rnd st) st)
  /\ reconnectTimeoutRef st1 = reconnectTimeoutRef st
  /\ requestCache st1 = requestCache st
  /\ attached (callListener c now rnd st) st1
  /\ exists sock1, ws st1 = Some sock1 /\ readyState sock1 = readyState sock.
Proof.
  intros Hs Hiss st1. subst st1.
  destruct (invoke_issued_state c now rnd st Hiss) as [_ ->].
  unfold attached. simpl. rewrite Hs. repeat split; auto.
  - now destruct c.
  - eexists. split; [reflexivity |]. simpl. apply elem_of_app. right. now left.
  - eauto.
Qed.

End Retry.


Section Undisturbed.
Context `{JsEngine}.



End Undisturbed.


Section AnyCall.
Context `{JsEngine}.

(** The same holds for each of the three cached calls: once a call has
    created its promise, that promise is settled by the matching reply or
    by the call's timeout, by nothing else, and at most once. *)
Lemma issued_call_settles_exactly_once c now rnd st (events : list Event) :
  wf st ->
  let p := (invoke c now rnd st).1 in
  let st1 := (invoke c now rnd st).2 in
  let l := callListener c now rnd st in
  let T := callTimer c st in
  let s := run st1 events in
  issued st st1 p ->
  (forall o more,
      promises s !! p = Some o -> o <> Pending ->
      promises (run s more) !! p = Some o)
  /\ (promises s !! p = Some Pending ->
      timers s !! nextTimer st = Some T
      /\ (forall now',
            promises (step s (TimerFires now' (nextTimer st))) !! p
            = Some (timeoutOutcome (callback T)))
      /\ (forall e,
            promises (step s e) !! p = Some Pending
            \/ (exists now' data_result data_error,
                  e = SocketMessage now' (Some (replyTo l data_result data_error))
                  /\ promises (step s e) !! p
                     = Some (replyOutcome l data_result data_error))
            \/ (exists now',
                  e = TimerFires now' (nextTimer st)
                  /\ promises (step s e) !! p = Some (timeoutOutcome (callback T))))).
Proof.
  intros Hwf p st1 l T s Hiss.
  destruct (invoke_issued_state c now rnd st Hiss) as [Hp Hst1].
  fold p in Hp. fold st1 in Hst1.
  destruct (callListener_facts c now rnd st) as (Hlp & Hlt & HT & _).
  fold l in Hlp, Hlt. fold T in HT.
  assert (Hwf1 : wf st1) by (now apply wf_invoke).
  assert (Hwfs : wf s) by (now apply wf_run).
  assert (Hown : owns l T st1).
  { apply (owns_issued st st1 l T); auto; rewrite Hst1; simpl; auto.
    subst T. now destruct c. }
  assert (HT' : callbackPromise (callback T) = Some (listenerPromise l))
    by (now rewrite Hlp).
  pose proof (owns_run l T events st1 Hwf1 HT' Hown) as Hown'. fold s in Hown'.
  split.
  - intros o more Ho Hne. now apply run_settled_stable.
  - intros Hpend.
    destruct (owns_pending l T s Hwfs HT' Hown') as (Harmed & Hfire & Hways);
      [now rewrite Hlp, <- Hp |].
    rewrite Hlp, Hlt, <- Hp in *. auto.
Qed.

End AnyCall.
Section SuccessCached.
Context `{JsEngine}.

Lemma handleResponse_cache_entry now l l' data_result data_error s k :
  truthy data_error = false ->
  requestCache s !! k = Some (data_result, now) ->
  requestCache (handleResponse now l' (Some (replyTo l data_result data_error)) s) !! k
  = Some (data_result, now).
Proof.
  intros Herr Hk.
  destruct (matches l' (Some (replyTo l data_result data_error))) eqn:Hm.
  2:{ now rewrite handleResponse_skip. }
  unfold replyTo in *. unfold matches in Hm.
  destruct l'; unfold handleResponse;
    cbn [responseType listenerRequestId] in Hm; rewrite Hm; rewrite Herr;
    simpl; try exact Hk;
    (destruct (decide (requestKey = k)) as [-> | Hne];
     [apply lookup_insert_eq | now rewrite lookup_insert_ne]).
Qed.

Lemma handleResponse_hit_caches now l data_result data_error s k :
  truthy data_error = false ->
  listenerCacheKey l = Some k ->
  requestCache (handleResponse now l (Some (replyTo l data_result data_error)) s) !! k
  = Some (data_result, now).
Proof.
  intros Herr Hk.
  destruct l; try discriminate Hk; injection Hk as <-;
    unfold replyTo, handleResponse; cbn [responseType listenerRequestId is_requestId];
    rewrite !String.eqb_refl; cbn [andb]; rewrite Herr; simpl;
    apply lookup_insert_eq.
Qed.

(** Delivery of a successful reply to an attached caching listener leaves
    the result in the cache, stamped with the time of delivery. *)
Lemma dispatch_success_caches now l data_result data_error s k :
  attached l s ->
  truthy data_error = false ->
  listenerCacheKey l = Some k ->
  requestCache (dispatchMessage now (Some (replyTo l data_result data_error)) s) !! k
  = Some (data_result, now).
Proof.
  intros Hatt Herr Hk.
  pose proof (dispatch_reply_detaches now l data_result data_error s) as Hdet.
  set (data := Some (replyTo l data_result data_error)) in *.
  assert (Hor : attached l (dispatchMessage now data s)
                \/ requestCache (dispatchMessage now data s) !! k = Some (data_result, now));
    [| now destruct Hor].
  clear Hdet. unfold dispatchMessage.
  destruct (ws s) as [sock |] eqn:Hs; [| now left].
  assert (Hstart : attached l (onmessage data s)
                   \/ requestCache (onmessage data s) !! k = Some (data_result, now)).
  { left. revert Hatt. now apply attached_ws. }
  revert Hstart. generalize (onmessage data s).
  induction (listeners sock) as [| l' ls IH]; intros s0 Hstart; cbn [fold_left];
    [exact Hstart |].
  apply IH.
  destruct (ws s0) as [sock' |] eqn:Hs0; [| exact Hstart].
  destruct (decide (l' ∈ listeners sock')) as [Hin | Hnin]; [| exact Hstart].
  destruct Hstart as [Ha | Hh].
  - destruct (decide (l = l')) as [<- | Hne].
    + right. now apply handleResponse_hit_caches.
    + left. now apply attached_handle_other.
  - right. now apply handleResponse_cache_entry.
Qed.

Lemma invoke_cacheHit c now rnd st :
  cacheHit c now st = true ->
  invoke c now rnd st = Promise_resolve (getCachedResult now (callKey c) st) st.
Proof.
  destruct c as [srv tool prm | srv | srv]; cbn [invoke cacheHit callKey]; intros Hhit.
  - unfold executeTool. now rewrite Hhit.
  - unfold listResources. now rewrite Hhit.
  - unfold listTools. now rewrite Hhit.
Qed.

Lemma cacheHit_entry c now t v st :
  requestCache st !! callKey c = Some (v, t) ->
  cacheHit c now st = truthy v && (now - t <? window c).
Proof.
  intros Hk. destruct c; unfold cacheHit, getCachedResult; rewrite Hk;
    cbn [window]; unfold CACHE_DURATION.
  - destruct (now - t <? 2000) eqn:H2, (now - t <? 500) eqn:H5; simpl;
      rewrite ?andb_true_r, ?andb_false_r; try reflexivity; lia.
  - destruct (now - t <? 2000); simpl; now rewrite ?andb_true_r, ?andb_false_r.
  - destruct (now - t <? 2000); simpl; now rewrite ?andb_true_r, ?andb_false_r.
Qed.

End SuccessCached.
Section Replay.
Context `{JsEngine}.

Lemma callListener_cacheKey c now rnd st :
  listenerCacheKey (callListener c now rnd st) = Some (callKey c).
Proof. now destruct c. Qed.

(** The state after a reply frame for an issued call has been delivered
    over the open socket. *)
Lemma issued_reply_facts st sock c now rnd now' data_result data_error :
  wf st -> ws st = Some sock -> readyState sock = OPEN ->
  let p := (invoke c now rnd st).1 in
  let st1 := (invoke c now rnd st).2 in
  let l := callListener c now rnd st in
  issued st st1 p ->
  let st2 := step st1 (SocketMessage now' (Some (replyTo l data_result data_error))) in
  promises st2 !! p = Some (replyOutcome l data_result data_error)
  /\ (registers c = true -> ongoingRequests st2 !! callKey c = None)
  /\ (truthy data_error = false ->
      requestCache st2 !! callKey c = Some (data_result, now'))
  /\ ~ attached l st2
  /\ exists sock2, ws st2 = Some sock2 /\ readyState sock2 = OPEN.
Proof.
  intros Hwf Hs Hopen p st1 l Hiss st2.
  destruct (invoke_issued_fields c now rnd st sock Hs Hiss)
    as (Hp1 & Hn1 & Ht1 & Hw1 & Hr1 & Hc1 & Hatt1 & sock1 & Hs1 & Ho1).
  fold st1 l in Hp1, Hn1, Ht1, Hw1, Hr1, Hc1, Hatt1, Hs1.
  destruct (callListener_facts c now rnd st) as (Hlp & Hlt & HT & Hkey & Hfb).
  fold l in Hlp, Hlt, Hkey, Hfb.
  pose proof Hiss as [Hpl Hpend]. fold p st1 in Hpl, Hpend.
  assert (Hwf1 : wf st1) by (now apply wf_invoke).
  assert (Hown : owns l (callTimer c st) st1)
    by (now apply (owns_issued st st1 l (callTimer c st))).
  assert (HT' : callbackPromise (callback (callTimer c st)) = Some (listenerPromise l))
    by (now rewrite Hlp).
  destruct (owns_pending l (callTimer c st) st1 Hwf1 HT' Hown) as (Harmed & Hfire & Hways);
    [now rewrite Hlp, <- Hpl |].
  rewrite Hlp, Hlt, <- Hpl in *.
  pose proof (dispatch_reply_handled now' l data_result data_error st1 Hatt1)
    as [Hnp Hunreg].
  assert (Hstep : st2 = dispatchMessage now' (Some (replyTo l data_result data_error)) st1).
  { subst st2. cbn [step]. rewrite Hs1. rewrite decide_True by congruence. reflexivity. }
  split; [| split; [| split; [| split]]].
  - destruct (Hways (SocketMessage now' (Some (replyTo l data_result data_error))))
      as [Hk | [(t & r & err & Heq & Hout) | (t & Heq & _)]].
    + fold st2 in Hk. rewrite Hstep in Hk. rewrite Hlp in Hnp. contradiction.
    + injection Heq as _ <- <-. exact Hout.
    + discriminate Heq.
  - intros Hreg. rewrite Hstep. apply Hunreg. now apply Hkey.
  - intros Herr. rewrite Hstep. apply dispatch_success_caches; auto.
    apply callListener_cacheKey.
  - rewrite Hstep. apply dispatch_reply_detaches.
  - rewrite Hstep. apply (dispatch_keeps_open _ _ _ sock1); congruence.
Qed.

End Replay.

(** X1. A successful result is replayed. Take any of [executeTool],
    [listResources], [listTools] that went to the backend over the open
    socket, and let the hub answer it without an error at time [now']: the
    promise is fulfilled with the result and the result is cached under the
    call's key with that time. The same call made again at time [now3] is
    answered from the cache - a new promise, already fulfilled with the
    cached result, nothing sent, no timer and no listener - exactly when
    the result is truthy and [now3 - now'] is below 500 ms for
    [executeTool], below 2000 ms for the list calls; otherwise it goes to
    the backend again. *)
Theorem success_replayed_within_window `{JsEngine}
    (st : HookState) (sock : WebSocket) (c : Call) (now now' : Z) (rnd : string)
    (data_result data_error : jsval) :
  wf st -> ws st = Some sock -> readyState sock = OPEN ->
  let p := (invoke c now rnd st).1 in
  let st1 := (invoke c now rnd st).2 in
  let l := callListener c now rnd st in
  issued st st1 p ->
  truthy data_error = false ->
  let st2 := step st1 (SocketMessage now' (Some (replyTo l data_result data_error))) in
  promises st2 !! p = Some (Fulfilled data_result)
  /\ requestCache st2 !! callKey c = Some (data_result, now')
  /\ forall now3 rnd3,
       if truthy data_result && (now3 - now' <? window c)
       then invoke c now3 rnd3 st2 = Promise_resolve data_result st2
       else issued st2 (invoke c now3 rnd3 st2).2 (invoke c now3 rnd3 st2).1
            /\ sent (invoke c now3 rnd3 st2).2 = sent st2 ++ [callRequest c now3 rnd3].
Proof.
  intros Hwf Hs Hopen p st1 l Hiss Herr st2.
  destruct (issued_reply_facts st sock c now rnd now' data_result data_error
              Hwf Hs Hopen Hiss) as (Hout & Hfree & Hcache & _ & sock2 & Hs2 & Ho2).
  fold p st1 l st2 in Hout, Hfree, Hcache, Hs2.
  specialize (Hcache Herr).
  split; [| split; [exact Hcache |]].
  - rewrite Hout. unfold replyOutcome. now rewrite Herr.
  - intros now3 rnd3.
    pose proof (cacheHit_entry c now3 now' data_result st2 Hcache) as Hhit.
    destruct (truthy data_result && (now3 - now' <? window c)) eqn:Hw.
    + rewrite (invoke_cacheHit c now3 rnd3 st2 Hhit).
      f_equal. unfold getCachedResult. rewrite Hcache.
      apply andb_true_iff in Hw as [_ Hw].
      assert (Hlt : (now3 - now' <? CACHE_DURATION) = true).
      { destruct c; cbn [window] in Hw; unfold CACHE_DURATION in *; lia. }
      now rewrite Hlt.
    + now apply (invoke_sends c now3 rnd3 st2 sock2).
Qed.
Lemma success_replayed_within_window_witness :
  let st := openHook (H := sampleEngine) in
  let c := ToolsCall "calculator-server" in
  let data_result := JObj [("tools", JArr [])] in
  let p := (invoke (H := sampleEngine) c 4000 "k3x9q2m1z" st).1 in
  let st1 := (invoke (H := sampleEngine) c 4000 "k3x9q2m1z" st).2 in
  let l := callListener (H := sampleEngine) c 4000 "k3x9q2m1z" st in
  let st2 := step (H := sampleEngine) st1
               (SocketMessage 4100 (Some (replyTo l data_result JUndefined))) in
  promises st2 !! p = Some (Fulfilled data_result)
  /\ requestCache st2 !! callKey (H := sampleEngine) c = Some (data_result, 4100)
  /\ forall now3 rnd3,
       if truthy data_result && (now3 - 4100 <? window c)
       then invoke (H := sampleEngine) c now3 rnd3 st2 = Promise_resolve data_result st2
       else issued st2 (invoke (H := sampleEngine) c now3 rnd3 st2).2
                   (invoke (H := sampleEngine) c now3 rnd3 st2).1
            /\ sent (invoke (H := sampleEngine) c now3 rnd3 st2).2
               = sent st2 ++ [callRequest c now3 rnd3].
Proof.
  intros st c data_result p st1 l st2.
  apply (success_replayed_within_window (H := sampleEngine) st openSocket c 4000 4100
           "k3x9q2m1z" data_result JUndefined).
  - apply wf_reachable.
  - vm_compute. reflexivity.
  - reflexivity.
  - split; vm_compute; reflexivity.
  - reflexivity.
Defined.
Section LateReply.
Context `{JsEngine}.

(** A call's own timeout coming due rejects its promise and leaves the
    socket, with the call's listener, as it was. *)
Lemma issued_timeout_facts st sock c now rnd now' :
  wf st -> ws st = Some sock -> readyState sock = OPEN ->
  let p := (invoke c now rnd st).1 in
  let st1 := (invoke c now rnd st).2 in
  let l := callListener c now rnd st in
  issued st st1 p ->
  let st2 := step st1 (TimerFires now' (nextTimer st)) in
  promises st2 !! p = Some (timeoutOutcome (callback (callTimer c st)))
  /\ attached l st2
  /\ requestCache st2 = requestCache st
  /\ wf st2
  /\ exists sock2, ws st2 = Some sock2 /\ readyState sock2 = OPEN.
Proof.
  intros Hwf Hs Hopen p st1 l Hiss st2.
  destruct (invoke_issued_fields c now rnd st sock Hs Hiss)
    as (Hp1 & Hn1 & Ht1 & Hw1 & Hr1 & Hc1 & Hatt1 & sock1 & Hs1 & Ho1).
  fold st1 l in Hp1, Hn1, Ht1, Hw1, Hr1, Hc1, Hatt1, Hs1.
  destruct (callListener_facts c now rnd st) as (Hlp & Hlt & HT & Hkey & Hfb).
  fold l in Hlp, Hlt, Hkey, Hfb.
  pose proof Hiss as [Hpl Hpend]. fold p st1 in Hpl, Hpend.
  assert (Hwf1 : wf st1) by (now apply wf_invoke).
  assert (Hown : owns l (callTimer c st) st1)
    by (now apply (owns_issued st st1 l (callTimer c st))).
  assert (HT' : callbackPromise (callback (callTimer c st)) = Some (listenerPromise l))
    by (now rewrite Hlp).
  destruct (owns_pending l (callTimer c st) st1 Hwf1 HT' Hown) as (Harmed & Hfire & Hways);
    [now rewrite Hlp, <- Hpl |].
  rewrite Hlp, Hlt, <- Hpl in *.
  assert (Hws : ws st2 = ws st1).
  { subst st2. cbn [step]. rewrite Harmed. now destruct c. }
  split; [apply Hfire | split; [| split; [| split]]].
  - revert Hatt1. apply attached_ws. now symmetry.
  - subst st2. now rewrite timer_keeps_cache.
  - now apply wf_step.
  - exists sock1. split; congruence.
Qed.

End LateReply.
(** X2. A reply that arrives after the call's timeout. The timeout
    rejects the promise and leaves the call's listener on the socket; when
    the hub's reply to that call arrives afterwards, the promise keeps its
    timeout rejection and the listener is removed, and the reply's result
    (the reply carrying no error) is written to the cache under the call's
    key: the same call made again is answered with that result without
    going to the backend when the result is truthy and the cache window
    has not passed, and goes to the backend otherwise. *)
Theorem late_reply_after_timeout `{JsEngine}
    (st : HookState) (sock : WebSocket) (c : Call) (now t now' : Z) (rnd : string)
    (data_result data_error : jsval) :
  wf st -> ws st = Some sock -> readyState sock = OPEN ->
  let p := (invoke c now rnd st).1 in
  let st1 := (invoke c now rnd st).2 in
  let l := callListener c now rnd st in
  issued st st1 p ->
  truthy data_error = false ->
  let st2 := step st1 (TimerFires t (nextTimer st)) in
  let st3 := step st2 (SocketMessage now' (Some (replyTo l data_result data_error))) in
  promises st2 !! p = Some (timeoutOutcome (callback (callTimer c st)))
  /\ attached l st2
  /\ promises st3 !! p = Some (timeoutOutcome (callback (callTimer c st)))
  /\ ~ attached l st3
  /\ requestCache st3 !! callKey c = Some (data_result, now')
  /\ forall now3 rnd3,
       if truthy data_result && (now3 - now' <? window c)
       then invoke c now3 rnd3 st3 = Promise_resolve data_result st3
       else issued st3 (invoke c now3 rnd3 st3).2 (invoke c now3 rnd3 st3).1
            /\ sent (invoke c now3 rnd3 st3).2 = sent st3 ++ [callRequest c now3 rnd3].
Proof.
  intros Hwf Hs Hopen p st1 l Hiss Herr st2 st3.
  destruct (issued_timeout_facts st sock c now rnd t Hwf Hs Hopen Hiss)
    as (Hout & Hatt & _ & Hwf2 & sock2 & Hs2 & Ho2).
  fold p st1 l st2 in Hout, Hatt, Hwf2, Hs2.
  destruct (callListener_facts c now rnd st) as (_ & _ & _ & Hkey & _).
  fold l in Hkey.
  assert (Hstep : st3 = dispatchMessage now' (Some (replyTo l data_result data_error)) st2).
  { subst st3. cbn [step]. rewrite Hs2. rewrite decide_True by congruence. reflexivity. }
  assert (Hcache : requestCache st3 !! callKey c = Some (data_result, now')).
  { rewrite Hstep. apply dispatch_success_caches; auto. apply callListener_cacheKey. }
  split; [exact Hout | split; [exact Hatt | split; [| split; [| split; [exact Hcache |]]]]].
  - apply step_settled_stable; [exact Hwf2 | exact Hout | discriminate].
  - rewrite Hstep. apply dispatch_reply_detaches.
  - intros now3 rnd3.
    pose proof (cacheHit_entry c now3 now' data_result st3 Hcache) as Hhit.
    destruct (truthy data_result && (now3 - now' <? window c)) eqn:Hw.
    + rewrite (invoke_cacheHit c now3 rnd3 st3 Hhit).
      f_equal. unfold getCachedResult. rewrite Hcache.
      apply andb_true_iff in Hw as [_ Hw].
      assert (Hlt : (now3 - now' <? CACHE_DURATION) = true).
      { destruct c; cbn [window] in Hw; unfold CACHE_DURATION in *; lia. }
      now rewrite Hlt.
    + destruct (dispatch_keeps_open now' (Some (replyTo l data_result data_error))
                  st2 sock2 Hs2 Ho2) as (sock3 & Hs3 & Ho3).
      rewrite <- Hstep in Hs3.
      apply (invoke_sends c now3 rnd3 st3 sock3 Hs3 Ho3 Hhit).
      intros Hreg. rewrite Hstep.
      apply (dispatch_reply_handled now' l data_result data_error st2 Hatt).
      now apply Hkey.
Qed.
Lemma late_reply_after_timeout_witness :
  let st := openHook (H := sampleEngine) in
  let c := ResourcesCall "file-server" in
  let data_result := JObj [("resources", JArr [])] in
  let p := (invoke (H := sampleEngine) c 4000 "k3x9q2m1z" st).1 in
  let st1 := (invoke (H := sampleEngine) c 4000 "k3x9q2m1z" st).2 in
  let l := callListener (H := sampleEngine) c 4000 "k3x9q2m1z" st in
  let st2 := step (H := sampleEngine) st1 (TimerFires 14000 (nextTimer st)) in
  let st3 := step (H := sampleEngine) st2
               (SocketMessage 14500 (Some (replyTo l data_result JUndefined))) in
  promises st2 !! p = Some (timeoutOutcome (callback (callTimer (H := sampleEngine) c st)))
  /\ attached l st2
  /\ promises st3 !! p = Some (timeoutOutcome (callback (callTimer (H := sampleEngine) c st)))
  /\ ~ attached l st3
  /\ requestCache st3 !! callKey (H := sampleEngine) c = Some (data_result, 14500)
  /\ forall now3 rnd3,
       if truthy data_result && (now3 - 14500 <? window c)
       then invoke (H := sampleEngine) c now3 rnd3 st3 = Promise_resolve data_result st3
       else issued st3 (invoke (H := sampleEngine) c now3 rnd3 st3).2
                   (invoke (H := sampleEngine) c now3 rnd3 st3).1
            /\ sent (invoke (H := sampleEngine) c now3 rnd3 st3).2
               = sent st3 ++ [callRequest c now3 rnd3].
Proof.
  intros st c data_result p st1 l st2 st3.
  apply (late_reply_after_timeout (H := sampleEngine) st openSocket c 4000 14000 14500
           "k3x9q2m1z" data_result JUndefined).
  - apply wf_reachable.
  - vm_compute. reflexivity.
  - reflexivity.
  - split; vm_compute; reflexivity.
  - reflexivity.
Defined.
Section Orphans.
Context `{JsEngine}.

Lemma orphaned_step p s e :
  wf s -> (p < length (promises s))%nat -> orphaned p s -> orphaned p (step s e).
Proof.
  intros Hwf Hp Horph l Hatt.
  destruct (fp_new_listener _ _ _ (step_footprint s e Hwf) l Hatt) as [Hold | (Hnew & _)].
  - now apply Horph.
  - lia.
Qed.

Lemma orphaned_run p (events : list Event) : forall s,
  wf s -> (p < length (promises s))%nat -> orphaned p s -> orphaned p (run s events).
Proof.
  induction events as [| e events IH]; intros s Hwf Hp Horph; [exact Horph |].
  apply IH.
  - now apply wf_step.
  - pose proof (fp_length _ _ _ (step_footprint s e Hwf)). lia.
  - now apply orphaned_step.
Qed.

(** A pending promise without a listener can only be settled by a timer
    armed for it. *)
Lemma orphaned_ways p s e :
  wf s -> orphaned p s -> promises s !! p = Some Pending ->
  promises (step s e) !! p = Some Pending
  \/ exists now timeoutId t,
       e = TimerFires now timeoutId
       /\ timers s !! timeoutId = Some t
       /\ callbackPromise (callback t) = Some p
       /\ promises (step s e) !! p = Some (timeoutOutcome (callback t)).
Proof.
  intros Hwf Horph Hpend.
  destruct (fp_promise _ _ _ (step_footprint s e Hwf) p Pending Hpend)
    as [Hsame | (_ & [(now & i & t & He & Ht & Hcb & Hout)
                     | (now & l & r & err & _ & Hatt & Hl & _)])].
  - now left.
  - right. eauto 8.
  - exfalso. now apply (Horph l).
Qed.

Lemma wf_connect s : wf s -> wf (connect s).
Proof.
  intros (Hl & Ht & Hr & Hk).
  destruct (connect_frame s) as (Hpr & Htm & Hn & Href & _).
  unfold wf. rewrite Hpr, Htm, Hn, Href.
  split; [| split; [| split]].
  - intros l Hatt. apply Hl. now apply attached_connect.
  - exact Ht.
  - exact Hr.
  - intros requestId requestKey timeoutId p Hatt.
    apply (Hk requestId requestKey timeoutId p). now apply attached_connect.
Qed.

End Orphans.
(** X3. A call that is pending when the socket is replaced can no
    longer be answered. When [connect()] opens a new socket - from a manual
    reconnect or from a reconnect timer, the hook not being in the middle
    of a connection attempt - the new socket starts without listeners, so
    the listeners of the calls still pending stay behind on the old one.
    From then on no frame changes such a promise: whatever happens, it
    stays as it is until a timeout armed for it comes due and rejects it. *)
Theorem pending_call_lost_on_reconnect `{JsEngine}
    (s : HookState) (e0 : Event) (p : nat) (events : list Event) (e : Event) :
  wf s -> isConnecting s = false -> url_ok s = true ->
  (e0 = CallManualReconnect
   \/ exists now timeoutId d,
        e0 = TimerFires now timeoutId
        /\ timers s !! timeoutId = Some {| delay := d; callback := ConnectCallback |}) ->
  promises s !! p = Some Pending ->
  let s1 := step s e0 in
  let s2 := run s1 events in
  ws s1 = Some {| readyState := CONNECTING; listeners := [] |}
  /\ promises s1 !! p = Some Pending
  /\ (promises (step s2 e) !! p = promises s2 !! p
      \/ exists now timeoutId t,
           e = TimerFires now timeoutId
           /\ timers s2 !! timeoutId = Some t
           /\ callbackPromise (callback t) = Some p
           /\ promises s2 !! p = Some Pending
           /\ promises (step s2 e) !! p = Some (timeoutOutcome (callback t))).
Proof.
  intros Hwf Hconn Hurl He0 Hpend s1 s2.
  assert (Hws : ws s1 = Some {| readyState := CONNECTING; listeners := [] |}
                /\ promises s1 = promises s).
  { subst s1. destruct He0 as [-> | (now & i & d & -> & Ht)].
    - cbn [step]. unfold manualReconnect.
      destruct (reconnectTimeoutRef (set_reconnectAttempts 0 s));
        unfold connect; simpl; rewrite Hconn, Hurl; simpl; auto.
    - cbn [step]. rewrite Ht. cbn [callback runTimer].
      unfold connect; simpl; rewrite Hconn, Hurl; simpl; auto. }
  destruct Hws as [Hws Hpr].
  assert (Hwf1 : wf s1) by (now apply wf_step).
  assert (Hp1 : promises s1 !! p = Some Pending) by (now rewrite Hpr).
  assert (Horph1 : orphaned p s1).
  { intros l (sock & Hsock & Hin). rewrite Hws in Hsock. injection Hsock as <-.
    simpl in Hin. now apply not_elem_of_nil in Hin. }
  assert (Hlt : (p < length (promises s1))%nat) by (now apply lookup_lt_Some in Hp1).
  assert (Hwf2 : wf s2) by (now apply wf_run).
  assert (Horph2 : orphaned p s2) by (now apply orphaned_run).
  split; [exact Hws | split; [exact Hp1 |]].
  assert (Hex : exists o, promises s2 !! p = Some o).
  { apply lookup_lt_is_Some_2.
    pose proof (run_promises_length events s1 Hwf1) as Hlen. fold s2 in Hlen. lia. }
  destruct Hex as [o Ho].
  destruct o as [| v | m].
  - destruct (orphaned_ways p s2 e Hwf2 Horph2 Ho) as [Hk | (now & i & t & Hx)].
    + left. congruence.
    + right. exists now, i, t. tauto.
  - left. rewrite Ho. now apply step_settled_stable.
  - left. rewrite Ho. now apply step_settled_stable.
Qed.
Lemma pending_call_lost_on_reconnect_witness :
  let s := run (H := sampleEngine) (initial true)
             [ TimerFires 3000 1; SocketOpen;
               CallExecuteTool 4000 "k3x9q2m1z" "calculator-server" "add" addParams ] in
  let e := SocketMessage 5100
             (Some (Reply "tool-response" (JStr (makeRequestId "tool_" 4000 "k3x9q2m1z"))
                      (JObj [("content", JArr [])]) JUndefined)) in
  let s1 := step (H := sampleEngine) s CallManualReconnect in
  let s2 := run (H := sampleEngine) s1 [SocketOpen] in
  ws s1 = Some {| readyState := CONNECTING; listeners := [] |}
  /\ promises s1 !! 0%nat = Some Pending
  /\ (promises (step (H := sampleEngine) s2 e) !! 0%nat = promises s2 !! 0%nat
      \/ exists now timeoutId t,
           e = TimerFires now timeoutId
           /\ timers s2 !! timeoutId = Some t
           /\ callbackPromise (callback t) = Some 0%nat
           /\ promises s2 !! 0%nat = Some Pending
           /\ promises (step (H := sampleEngine) s2 e) !! 0%nat
              = Some (timeoutOutcome (callback t))).
Proof.
  intros s e s1 s2.
  apply (pending_call_lost_on_reconnect (H := sampleEngine) s CallManualReconnect 0
           [SocketOpen] e).
  - apply wf_reachable.
  - vm_compute. reflexivity.
  - vm_compute. reflexivity.
  - left. reflexivity.
  - vm_compute. reflexivity.
Defined.
Section Sending.
Context `{JsEngine}.




End Sending.
Section Bounded.
Context `{JsEngine}.

Lemma reconnectBounded_frame s s' :
  reconnectAttempts s' = reconnectAttempts s \/ reconnectAttempts s' = 0 ->
  (forall timeoutId t, timers s' !! timeoutId = Some t ->
     timers s !! timeoutId = Some t \/ callback t <> ConnectCallback) ->
  reconnectBounded s -> reconnectBounded s'.
Proof.
  intros Ha Ht [Hr Hd]. split.
  - unfold maxReconnectAttempts in *. destruct Ha as [-> | ->]; lia.
  - intros i t Hi Hcb. destruct (Ht i t Hi) as [Hold | Hne]; [| contradiction].
    now apply (Hd i t).
Qed.

Lemma reconnectBounded_onclose code s s0 :
  reconnectAttempts s0 = reconnectAttempts s -> timers s0 = timers s ->
  nextTimer s0 = nextTimer s ->
  reconnectBounded s -> reconnectBounded (onclose code s0).
Proof.
  intros Ha Ht Hn [Hr Hd]. unfold onclose. cbn [reconnectAttempts set_connected set_isConnecting].
  destruct (negb (code =? 1000)); [| now split; simpl; rewrite ?Ha, ?Ht].
  simpl. rewrite Ha.
  destruct (reconnectAttempts s <? maxReconnectAttempts) eqn:Hlt;
    [| now split; simpl; rewrite ?Ha, ?Ht].
  apply Z.ltb_lt in Hlt.
  unfold maxReconnectAttempts in *. split; simpl; unfold maxReconnectAttempts; [rewrite ?Ha; lia |].
  intros i t Hi Hcb. rewrite Ht, Hn in Hi.
  destruct (decide (i = nextTimer s)) as [-> | Hne].
  - rewrite lookup_insert_eq in Hi. injection Hi as <-. simpl.
    exists (reconnectAttempts s). rewrite ?Ha. lia.
  - rewrite lookup_insert_ne in Hi by congruence. now apply (Hd i t).
Qed.

Lemma reconnectBounded_step s e : reconnectBounded s -> reconnectBounded (step s e).
Proof.
  intros Hb. destruct e; cbn [step].
  - (* open *)
    destruct (ws s) as [sock |]; [| exact Hb].
    destruct (decide (readyState sock = CONNECTING)); [| exact Hb].
    apply (reconnectBounded_frame s); auto.
  - (* close *)
    destruct (ws s) as [sock |]; [| exact Hb].
    destruct (decide (readyState sock = CLOSED)); [exact Hb |].
    now apply (reconnectBounded_onclose code s).
  - now apply (reconnectBounded_onclose code s).
  - destruct (ws s); [| exact Hb]. apply (reconnectBounded_frame s); auto.
  - (* message *)
    destruct (ws s) as [sock |]; [| exact Hb].
    destruct (decide (readyState sock = OPEN)); [| exact Hb].
    apply (reconnectBounded_frame s); [| | exact Hb].
    + left. apply dispatch_conn.
    + intros i t Hi. left.
      now apply (dl_timer _ _ _ (dispatch_delivering now data s)).
  - (* timer *)
    destruct (timers s !! timeoutId) as [t |] eqn:Ht; [| exact Hb].
    apply (reconnectBounded_frame s); [| | exact Hb].
    + left. now destruct (runTimer_conn now (callback t) (clearTimeout timeoutId s)) as (-> & _).
    + intros i t' Hi. left.
      assert (Htm : timers (runTimer now (callback t) (clearTimeout timeoutId s))
                    = delete timeoutId (timers s)).
      { destruct (callback t); simpl; try reflexivity.
        now destruct (connect_conn (clearTimeout timeoutId s)) as (_ & _ & _ & ->). }
      rewrite Htm in Hi. apply lookup_delete_Some in Hi. tauto.
  - (* manual reconnect *)
    apply (reconnectBounded_frame s); [| | exact Hb].
    + right. unfold manualReconnect.
      match goal with |- reconnectAttempts (connect ?x) = _ =>
        destruct (connect_conn x) as (-> & _) end.
      now destruct (reconnectTimeoutRef _).
    + intros i t Hi. left. unfold manualReconnect in Hi.
      match type of Hi with timers (connect ?x) !! _ = _ =>
        destruct (connect_conn x) as (_ & _ & _ & Htm); rewrite Htm in Hi end.
      simpl in Hi. destruct (reconnectTimeoutRef s); simpl in Hi; [| exact Hi].
      apply lookup_delete_Some in Hi. tauto.
  - (* executeTool *)
    apply (reconnectBounded_frame s); [| | exact Hb].
    + left. unfold executeTool. now destruct (_ && _).
    + intros i t. unfold executeTool. destruct (_ && _); simpl; [auto |].
      intros Hi. rewrite lookup_insert_Some in Hi.
      destruct Hi as [[_ <-] | [_ Hi]]; [now right | now left].
  - apply (reconnectBounded_frame s); [| | exact Hb].
    + left. unfold listResources. destruct (truthy _); [| destruct (_ !! _)]; reflexivity.
    + intros i t. unfold listResources.
      destruct (truthy _); [| destruct (ongoingRequests s !! _)]; simpl; auto.
      intros Hi. rewrite lookup_insert_Some in Hi.
      destruct Hi as [[_ <-] | [_ Hi]]; [now right | now left].
  - apply (reconnectBounded_frame s); [| | exact Hb].
    + left. reflexivity.
    + intros i t. unfold readResource. simpl.
      intros Hi. rewrite lookup_insert_Some in Hi.
      destruct Hi as [[_ <-] | [_ Hi]]; [now right | now left].
  - apply (reconnectBounded_frame s); [| | exact Hb].
    + left. unfold listTools. destruct (truthy _); [| destruct (_ !! _)]; reflexivity.
    + intros i t. unfold listTools.
      destruct (truthy _); [| destruct (ongoingRequests s !! _)]; simpl; auto.
      intros Hi. rewrite lookup_insert_Some in Hi.
      destruct Hi as [[_ <-] | [_ Hi]]; [now right | now left].
Qed.

End Bounded.

(** X5. The reconnect policy stays in range. In every state the
    mounted hook can reach, the attempt counter is between 0 and 5 and
    every pending timer that will call [connect()] - the mount timer or an
    automatic reconnect - waits 2000, 3000, 4000, 5000 or 6000 ms: the
    handler's cap of 10000 ms is never reached, because the counter that
    enters the delay formula is below 5 whenever a timer is armed. *)
Theorem reconnect_policy_in_range `{JsEngine} (url_accepted : bool) (events : list Event) :
  reconnectBounded (run (initial url_accepted) events).
Proof.
  assert (Hinit : reconnectBounded (initial url_accepted)).
  { split; [simpl; unfold maxReconnectAttempts; lia |].
    intros i t Hi _. simpl in Hi.
    apply lookup_singleton_Some in Hi as [_ <-]. exists 1. simpl.
    unfold maxReconnectAttempts. lia. }
  revert Hinit. generalize (initial url_accepted).
  induction events as [| e events IH]; intros s Hs; [exact Hs |].
  apply IH. now apply reconnectBounded_step.
Qed.
Section InFlight.
Context `{JsEngine}.

Lemma inflight_frame s s' :
  inflight s ->
  (forall k q, ongoingRequests s' !! k = Some q -> ongoingRequests s !! k = Some q) ->
  (forall k q, ongoingRequests s' !! k = Some q ->
     promises s !! q = Some Pending -> promises s' !! q = Some Pending) ->
  (forall l, attached l s' ->
     attached l s
     \/ forall k q, ongoingRequests s' !! k = Some q -> listenerPromise l <> q) ->
  (forall timeoutId t, timers s' !! timeoutId = Some t ->
     timers s !! timeoutId = Some t
     \/ forall k q, ongoingRequests s' !! k = Some q ->
          callbackPromise (callback t) <> Some q) ->
  inflight s'.
Proof.
  intros Hin Ho Hp Hl Ht k q Hk.
  destruct (Hin k q (Ho k q Hk)) as (Hpend & Hls & Hts).
  split; [now apply (Hp k q) | split].
  - intros l Hatt Hlq. destruct (Hl l Hatt) as [Hold | Hnew].
    + now apply Hls.
    + exfalso. now apply (Hnew k q).
  - intros i t Hi Hcb. destruct (Ht i t Hi) as [Hold | Hnew].
    + now apply (Hts i t).
    + exfalso. now apply (Hnew k q).
Qed.

Lemma inflight_handle now l data s :
  inflight s -> attached l s -> inflight (handleResponse now l data s).
Proof.
  intros Hin Hatt.
  destruct (matches l data) eqn:Hm.
  2:{ now rewrite handleResponse_skip. }
  destruct data as [[| | | ty rid r e] |]; try discriminate Hm.
  rewrite (matches_reply _ _ _ _ _ Hm).
  destruct (handleResponse_hit now l r e s) as (Hpr & Htm & _ & _ & Hws & _ & Hon).
  pose proof (handleResponse_hit_handled now l r e s) as [_ Hunreg].
  apply (inflight_frame s); auto.
  - intros k q Hk Hpend. rewrite Hpr.
    apply settle_other; [exact Hpend |]. left. intros ->.
    destruct (Hin k (listenerPromise l) (Hon _ _ Hk)) as (_ & Hls & _).
    specialize (Hunreg k (Hls l Hatt eq_refl)). congruence.
  - intros l' Hatt'. left.
    apply attached_remove with (l' := l). revert Hatt'. now apply attached_ws.
  - intros i t Hi. left. rewrite Htm in Hi. apply lookup_delete_Some in Hi. tauto.
Qed.

Lemma inflight_dispatch now data s :
  inflight s -> inflight (dispatchMessage now data s).
Proof.
  intros Hin. unfold dispatchMessage.
  destruct (ws s) as [sock |]; [| exact Hin].
  assert (Hstart : inflight (onmessage data s)).
  { apply (inflight_frame s); auto.
    - intros k q. now destruct data as [[] |].
    - intros k q _. now destruct data as [[] |].
    - intros l Hatt. left. revert Hatt. apply attached_ws. now destruct data as [[] |].
    - intros i t Hi. left. now destruct data as [[] |]. }
  revert Hstart. generalize (onmessage data s).
  induction (listeners sock) as [| l ls IH]; intros s0 Hs0; cbn [fold_left]; [exact Hs0 |].
  apply IH.
  destruct (ws s0) as [sock' |] eqn:Hws; [| exact Hs0].
  destruct (decide (l ∈ listeners sock')) as [Hl | Hl]; [| exact Hs0].
  apply inflight_handle; [exact Hs0 |]. now exists sock'.
Qed.

End InFlight.
Section InFlightSteps.
Context `{JsEngine}.

Lemma onclose_frame code s :
  promises (onclose code s) = promises s
  /\ ongoingRequests (onclose code s) = ongoingRequests s
  /\ ws (onclose code s) = ws s
  /\ forall i t, timers (onclose code s) !! i = Some t ->
       timers s !! i = Some t \/ callback t = ConnectCallback.
Proof.
  unfold onclose. simpl.
  destruct (negb (code =? 1000)); [| auto].
  destruct (reconnectAttempts s <? maxReconnectAttempts); simpl; [| auto].
  repeat split; auto.
  intros i t Hi. rewrite lookup_insert_Some in Hi.
  destruct Hi as [[_ <-] | [_ Hi]]; auto.
Qed.

Lemma inflight_onclose code s s0 :
  promises s0 = promises s -> ongoingRequests s0 = ongoingRequests s ->
  timers s0 = timers s -> (forall l, attached l s0 -> attached l s) ->
  inflight s -> inflight (onclose code s0).
Proof.
  intros Hp Ho Ht Hl Hin.
  destruct (onclose_frame code s0) as (Hp' & Ho' & Hw' & Ht').
  apply (inflight_frame s); auto.
  - intros k q. now rewrite Ho', Ho.
  - intros k q _. now rewrite Hp', Hp.
  - intros l Hatt. left. apply Hl. revert Hatt. now apply attached_ws.
  - intros i t Hi. destruct (Ht' i t Hi) as [Hold | Hcb].
    + left. now rewrite <- Ht.
    + right. intros k q _. now rewrite Hcb.
Qed.

Lemma inflight_connect s : inflight s -> inflight (connect s).
Proof.
  intros Hin. destruct (connect_frame s) as (Hp & Ht & _ & _ & _ & Ho).
  apply (inflight_frame s); auto.
  - intros k q. now rewrite Ho.
  - intros k q _. now rewrite Hp.
  - intros l Hatt. left. now apply attached_connect.
  - intros i t. rewrite Ht. auto.
Qed.

(** A call that registers nothing: [executeTool], [readResource], and the
    list calls when answered from the cache. *)
Lemma inflight_unregistered s s' l :
  wf s -> inflight s ->
  ongoingRequests s' = ongoingRequests s ->
  (exists x, promises s' = promises s ++ [x]) ->
  ws s' = ws s \/ (ws s' = ws (addEventListener l s) /\ listenerPromise l = length (promises s)) ->
  (forall i t, timers s' !! i = Some t ->
     timers s !! i = Some t \/ callbackPromise (callback t) = Some (length (promises s))) ->
  inflight s'.
Proof.
  intros Hwf Hin Ho (x & Hp) Hw Ht.
  assert (Hlt : forall k q, ongoingRequests s' !! k = Some q -> (q < length (promises s))%nat).
  { intros k q Hk. rewrite Ho in Hk. destruct (Hin k q Hk) as (Hpend & _).
    now apply lookup_lt_Some in Hpend. }
  apply (inflight_frame s); auto.
  - intros k q. now rewrite Ho.
  - intros k q Hk Hpend. rewrite Hp. rewrite lookup_app_l; [exact Hpend |].
    now apply lookup_lt_Some in Hpend.
  - intros l' Hatt. destruct Hw as [Hw | [Hw Hl]].
    + left. revert Hatt. now apply attached_ws.
    + destruct Hatt as (sock' & Hs' & Hin'). rewrite Hw in Hs'. simpl in Hs'.
      destruct (ws s) as [sock |] eqn:Hs; [| discriminate].
      injection Hs' as <-. simpl in Hin'. apply elem_of_app in Hin' as [Hold | Hnew].
      * left. now exists sock.
      * right. apply list_elem_of_singleton in Hnew as ->.
        intros k q Hk. specialize (Hlt k q Hk). lia.
  - intros i t Hi. destruct (Ht i t Hi) as [Hold | Hnew]; [now left |].
    right. intros k q Hk Heq. specialize (Hlt k q Hk). rewrite Hnew in Heq.
    injection Heq as <-. lia.
Qed.

(** A list call that goes to the backend and registers its promise. *)
Lemma inflight_registered s s' l T k :
  wf s -> inflight s ->
  ongoingRequests s' = <[k := length (promises s)]> (ongoingRequests s) ->
  promises s' = promises s ++ [Pending] ->
  ws s' = ws (addEventListener l s) ->
  listenerPromise l = length (promises s) -> listenerOngoingKey l = Some k ->
  timers s' = <[nextTimer s := T]> (timers s) ->
  callbackPromise (callback T) = Some (length (promises s)) ->
  timerOngoingKey (callback T) = Some k ->
  inflight s'.
Proof.
  intros Hwf Hin Ho Hp Hw Hlp Hlk Ht HTp HTk k' q Hk'.
  destruct Hwf as (Hwl & Hwt & _).
  assert (Hatt : forall l', attached l' s' -> attached l' s \/ l' = l).
  { intros l' (sock' & Hs' & Hin'). rewrite Hw in Hs'. simpl in Hs'.
    destruct (ws s) as [sock |] eqn:Hs; [| discriminate].
    injection Hs' as <-. simpl in Hin'. apply elem_of_app in Hin' as [Hold | Hnew].
    - left. now exists sock.
    - right. now apply list_elem_of_singleton in Hnew. }
  rewrite Ho in Hk'. rewrite lookup_insert_Some in Hk'.
  destruct Hk' as [[<- <-] | [Hne Hk']].
  - split; [rewrite Hp; apply lookup_snoc | split].
    + intros l' Hatt' Hl'. destruct (Hatt l' Hatt') as [Hold | ->]; [| exact Hlk].
      destruct (Hwl l' Hold) as [Hlt _]. lia.
    + intros i t Hi Hcb. rewrite Ht, lookup_insert_Some in Hi.
      destruct Hi as [[_ <-] | [_ Hi]]; [exact HTk |].
      destruct (Hwt i t Hi) as [_ Hlt]. specialize (Hlt _ Hcb). lia.
  - destruct (Hin k' q Hk') as (Hpend & Hls & Hts).
    assert (Hq : (q < length (promises s))%nat) by (now apply lookup_lt_Some in Hpend).
    split; [rewrite Hp; now rewrite lookup_app_l | split].
    + intros l' Hatt' Hl'. destruct (Hatt l' Hatt') as [Hold | ->]; [now apply Hls | lia].
    + intros i t Hi Hcb. rewrite Ht, lookup_insert_Some in Hi.
      destruct Hi as [[_ <-] | [_ Hi]]; [| now apply (Hts i t)].
      rewrite HTp in Hcb. injection Hcb as <-. lia.
Qed.

End InFlightSteps.
Section InFlightInvariant.
Context `{JsEngine}.

Lemma inflight_timer now i t s :
  inflight s -> timers s !! i = Some t ->
  inflight (runTimer now (callback t) (clearTimeout i s)).
Proof.
  intros Hin Hi.
  assert (Hclear : inflight (clearTimeout i s)).
  { apply (inflight_frame s); auto.
    intros j t' Hj. left. simpl in Hj. apply lookup_delete_Some in Hj. tauto. }
  assert (Hsettle : forall k q p, ongoingRequests s !! k = Some q ->
                      callbackPromise (callback t) = Some p ->
                      timerOngoingKey (callback t) <> Some k -> q <> p).
  { intros k q p Hk Hcb Hne ->. destruct (Hin k p Hk) as (_ & _ & Hts).
    now apply Hne, (Hts i t). }
  destruct (callback t) eqn:Hcb; cbn [runTimer].
  - now apply inflight_connect.
  - apply (inflight_frame s); auto.
    + intros k q Hk Hpend. apply settle_other; [exact Hpend |]. left.
      now apply (Hsettle k q promise Hk).
    + intros j t' Hj. left. simpl in Hj. apply lookup_delete_Some in Hj. tauto.
  - apply (inflight_frame s); auto.
    + intros k q Hk. simpl in Hk. apply lookup_delete_Some in Hk. tauto.
    + intros k q Hk Hpend. simpl in Hk. apply lookup_delete_Some in Hk as [Hne Hk].
      apply settle_other; [exact Hpend |]. left.
      apply (Hsettle k q promise Hk); [reflexivity |]. simpl. congruence.
    + intros j t' Hj. left. simpl in Hj. apply lookup_delete_Some in Hj. tauto.
  - apply (inflight_frame s); auto.
    + intros k q Hk Hpend. apply settle_other; [exact Hpend |]. left.
      now apply (Hsettle k q promise Hk).
    + intros j t' Hj. left. simpl in Hj. apply lookup_delete_Some in Hj. tauto.
  - apply (inflight_frame s); auto.
    + intros k q Hk. simpl in Hk. apply lookup_delete_Some in Hk. tauto.
    + intros k q Hk Hpend. simpl in Hk. apply lookup_delete_Some in Hk as [Hne Hk].
      apply settle_other; [exact Hpend |]. left.
      apply (Hsettle k q promise Hk); [reflexivity |]. simpl. congruence.
    + intros j t' Hj. left. simpl in Hj. apply lookup_delete_Some in Hj. tauto.
Qed.

Lemma invoke_cases c now rnd s :
  (exists v, invoke c now rnd s = Promise_resolve v s)
  \/ (invoke c now rnd s).2 = s
  \/ issued s (invoke c now rnd s).2 (invoke c now rnd s).1.
Proof.
  destruct (cacheHit c now s) eqn:Hhit.
  - left. eexists. now apply invoke_cacheHit.
  - right. destruct (registers c) eqn:Hreg.
    + destruct (ongoingRequests s !! callKey c) as [q |] eqn:Hk.
      * left. destruct c as [srv tool prm | srv | srv]; try discriminate Hreg;
          cbn [invoke cacheHit callKey] in *.
        -- unfold listResources. rewrite Hhit, Hk. reflexivity.
        -- unfold listTools. rewrite Hhit, Hk. reflexivity.
      * right. apply invoke_issued_iff. auto.
    + right. apply invoke_issued_iff. split; [exact Hhit | congruence].
Qed.

Lemma inflight_invoke c now rnd s : wf s -> inflight s -> inflight (invoke c now rnd s).2.
Proof.
  intros Hwf Hin.
  destruct (invoke_cases c now rnd s) as [[v ->] | [-> | Hiss]]; [| exact Hin |].
  - apply (inflight_unregistered s _ (ExecuteToolListener "" "" 0 0) Hwf Hin).
    + reflexivity.
    + exists (Fulfilled v). reflexivity.
    + left. reflexivity.
    + intros i t Hi. now left.
  - pose proof Hiss as Hiss'. apply invoke_issued_iff in Hiss' as [_ Hfree].
    destruct (invoke_issued_state c now rnd s Hiss) as [_ ->].
    destruct (callListener_facts c now rnd s) as (Hlp & Hlt & HT & Hkey & _).
    destruct (registers c) eqn:Hreg.
    + apply (inflight_registered s _ (callListener c now rnd s) (callTimer c s) (callKey c));
        auto.
      all: try (simpl; now destruct (ws s)).
      all: try (simpl; now destruct c).
      all: destruct c; try discriminate Hreg; reflexivity.
    + apply (inflight_unregistered s _ (callListener c now rnd s) Hwf Hin).
      * reflexivity.
      * exists Pending. reflexivity.
      * right. split; [| exact Hlp]. simpl. now destruct (ws s).
      * intros i t Hi. simpl in Hi. rewrite lookup_insert_Some in Hi.
        destruct Hi as [[_ <-] | [_ Hi]]; [right; now destruct c | now left].
Qed.

Lemma inflight_step s e : wf s -> inflight s -> inflight (step s e).
Proof.
  intros Hwf Hin.
  destruct e as [| code | code | | now data | now timeoutId |
                 | now rnd srv tool prm | now rnd srv | now rnd srv uri | now rnd srv];
    cbn [step].
  - destruct (ws s) as [sock |] eqn:Hs; [| exact Hin].
    destruct (decide (readyState sock = CONNECTING)); [| exact Hin].
    apply (inflight_frame s); auto.
    intros l Hatt. left. apply (attached_readyState l OPEN). revert Hatt.
    now apply attached_ws.
  - destruct (ws s) as [sock |] eqn:Hs; [| exact Hin].
    destruct (decide (readyState sock = CLOSED)); [exact Hin |].
    apply (inflight_onclose code s); auto. intros l. apply attached_readyState.
  - now apply (inflight_onclose code s).
  - destruct (ws s); [| exact Hin]. apply (inflight_frame s); auto.
  - destruct (ws s) as [sock |]; [| exact Hin].
    destruct (decide (readyState sock = OPEN)); [| exact Hin].
    now apply inflight_dispatch.
  - destruct (timers s !! timeoutId) as [t |] eqn:Ht; [| exact Hin].
    now apply inflight_timer.
  - unfold manualReconnect. apply inflight_connect.
    apply (inflight_frame s); auto.
    + intros k q. now destruct (reconnectTimeoutRef _).
    + intros k q _. now destruct (reconnectTimeoutRef _).
    + intros l Hatt. left. revert Hatt. apply attached_ws.
      now destruct (reconnectTimeoutRef _).
    + intros i t Hi. left. simpl in Hi. destruct (reconnectTimeoutRef s); simpl in Hi;
        [| exact Hi]. apply lookup_delete_Some in Hi. tauto.
  - apply (inflight_invoke (ToolCall srv tool prm) now rnd s Hwf Hin).
  - apply (inflight_invoke (ResourcesCall srv) now rnd s Hwf Hin).
  - unfold readResource. cbn [snd].
    apply (inflight_unregistered s _
             (ReadResourceListener (makeRequestId "read_resource_" now rnd) srv
                (nextTimer s) (length (promises s))) Hwf Hin).
    + reflexivity.
    + exists Pending. reflexivity.
    + right. split; [| reflexivity]. simpl. now destruct (ws s).
    + intros i t Hi. simpl in Hi. rewrite lookup_insert_Some in Hi.
      destruct Hi as [[_ <-] | [_ Hi]]; auto.
  - apply (inflight_invoke (ToolsCall srv) now rnd s Hwf Hin).
Qed.

Lemma inflight_reachable b (events : list Event) : inflight (run (initial b) events).
Proof.
  assert (Hinit : wf (initial b) /\ inflight (initial b)).
  { split; [apply wf_initial |]. intros k q Hk. simpl in Hk.
    now rewrite lookup_empty in Hk. }
  revert Hinit. generalize (initial b).
  induction events as [| e events IH]; intros s [Hwf Hin]; [exact Hin |].
  apply IH. split; [now apply wf_step | now apply inflight_step].
Qed.

End InFlightInvariant.
(** X6. The in-flight table only holds pending promises. In every
    state the mounted hook can reach, a promise registered in
    [ongoingRequests] under a key is still pending, and the listeners and
    timers that refer to it are those of the list call registered under
    that key: the reply handler and the timeout of a list call unregister
    its key in the same step in which they settle its promise, and nothing
    else settles it. A caller that is handed the promise of a request in
    flight is therefore never handed a settled one. *)
Theorem inflight_promises_are_pending `{JsEngine}
    (url_accepted : bool) (events : list Event) (k : string) (q : nat) :
  let s := run (initial url_accepted) events in
  ongoingRequests s !! k = Some q ->
  promises s !! q = Some Pending
  /\ (forall l, attached l s -> listenerPromise l = q -> listenerOngoingKey l = Some k)
  /\ (forall timeoutId t, timers s !! timeoutId = Some t ->
        callbackPromise (callback t) = Some q ->
        timerOngoingKey (callback t) = Some k).
Proof.
  intros s Hk. exact (inflight_reachable url_accepted events k q Hk).
Qed.
Lemma inflight_promises_are_pending_witness :
  let events := [ TimerFires 3000 1; SocketOpen;
                  CallListTools 4000 "k3x9q2m1z" "calculator-server" ] in
  let s := run (H := sampleEngine) (initial true) events in
  let k := createRequestKey (H := sampleEngine) "listTools" "calculator-server" None in
  ongoingRequests s !! k = Some 0%nat
  /\ promises s !! 0%nat = Some Pending
  /\ (forall l, attached l s -> listenerPromise l = 0%nat -> listenerOngoingKey l = Some k)
  /\ (forall timeoutId t, timers s !! timeoutId = Some t ->
        callbackPromise (callback t) = Some 0%nat ->
        timerOngoingKey (callback t) = Some k).
Proof.
  intros events s k.
  assert (Hk : ongoingRequests s !! k = Some 0%nat) by (vm_compute; reflexivity).
  split; [exact Hk |].
  exact (inflight_promises_are_pending (H := sampleEngine) true events _ _ Hk).
Defined.

(** X8. A successful open starts the backoff afresh. When the
    connecting socket opens, the hook is connected and the attempt counter
    is back at 0, whatever it was; if that connection then closes
    abnormally, the first reconnect is scheduled after the base delay of
    2000 ms and counted as attempt 1. A normal closure (code 1000) of the
    open connection marks the hook disconnected and schedules nothing. *)
Theorem successful_open_restarts_backoff `{JsEngine}
    (st : HookState) (sock : WebSocket) (code : Z) :
  ws st = Some sock -> readyState sock = CONNECTING -> code <> 1000 ->
  let s1 := step st SocketOpen in
  let s2 := step s1 (SocketClose code) in
  let s2' := step s1 (SocketClose 1000) in
  connected s1 = true /\ reconnectAttempts s1 = 0 /\ isConnecting s1 = false
  /\ connected s2 = false /\ reconnectAttempts s2 = 1
  /\ timers s2
     = <[nextTimer st := {| delay := 2000; callback := ConnectCallback |}]> (timers st)
  /\ reconnectTimeoutRef s2 = Some (nextTimer st)
  /\ connected s2' = false /\ reconnectAttempts s2' = 0
  /\ timers s2' = timers st /\ nextTimer s2' = nextTimer st.
Proof.
  intros Hs Hconn Hcode s1 s2 s2'.
  assert (Hs1 : s1 = onopen (set_readyState OPEN st)).
  { subst s1. cbn [step]. rewrite Hs. now rewrite decide_True. }
  assert (Hne : (code =? 1000) = false) by (now apply Z.eqb_neq).
  subst s2 s2'. rewrite Hs1. cbn [step]. unfold onopen, set_readyState.
  simpl. rewrite Hs. simpl. unfold onclose. simpl. rewrite Hne. simpl.
  repeat split; reflexivity.
Qed.
Lemma successful_open_restarts_backoff_witness :
  let st := run (H := sampleEngine) (initial true)
              [ TimerFires 3000 1; SocketClose 1006; TimerFires 5000 2 ] in
  let s1 := step (H := sampleEngine) st SocketOpen in
  let s2 := step (H := sampleEngine) s1 (SocketClose 1006) in
  let s2' := step (H := sampleEngine) s1 (SocketClose 1000) in
  reconnectAttempts st = 1
  /\ connected s1 = true /\ reconnectAttempts s1 = 0 /\ isConnecting s1 = false
  /\ connected s2 = false /\ reconnectAttempts s2 = 1
  /\ timers s2
     = <[nextTimer st := {| delay := 2000; callback := ConnectCallback |}]> (timers st)
  /\ reconnectTimeoutRef s2 = Some (nextTimer st)
  /\ connected s2' = false /\ reconnectAttempts s2' = 0
  /\ timers s2' = timers st /\ nextTimer s2' = nextTimer st.
Proof.
  intros st s1 s2 s2'.
  split; [vm_compute; reflexivity |].
  apply (successful_open_restarts_backoff (H := sampleEngine) st
           {| readyState := CONNECTING; listeners := [] |} 1006).
  - vm_compute. reflexivity.
  - reflexivity.
  - discriminate.
Defined.
Section CalculatorDispatch.
Context `{JsEngine}.

Lemma known_tool_not_unknown (n : string) (args : list (string * jsval)) :
  existsb (String.eqb n) toolNames = true ->
  Calculator.callTool_try (toolCall n args) <> Throw ("Unknown tool: " +:+ n).
Proof.
  unfold toolNames, Calculator.callTool_try. cbn [existsb toolCall
    Calculator.arguments Calculator.name].
  intros Hn.
  repeat match goal with
         | |- context [String.eqb n ?s] =>
             destruct (String.eqb n s) eqn:?
         end; try discriminate Hn;
    repeat match goal with
           | |- context [if ?b then _ else _] => destruct b
           end; discriminate.
Qed.

End CalculatorDispatch.

(** X9. The calculator advertises exactly the tools it dispatches.
    A name is one of the six tools listed by the [tools/list] handler if and
    only if the [tools/call] handler has a case for it, that is, if and only
    if a call with that name and an argument object is not answered with
    "Unknown tool: <name>". Every listed tool requires exactly the
    properties its schema declares, and the answer to a call depends on
    nothing but these properties of the argument object. *)
Theorem calculator_lists_the_tools_it_dispatches `{JsEngine} (n : string) :
  (In n (map CalculatorTools.name CalculatorTools.tools)
   <-> forall args,
         Calculator.callTool (toolCall n args) <> errorResult ("Unknown tool: " +:+ n))
  /\ Forall (fun t =>
       map fst (CalculatorTools.properties (CalculatorTools.inputSchema t))
       = CalculatorTools.required (CalculatorTools.inputSchema t))
       CalculatorTools.tools
  /\ Forall (fun t => forall args args',
       (forall k, In k (CalculatorTools.required (CalculatorTools.inputSchema t)) ->
                  get_prop k args = get_prop k args') ->
       Calculator.callTool (toolCall (CalculatorTools.name t) args)
       = Calculator.callTool (toolCall (CalculatorTools.name t) args'))
       CalculatorTools.tools.
Proof.
  split.
  - destruct (existsb (String.eqb n) toolNames) eqn:Hn.
    + split.
      * intros _ args Heq.
        pose proof (known_tool_not_unknown n args Hn) as Hne.
        rewrite callTool_of_try in Heq.
        destruct (Calculator.callTool_try (toolCall n args)) as [r | m] eqn:Htry.
        -- destruct (callTool_try_return _ _ Htry) as [t ->]. discriminate Heq.
        -- apply Hne. f_equal. unfold errorResult in Heq. simpl in Heq.
           now injection Heq.
      * intros _. apply existsb_exists in Hn as (x & Hx & Heq).
        apply String.eqb_eq in Heq as <-. exact Hx.
    + split.
      * intros Hin. exfalso.
        assert (Hex : existsb (String.eqb n) toolNames = true).
        { apply existsb_exists. exists n. split; [exact Hin | apply String.eqb_refl]. }
        congruence.
      * intros Hall. exfalso. apply (Hall []).
        rewrite callTool_of_try. now rewrite (unknown_tool n [] Hn).
  - split; [repeat constructor |].
    repeat constructor;
      intros args args' Hsame; cbn [CalculatorTools.required CalculatorTools.inputSchema
        CalculatorTools.name] in *;
      unfold Calculator.callTool, Calculator.callTool_try;
      cbn [toolCall Calculator.arguments Calculator.name String.eqb Ascii.eqb
           Bool.eqb andb];
      repeat match goal with
             | |- context [get_prop ?k args] =>
                 rewrite (Hsame k) by (simpl; tauto)
             end;
      reflexivity.
Qed.
Section CalculatorOperands.
Context `{JsEngine}.




End CalculatorOperands.

Section History.
Context `{JsEngine}.

Lemma finish_length executionId outcome h :
  length (ToolExecutor.handleExecute_finish executionId outcome h) = length h.
Proof. destruct outcome; simpl; now rewrite ?length_map. Qed.

Lemma finish_ids executionId outcome h :
  map (fun x => (ToolExecutor.id x, ToolExecutor.timestamp x, ToolExecutor.server x,
                 ToolExecutor.tool x, ToolExecutor.params x))
      (ToolExecutor.handleExecute_finish executionId outcome h)
  = map (fun x => (ToolExecutor.id x, ToolExecutor.timestamp x, ToolExecutor.server x,
                   ToolExecutor.tool x, ToolExecutor.params x)) h.
Proof.
  destruct outcome; simpl; [reflexivity | |];
    rewrite map_map; apply map_ext; intros x;
    now destruct (String.eqb (ToolExecutor.id x) executionId).
Qed.

Lemma finish_absent executionId outcome h :
  ~ In executionId (map ToolExecutor.id h) ->
  ToolExecutor.handleExecute_finish executionId outcome h = h.
Proof.
  intros Hnin.
  assert (Hmap : forall f : ToolExecutor.Execution -> ToolExecutor.Execution,
             map (fun x => if String.eqb (ToolExecutor.id x) executionId then f x else x) h
             = h).
  { intros f. induction h as [| x h IH]; [reflexivity |]. simpl.
    destruct (String.eqb (ToolExecutor.id x) executionId) eqn:Hx.
    - apply String.eqb_eq in Hx. exfalso. apply Hnin. now left.
    - f_equal. apply IH. intros Hin. apply Hnin. now right. }
  destruct outcome; simpl; [reflexivity | |]; apply Hmap.
Qed.

Lemma historyStep_length h e :
  (length h <= 10)%nat -> (length (historyStep h e) <= 10)%nat.
Proof.
  intros Hh. destruct e as [now srv tl prm | eid o]; cbn [historyStep].
  - unfold ToolExecutor.handleExecute_start.
    destruct (_ || _); simpl; [exact Hh |].
    rewrite length_take. lia.
  - now rewrite finish_length.
Qed.

End History.

(** X11. The execution history of the tool executor keeps the ten
    most recent executions, newest first. Starting an execution (a server
    and a tool being selected) puts a pending entry with id
    ["exec_<now>"] in front of the first nine entries; whatever sequence of
    starts and completions happens, the history never holds more than ten
    entries. A completion marks every entry that carries the execution's
    id - success with the response, or error with the error's message -
    and changes nothing else: the entries keep their order, ids, times,
    servers, tools and parameters, and a completion whose entry has
    already been pushed out leaves the history as it is. *)
Theorem execution_history_keeps_ten `{JsEngine}
    (events : list HistoryEvent) (h : list ToolExecutor.Execution)
    (now : Z) (selectedServer selectedTool executionId : string) (toolParams : jsval)
    (outcome : Hook.PromiseState) :
  (length (fold_left historyStep events []) <= 10)%nat
  /\ (if String.eqb selectedServer "" || String.eqb selectedTool ""
      then ToolExecutor.handleExecute_start now selectedServer selectedTool toolParams h
           = (None, h)
      else ToolExecutor.handleExecute_start now selectedServer selectedTool toolParams h
           = (Some ("exec_" +:+ pretty now),
              {| ToolExecutor.id := "exec_" +:+ pretty now;
                 ToolExecutor.timestamp := now;
                 ToolExecutor.server := selectedServer;
                 ToolExecutor.tool := selectedTool;
                 ToolExecutor.params := toolParams;
                 ToolExecutor.status := ToolExecutor.pending;
                 ToolExecutor.result := ToolExecutor.NoResult |} :: take 9 h))
  /\ length (ToolExecutor.handleExecute_finish executionId outcome h) = length h
  /\ map (fun x => (ToolExecutor.id x, ToolExecutor.timestamp x, ToolExecutor.server x,
                    ToolExecutor.tool x, ToolExecutor.params x))
         (ToolExecutor.handleExecute_finish executionId outcome h)
     = map (fun x => (ToolExecutor.id x, ToolExecutor.timestamp x, ToolExecutor.server x,
                      ToolExecutor.tool x, ToolExecutor.params x)) h
  /\ (forall i x, h !! i = Some x ->
        ToolExecutor.handleExecute_finish executionId outcome h !! i
        = Some (if String.eqb (ToolExecutor.id x) executionId
                then match outcome with
                     | Hook.Pending => x
                     | Hook.Fulfilled value =>
                         {| ToolExecutor.id := ToolExecutor.id x;
                            ToolExecutor.timestamp := ToolExecutor.timestamp x;
                            ToolExecutor.server := ToolExecutor.server x;
                            ToolExecutor.tool := ToolExecutor.tool x;
                            ToolExecutor.params := ToolExecutor.params x;
                            ToolExecutor.status := ToolExecutor.success;
                            ToolExecutor.result := ToolExecutor.Response value |}
                     | Hook.Rejected message =>
                         {| ToolExecutor.id := ToolExecutor.id x;
                            ToolExecutor.timestamp := ToolExecutor.timestamp x;
                            ToolExecutor.server := ToolExecutor.server x;
                            ToolExecutor.tool := ToolExecutor.tool x;
                            ToolExecutor.params := ToolExecutor.params x;
                            ToolExecutor.status := ToolExecutor.error;
                            ToolExecutor.result :=
                              ToolExecutor.Failure
                                match message with
                                | JUndefined => ""
                                | _ => ToString message
                                end message |}
                     end
                else x))
  /\ (~ In executionId (map ToolExecutor.id h) ->
      ToolExecutor.handleExecute_finish executionId outcome h = h).
Proof.
  split; [| split; [| split; [| split; [| split]]]].
  - assert (Hgen : forall h0, (length h0 <= 10)%nat ->
                     (length (fold_left historyStep events h0) <= 10)%nat).
    { induction events as [| e es IH]; intros h0 Hh0; [exact Hh0 |].
      simpl. apply IH. now apply historyStep_length. }
    apply Hgen. simpl. lia.
  - unfold ToolExecutor.handleExecute_start. now destruct (_ || _).
  - apply finish_length.
  - apply finish_ids.
  - intros i x Hi. destruct outcome; simpl.
    + rewrite Hi. now destruct (String.eqb _ _).
    + rewrite list_lookup_fmap, Hi. reflexivity.
    + rewrite list_lookup_fmap, Hi. reflexivity.
  - apply finish_absent.
Qed.
Section Defaults.
Context `{JsEngine}.


End Defaults.


(** X13. The default parameters of every calculator tool make
    a call the calculator accepts. For each tool the calculator lists, the
    tool executor's defaults bind every required property to 5, and the
    calculator's handler answers a call of that tool with these arguments
    without an error flag (5 is neither a zero divisor nor a negative
    square-root operand); for the four arithmetic tools the answers are
    "5 + 5 = 10", "5 - 5 = 0", "5 × 5 = 25" and "5 ÷ 5 = 1". *)
Theorem calculator_defaults_are_accepted `{JsEngine} :
  Forall (fun t =>
    ToolExecutor.defaultParams (ToolExecutor.toolSchema t)
    = Some (fives (CalculatorTools.required (CalculatorTools.inputSchema t)))
    /\ Calculator.isError
         (Calculator.callTool
            (toolCall (CalculatorTools.name t)
               (fives (CalculatorTools.required (CalculatorTools.inputSchema t)))))
       = None)
    CalculatorTools.tools
  /\ map (fun n => Calculator.callTool (toolCall n (fives ["a"; "b"])))
       ["add"; "subtract"; "multiply"; "divide"]
     = map Calculator.textResult
         ["5 + 5 = 10"; "5 - 5 = 0"; "5 × 5 = 25"; "5 ÷ 5 = 1"].
Proof.
  split.
  - repeat constructor.
  - vm_compute. reflexivity.
Qed.
Section Pairing.

Lemma find_first {A} (f : A -> bool) (l : list A) :
  match find f l with
  | Some r => exists pre post, l = pre ++ r :: post /\ f r = true
                               /\ Forall (fun x => f x = false) pre
  | None => Forall (fun x => f x = false) l
  end.
Proof.
  induction l as [| x l IH]; simpl; [constructor |].
  destruct (f x) eqn:Hx.
  - exists [], l. repeat split; auto.
  - destruct (find f l) as [r |].
    + destruct IH as (pre & post & -> & Hr & Hpre).
      exists (x :: pre), post. repeat split; auto.
    + now constructor.
Qed.

End Pairing.

(** X14. The protocol inspector pairs by id. For a selected request,
    [pairedResponse] is the first message of the list that is a response
    carrying the request's id: every message before it is not such a
    response. It is [undefined] exactly when nothing is selected, the
    selected message is not a request, or the list holds no response with
    that id. *)
Theorem pairedResponse_is_first_response_with_id
    (message : option MCPMessage) (messages : list MCPMessage) :
  match pairedResponse message messages with
  | Some r =>
      exists m pre post,
        message = Some m /\ type m = request
        /\ messages = pre ++ r :: post
        /\ type r = response /\ id r = id m
        /\ Forall (fun x => ~ (type x = response /\ id x = id m)) pre
  | None =>
      message = None
      \/ exists m, message = Some m
           /\ (type m <> request
               \/ Forall (fun x => ~ (type x = response /\ id x = id m)) messages)
  end.
Proof.
  unfold pairedResponse. destruct message as [m |]; [| now left].
  destruct (decide (type m = request)) as [Hreq | Hreq]; [| right; eauto].
  set (f := fun msg : MCPMessage =>
              bool_decide (type msg = response) && String.eqb (id msg) (id m)).
  assert (Hf : forall x, f x = false -> ~ (type x = response /\ id x = id m)).
  { intros x Hx [Ht Hi]. unfold f in Hx. rewrite bool_decide_eq_true_2 in Hx by exact Ht.
    rewrite Hi, String.eqb_refl in Hx. discriminate. }
  pose proof (find_first f messages) as Hfind.
  destruct (find f messages) as [r |].
  - destruct Hfind as (pre & post & -> & Hr & Hpre).
    unfold f in Hr. apply andb_true_iff in Hr as [Ht Hi].
    apply bool_decide_eq_true in Ht. apply String.eqb_eq in Hi.
    exists m, pre, post. repeat split; auto.
    eapply Forall_impl; [exact Hpre | exact Hf].
  - right. exists m. split; [reflexivity |]. right.
    eapply Forall_impl; [exact Hfind | exact Hf].
Qed.
Section Mirror.
Context `{JsEngine}.

Lemma slice_last_short {A} (n : nat) (l : list A) :
  (length l <= n)%nat -> slice_last n l = l.
Proof. intros Hl. unfold slice_last. now replace (length l - n)%nat with 0%nat by lia. Qed.

Lemma hub_history_logMessage message st :
  MCPClient.messageHistory (MCPClient.logMessage message st)
  = slice_last 100 (MCPClient.messageHistory st ++ [message]).
Proof.
  unfold MCPClient.logMessage. cbn [MCPClient.broadcastMessage MCPClient.messageHistory].
  destruct (100 <? length _)%nat eqn:Hlen; [reflexivity |].
  apply Nat.ltb_ge in Hlen. now rewrite slice_last_short.
Qed.







End Mirror.
Section HubIds.

Lemma idsOf_app t h1 h2 : idsOf t (h1 ++ h2) = idsOf t h1 ++ idsOf t h2.
Proof. unfold idsOf. now rewrite filter_app, fmap_app. Qed.

Lemma idsOf_elem t h x : x ∈ idsOf t h -> exists m, m ∈ h /\ id m = x /\ type m = t.
Proof.
  unfold idsOf. intros Hx. apply list_elem_of_fmap in Hx as (m & -> & Hm).
  apply list_elem_of_filter in Hm as [Ht Hm]. apply bool_decide_unpack in Ht. eauto.
Qed.

Lemma idsOf_slice t n h : exists pre, idsOf t h = pre ++ idsOf t (slice_last n h).
Proof.
  unfold slice_last. exists (idsOf t (take (length h - n) h)).
  rewrite <- idsOf_app. now rewrite take_drop.
Qed.

Lemma elem_of_slice_last {A} n (h : list A) x : x ∈ slice_last n h -> x ∈ h.
Proof. unfold slice_last. intros Hx. rewrite <- (take_drop (length h - n) h).
  apply elem_of_app. now right. Qed.

Lemma NoDup_idsOf_slice t n h : NoDup (idsOf t h) -> NoDup (idsOf t (slice_last n h)).
Proof.
  destruct (idsOf_slice t n h) as [pre ->]. intros Hnd.
  now apply NoDup_app in Hnd as (_ & _ & Hnd).
Qed.

Lemma not_elem_idsOf_slice t n h x : x ∉ idsOf t h -> x ∉ idsOf t (slice_last n h).
Proof.
  destruct (idsOf_slice t n h) as [pre ->]. intros Hx Hin. apply Hx.
  apply elem_of_app. now right.
Qed.

Lemma length_slice_last {A} n (h : list A) : (length (slice_last n h) <= n)%nat.
Proof. unfold slice_last. rewrite length_drop. lia. Qed.

Lemma increment_fresh counter :
  0 <= counter < 9007199254740992 ->
  MCPClient.increment counter = counter + 1.
Proof.
  intros Hc. unfold MCPClient.increment.
  destruct (counter <? 9007199254740992) eqn:Hlt; [reflexivity | lia].
Qed.

(** Logging a message whose id is the numeral of the counter value just
    drawn. *)
Lemma hubIds_log_fresh m st st0 :
  hubIds st -> MCPClient.messageIdCounter st < 9007199254740992 ->
  MCPClient.messageHistory st0 = MCPClient.messageHistory st ->
  MCPClient.suspended st0 = MCPClient.suspended st ->
  MCPClient.messageIdCounter st0 = MCPClient.messageIdCounter st + 1 ->
  id m = pretty (MCPClient.messageIdCounter st + 1) ->
  hubIds (MCPClient.logMessage m st0)
  /\ MCPClient.messageIdCounter (MCPClient.logMessage m st0)
     = MCPClient.messageIdCounter st + 1
  /\ MCPClient.suspended (MCPClient.logMessage m st0) = MCPClient.suspended st.
Proof.
  intros (Hc & Hids & Hsus & Hnds & Hndq & Hndr & Hlen) Hlt Hh Hs Hcnt Hid.
  assert (Hfresh : forall t, id m ∉ idsOf t (MCPClient.messageHistory st)).
  { intros t Hin. apply idsOf_elem in Hin as (m' & Hm' & Heq & _).
    destruct (Hids m' Hm') as (k & Hk & Hidk). rewrite Hid, Hidk in Heq.
    apply (inj pretty) in Heq. lia. }
  assert (Hnd : forall t, NoDup (idsOf t (MCPClient.messageHistory st)) ->
                  NoDup (idsOf t (MCPClient.messageHistory st ++ [m]))).
  { intros t Hndt. rewrite idsOf_app. apply NoDup_app. split; [exact Hndt | split].
    - intros x Hx Hx'. unfold idsOf in Hx'. simpl in Hx'.
      rewrite filter_cons, filter_nil in Hx'.
      destruct (decide _); simpl in Hx'; [| now apply not_elem_of_nil in Hx'].
      apply list_elem_of_singleton in Hx' as ->. now apply (Hfresh t).
    - unfold idsOf. rewrite filter_cons, filter_nil.
      destruct (decide _); simpl; [apply NoDup_singleton | apply NoDup_nil_2]. }
  split; [| split; [exact Hcnt | exact Hs]].
  unfold hubIds. rewrite hub_history_logMessage, Hh.
  cbn [MCPClient.logMessage MCPClient.broadcastMessage MCPClient.messageIdCounter
       MCPClient.suspended].
  rewrite Hcnt, Hs.
  split; [lia | split; [| split; [| split; [exact Hnds | split; [| split]]]]].
  - intros m' Hm'. apply elem_of_slice_last, elem_of_app in Hm' as [Hold | Hnew].
    + destruct (Hids m' Hold) as (k & Hk & Hidk). exists k. split; [lia | exact Hidk].
    + apply list_elem_of_singleton in Hnew as ->. exists (MCPClient.messageIdCounter st + 1).
      split; [lia | exact Hid].
  - intros w Hw. destruct (Hsus w Hw) as ((k & Hk & Hwk) & Hno). split.
    + exists k. split; [lia | exact Hwk].
    + apply not_elem_idsOf_slice. rewrite idsOf_app. intros Hin.
      apply elem_of_app in Hin as [Hold | Hnew]; [now apply Hno |].
      apply idsOf_elem in Hnew as (m' & Hm' & Heq & _).
      apply list_elem_of_singleton in Hm' as ->.
      rewrite Hid, Hwk in Heq. apply (inj pretty) in Heq. lia.
  - now apply NoDup_idsOf_slice, Hnd.
  - now apply NoDup_idsOf_slice, Hnd.
  - apply length_slice_last.
Qed.

End HubIds.
Section HubIdsSteps.

Lemma idsOf_snoc_other t h m : type m <> t -> idsOf t (h ++ [m]) = idsOf t h.
Proof.
  intros Hne. rewrite idsOf_app. unfold idsOf at 2. rewrite filter_cons, filter_nil.
  destruct (decide _) as [Ht | _]; [| now rewrite app_nil_r].
  apply bool_decide_unpack in Ht. contradiction.
Qed.

Lemma idsOf_snoc_same t h m : type m = t -> idsOf t (h ++ [m]) = idsOf t h ++ [id m].
Proof.
  intros He. rewrite idsOf_app. unfold idsOf at 2. rewrite filter_cons, filter_nil.
  destruct (decide _) as [_ | Ht]; [reflexivity |].
  exfalso. apply Ht. now apply bool_decide_pack.
Qed.

Lemma hubIds_resumed i w now outcome st :
  hubIds st -> MCPClient.suspended st !! i = Some w ->
  hubIds (MCPClient.step st (MCPClient.WrapperResumed i now outcome))
  /\ MCPClient.messageIdCounter (MCPClient.step st (MCPClient.WrapperResumed i now outcome))
     = MCPClient.messageIdCounter st.
Proof.
  intros (Hc & Hids & Hsus & Hnds & Hndq & Hndr & Hlen) Hw.
  cbn [MCPClient.step]. rewrite Hw. split; [| reflexivity].
  unfold MCPClient.wrapper_resumed.
  set (resp := {| id := MCPClient.requestId w |}).
  assert (Hwin : w ∈ MCPClient.suspended st) by (now apply list_elem_of_lookup_2 in Hw).
  destruct (Hsus w Hwin) as ((k & Hk & Hwk) & Hno).
  assert (Hsplit : MCPClient.suspended st
                   = take i (MCPClient.suspended st) ++ w :: drop (S i) (MCPClient.suspended st))
    by (symmetry; now apply take_drop_middle).
  assert (Hdel : delete i (MCPClient.suspended st)
                 = take i (MCPClient.suspended st) ++ drop (S i) (MCPClient.suspended st))
    by (apply delete_take_drop).
  assert (Hother : forall w', w' ∈ delete i (MCPClient.suspended st) ->
                     w' ∈ MCPClient.suspended st
                     /\ MCPClient.requestId w' <> MCPClient.requestId w).
  { intros w' Hw'. rewrite Hdel in Hw'. rewrite Hsplit in Hnds |- *.
    rewrite fmap_app, fmap_cons in Hnds.
    apply NoDup_app in Hnds as (_ & Hdisj & Hnd2).
    apply NoDup_cons in Hnd2 as [Hnotin _].
    apply elem_of_app in Hw' as [Hl | Hr].
    - split; [apply elem_of_app; now left |]. intros Heq.
      apply (Hdisj (MCPClient.requestId w')).
      + apply list_elem_of_fmap. eauto.
      + rewrite Heq. now left.
    - split; [apply elem_of_app; right; now right |]. intros Heq.
      apply Hnotin. rewrite <- Heq. apply list_elem_of_fmap. eauto. }
  unfold hubIds. rewrite hub_history_logMessage.
  cbn [MCPClient.logMessage MCPClient.broadcastMessage MCPClient.messageIdCounter
       MCPClient.suspended MCPClient.messageHistory].
  split; [exact Hc | split; [| split; [| split; [| split; [| split]]]]].
  - intros m' Hm'. apply elem_of_slice_last, elem_of_app in Hm' as [Hold | Hnew].
    + now apply Hids.
    + apply list_elem_of_singleton in Hnew as ->. exists k. split; [exact Hk | exact Hwk].
  - intros w' Hw'. destruct (Hother w' Hw') as [Hin Hne].
    destruct (Hsus w' Hin) as (Hk' & Hno'). split; [exact Hk' |].
    apply not_elem_idsOf_slice. rewrite idsOf_snoc_same by reflexivity.
    intros Hx. apply elem_of_app in Hx as [Hold | Hnew]; [now apply Hno' |].
    apply list_elem_of_singleton in Hnew. now apply Hne.
  - rewrite Hdel. rewrite Hsplit in Hnds. rewrite fmap_app in *. rewrite fmap_cons in Hnds.
    apply NoDup_app in Hnds as (Hn1 & Hdisj & Hn2).
    apply NoDup_cons in Hn2 as [_ Hn2].
    apply NoDup_app. split; [exact Hn1 | split; [| exact Hn2]].
    intros x Hx Hx'. apply (Hdisj x Hx). now right.
  - apply NoDup_idsOf_slice. now rewrite idsOf_snoc_other.
  - apply NoDup_idsOf_slice. rewrite idsOf_snoc_same by reflexivity.
    apply NoDup_app. split; [exact Hndr | split; [| apply NoDup_singleton]].
    intros x Hx Hx'. apply list_elem_of_singleton in Hx' as ->. now apply Hno.
  - apply length_slice_last.
Qed.

Lemma hubIds_step st e :
  hubIds st -> MCPClient.messageIdCounter st < 9007199254740992 ->
  hubIds (MCPClient.step st e)
  /\ MCPClient.messageIdCounter (MCPClient.step st e) <= MCPClient.messageIdCounter st + 1.
Proof.
  intros Hin Hlt. pose proof Hin as (Hc & Hids & Hsus & Hnds & Hndq & Hndr & Hlen).
  destruct e as [status | c' state | status | method prm srv now | j now response | message];
    cbn [MCPClient.step].
  - split; [exact Hin | simpl; lia].
  - split; [exact Hin | simpl; lia].
  - split; [exact Hin | simpl; lia].
  - unfold MCPClient.wrapper_called.
    rewrite increment_fresh by lia.
    match goal with |- context [MCPClient.logMessage ?m ?s0] =>
      destruct (hubIds_log_fresh m st s0 Hin Hlt eq_refl eq_refl eq_refl eq_refl)
        as ((Hc' & Hids' & Hsus' & Hnds' & Hndq' & Hndr' & Hlen') & Hcnt & Hsusp);
      set (logged := MCPClient.logMessage m s0) in *
    end.
    split; [| simpl; lia].
    unfold hubIds. cbn [MCPClient.messageHistory MCPClient.messageIdCounter MCPClient.suspended].
    rewrite Hsusp.
    split; [exact Hc' | split; [exact Hids' | split; [| split; [| auto]]]].
    + intros w Hw. apply elem_of_app in Hw as [Hold | Hnew].
      * apply Hsus'. now rewrite Hsusp.
      * apply list_elem_of_singleton in Hnew as ->. cbn [MCPClient.requestId]. split.
        -- exists (MCPClient.messageIdCounter st + 1). split; [lia | reflexivity].
        -- intros Hx. apply idsOf_elem in Hx as (m' & Hm' & Heq & Hty).
           unfold logged in Hm'. rewrite hub_history_logMessage in Hm'.
           apply elem_of_slice_last, elem_of_app in Hm' as [Hold | Hnew].
           ++ destruct (Hids m' Hold) as (k & Hk & Hidk). rewrite Hidk in Heq.
              apply (inj pretty) in Heq. lia.
           ++ apply list_elem_of_singleton in Hnew as ->. discriminate Hty.
    + rewrite fmap_app. apply NoDup_app. split; [exact Hnds | split; [| apply NoDup_singleton]].
      intros x Hx Hx'. apply list_elem_of_singleton in Hx' as ->.
      apply list_elem_of_fmap in Hx as (w & Heq & Hw).
      destruct (Hsus w Hw) as ((k & Hk & Hwk) & _). cbn [MCPClient.requestId] in Heq.
      rewrite Hwk in Heq. apply (inj pretty) in Heq. lia.
  - destruct (MCPClient.suspended st !! j) as [w |] eqn:Hw.
    + destruct (hubIds_resumed j w now response st Hin Hw) as [Hres Hcnt].
      cbn [MCPClient.step] in Hres, Hcnt. rewrite Hw in Hres, Hcnt.
      split; [exact Hres | lia].
    + split; [exact Hin | lia].
  - unfold MCPClient.demo_log. rewrite increment_fresh by lia.
    match goal with |- context [MCPClient.logMessage ?m ?s0] =>
      destruct (hubIds_log_fresh m st s0 Hin Hlt eq_refl eq_refl eq_refl eq_refl)
        as (Hres & Hcnt & _)
    end.
    split; [exact Hres | lia].
Qed.

Lemma hubIds_run (events : list MCPClient.Event) : forall st,
  hubIds st ->
  MCPClient.messageIdCounter st + Z.of_nat (length events) <= 9007199254740992 ->
  hubIds (MCPClient.run st events).
Proof.
  induction events as [| e es IH]; intros st Hin Hlen; [exact Hin |].
  cbn [length] in Hlen.
  destruct (hubIds_step st e Hin) as [Hin' Hcnt]; [lia |].
  apply IH; [exact Hin' | lia].
Qed.

End HubIdsSteps.
Section HubPairing.

Lemma NoDup_fmap_elem_inj {A B} (f : A -> B) (l : list A) x y :
  NoDup (f <$> l) -> x ∈ l -> y ∈ l -> f x = f y -> x = y.
Proof.
  induction l as [| a l IH]; intros Hnd Hx Hy Heq; [now apply not_elem_of_nil in Hx |].
  rewrite fmap_cons in Hnd. apply NoDup_cons in Hnd as [Hnotin Hnd].
  apply elem_of_cons in Hx as [-> | Hx]; apply elem_of_cons in Hy as [-> | Hy].
  - reflexivity.
  - exfalso. apply Hnotin. rewrite Heq. apply list_elem_of_fmap. eauto.
  - exfalso. apply Hnotin. rewrite <- Heq. apply list_elem_of_fmap. eauto.
  - now apply IH.
Qed.

Lemma paired_unique (h : list MCPMessage) req resp :
  NoDup (idsOf response h) ->
  resp ∈ h -> type req = request -> type resp = response -> id resp = id req ->
  pairedResponse (Some req) h = Some resp.
Proof.
  intros Hnd Hin Hreq Hresp Hid. unfold pairedResponse.
  rewrite decide_True by exact Hreq.
  set (f := fun msg : MCPMessage =>
              bool_decide (type msg = response) && String.eqb (id msg) (id req)).
  assert (Hfresp : f resp = true).
  { unfold f. rewrite bool_decide_eq_true_2 by exact Hresp.
    rewrite Hid. now rewrite String.eqb_refl. }
  pose proof (find_first f h) as Hfind.
  destruct (find f h) as [r |].
  - destruct Hfind as (pre & post & Hh & Hr & _). f_equal.
    unfold f in Hr. apply andb_true_iff in Hr as [Ht Hi].
    apply bool_decide_eq_true in Ht. apply String.eqb_eq in Hi.
    assert (Hrin : r ∈ h) by (rewrite Hh; apply elem_of_app; right; now left).
    apply (NoDup_fmap_elem_inj id
             (filter (fun m => bool_decide (type m = response)) h)); auto.
    + apply list_elem_of_filter. split; [now apply bool_decide_pack | exact Hrin].
    + apply list_elem_of_filter. split; [now apply bool_decide_pack | exact Hin].
    + congruence.
  - exfalso. rewrite Forall_forall in Hfind.
    assert (Hf : f resp = false) by (now apply Hfind).
    congruence.
Qed.

End HubPairing.

(** X16. The hub logs a response under the id of its request, and
    ids are not reused. Each logging wrapper ([client.callTool],
    [client.listTools], [client.listResources]) draws a fresh id from the
    counter, logs its request under it, and when the call returns or throws
    logs the response under the same id; the demo's hand-made messages
    draw ids of their own. So, as long as fewer than 2^53 ids have been
    drawn, the history holds at most 100 messages, no two requests and no
    two responses in it share an id, and pairing by id equality - as the
    protocol inspector does - finds for a request exactly the response
    logged for it, whatever calls were interleaved. *)
Theorem hub_log_pairs_by_id (events : list MCPClient.Event) :
  Z.of_nat (length events) <= 9007199254740992 ->
  let hub := MCPClient.run MCPClient.initial events in
  let h := MCPClient.messageHistory hub in
  (length h <= 100)%nat
  /\ NoDup (idsOf request h)
  /\ NoDup (idsOf response h)
  /\ (forall req resp,
        resp ∈ h -> type req = request -> type resp = response -> id resp = id req ->
        pairedResponse (Some req) h = Some resp)
  /\ (forall method prm srv now,
        let hub' := MCPClient.step hub (MCPClient.WrapperCalled method prm srv now) in
        exists req w,
          last (MCPClient.messageHistory hub') = Some req
          /\ last (MCPClient.suspended hub') = Some w
          /\ type req = request
          /\ id req = MCPClient.requestId w)
  /\ (forall i w now outcome,
        MCPClient.suspended hub !! i = Some w ->
        let hub' := MCPClient.step hub (MCPClient.WrapperResumed i now outcome) in
        exists resp,
          last (MCPClient.messageHistory hub') = Some resp
          /\ type resp = response
          /\ id resp = MCPClient.requestId w
          /\ MCPClient.suspended hub' = delete i (MCPClient.suspended hub)).
Proof.
  intros Hlen hub h.
  assert (Hinit : hubIds MCPClient.initial).
  { unfold hubIds. simpl.
    split; [lia | split; [| split; [| split; [| split; [| split]]]]];
      try apply NoDup_nil_2; try lia;
      intros x Hx; now apply not_elem_of_nil in Hx. }
  pose proof (hubIds_run events MCPClient.initial Hinit Hlen)
    as (_ & _ & _ & _ & Hndq & Hndr & Hl).
  fold hub in Hndq, Hndr, Hl. fold h in Hndq, Hndr, Hl.
  split; [exact Hl | split; [exact Hndq | split; [exact Hndr | split; [| split]]]].
  - intros req resp. now apply paired_unique.
  - intros method prm srv now hub'. subst hub'. cbn [MCPClient.step].
    unfold MCPClient.wrapper_called.
    cbn [MCPClient.messageHistory MCPClient.suspended].
    rewrite hub_history_logMessage. cbn [MCPClient.messageHistory].
    eexists _, _. split; [apply last_slice_last_snoc; lia |].
    split; [apply last_snoc | split; reflexivity].
  - intros i w now outcome Hw hub'. subst hub'. cbn [MCPClient.step]. rewrite Hw.
    unfold MCPClient.wrapper_resumed. rewrite hub_history_logMessage.
    cbn [MCPClient.messageHistory].
    eexists. split; [apply last_slice_last_snoc; lia | repeat split].
Qed.
Lemma hub_log_pairs_by_id_witness :
  let hub := MCPClient.run MCPClient.initial sampleHubEvents in
  let h := MCPClient.messageHistory hub in
  (length h <= 100)%nat
  /\ NoDup (idsOf request h)
  /\ NoDup (idsOf response h)
  /\ (forall req resp,
        resp ∈ h -> type req = request -> type resp = response -> id resp = id req ->
        pairedResponse (Some req) h = Some resp)
  /\ (forall method prm srv now,
        let hub' := MCPClient.step hub (MCPClient.WrapperCalled method prm srv now) in
        exists req w,
          last (MCPClient.messageHistory hub') = Some req
          /\ last (MCPClient.suspended hub') = Some w
          /\ type req = request
          /\ id req = MCPClient.requestId w)
  /\ (forall i w now outcome,
        MCPClient.suspended hub !! i = Some w ->
        let hub' := MCPClient.step hub (MCPClient.WrapperResumed i now outcome) in
        exists resp,
          last (MCPClient.messageHistory hub') = Some resp
          /\ type resp = response
          /\ id resp = MCPClient.requestId w
          /\ MCPClient.suspended hub' = delete i (MCPClient.suspended hub)).
Proof.
  intros hub h.
  apply (hub_log_pairs_by_id sampleHubEvents).
  vm_compute. discriminate.
Defined.
Section RoundTrip.
Context `{JsEngine}.

(** The frame that carries an outcome of the hub's call is the reply the
    call's listener waits for, and it settles the promise accordingly. *)
Lemma toolResponseFrame_replyTo serverName toolName prm now rnd st body :
  toolResponseFrame {| Hub.type := "tool-response";
                       Hub.requestId := makeRequestId "tool_" now rnd;
                       Hub.body := body |}
  = replyTo (callListener (ToolCall serverName toolName prm) now rnd st)
      match body with Hub.result v => resultValue v | Hub.error _ => JUndefined end
      match body with
      | Hub.result _ => JUndefined
      | Hub.error message => JObj [("message", JStr message)]
      end.
Proof. reflexivity. Qed.

Lemma replyOutcome_result l (r : Calculator.CallToolResult) :
  replyOutcome l (resultValue r) JUndefined = Fulfilled (resultValue r).
Proof. reflexivity. Qed.

Lemma replyOutcome_error serverName toolName prm now rnd st message :
  replyOutcome (callListener (ToolCall serverName toolName prm) now rnd st)
    JUndefined (JObj [("message", JStr message)])
  = callOutcome (Throw message).
Proof.
  unfold replyOutcome, callOutcome, errorMessage. cbn.
  destruct message; reflexivity.
Qed.

(** The dashboard receives the hub's [tool-response] for a call it issued:
    the call's promise is settled from the frame. *)
Lemma tool_response_settles st sock serverName toolName prm now now' rnd :
  wf st -> ws st = Some sock -> readyState sock = OPEN ->
  let c := ToolCall serverName toolName prm in
  let p := (invoke c now rnd st).1 in
  let st1 := (invoke c now rnd st).2 in
  issued st st1 p ->
  forall body,
    promises (step st1 (SocketMessage now'
                (Some (toolResponseFrame
                         {| Hub.type := "tool-response";
                            Hub.requestId := makeRequestId "tool_" now rnd;
                            Hub.body := body |})))) !! p
    = Some (replyOutcome (callListener c now rnd st)
              match body with Hub.result v => resultValue v | Hub.error _ => JUndefined end
              match body with
              | Hub.result _ => JUndefined
              | Hub.error message => JObj [("message", JStr message)]
              end).
Proof.
  intros Hwf Hs Hopen c p st1 Hiss body. unfold c.
  rewrite (toolResponseFrame_replyTo serverName toolName prm now rnd st body).
  now destruct (issued_reply_facts st sock c now rnd now'
                  match body with Hub.result v => resultValue v | Hub.error _ => JUndefined end
                  match body with
                  | Hub.result _ => JUndefined
                  | Hub.error message => JObj [("message", JStr message)]
                  end Hwf Hs Hopen Hiss) as [Hout _].
Qed.

End RoundTrip.

(** X17. The promise of [executeTool] reports the hub's outcome.
    Let a call of [executeTool] go to the backend over the open socket. The
    frame it sends carries the request id, the server and tool names and
    the parameters. Let the hub handle that frame in
    [executeToolFromDashboard] while its socket to the dashboard is open,
    [args] being the parameters as the hub read them, and let the
    dashboard receive the hub's [tool-response] frame. Then the promise is
    settled as the hub's call went: rejected with [Server ... not found]
    or [Server ... is not connected] when the hub has no such server or
    the server is not connected; fulfilled with the tool's result when
    [server.client.callTool] returns; rejected with the message of the
    error when it throws, and with [Tool execution failed] when that
    message is empty. *)
Theorem tool_call_reports_hub_outcome `{JsEngine}
    (st : HookState) (sock : WebSocket) (serverName toolName : string) (prm : jsval)
    (now now' : Z) (rnd : string)
    (args : option (list (string * jsval))) (servers : gmap string Hub.ServerEntry) :
  wf st -> ws st = Some sock -> readyState sock = OPEN ->
  let c := ToolCall serverName toolName prm in
  let p := (invoke c now rnd st).1 in
  let st1 := (invoke c now rnd st).2 in
  issued st st1 p ->
  let requestId := makeRequestId "tool_" now rnd in
  sent st1 = sent st ++ [SendExecuteTool requestId serverName toolName prm]
  /\ exists reply,
       Hub.executeToolFromDashboard 1 requestId serverName toolName args servers
       = Some reply
       /\ promises (step st1 (SocketMessage now' (Some (toolResponseFrame reply)))) !! p
          = Some match servers !! serverName with
                 | None => Rejected (JStr ("Server " +:+ serverName +:+ " not found"))
                 | Some server =>
                     if Hub.connected server
                     then callOutcome
                            (Hub.callTool server
                               {| Calculator.name := toolName;
                                  Calculator.arguments := args |})
                     else Rejected
                            (JStr ("Server " +:+ serverName +:+ " is not connected"))
                 end.
Proof.
  intros Hwf Hs Hopen c p st1 Hiss requestId.
  split.
  { pose proof Hiss as Hiss'. apply invoke_issued_iff in Hiss' as [Hmiss Hfree].
    now destruct (invoke_sends c now rnd st sock Hs Hopen Hmiss Hfree) as [_ Hsent]. }
  pose proof (tool_response_settles st sock serverName toolName prm now now' rnd
                Hwf Hs Hopen Hiss) as Hreply.
  fold c p st1 requestId in Hreply.
  unfold Hub.executeToolFromDashboard. cbn [Z.eqb Pos.eqb].
  destruct (servers !! serverName) as [server |].
  - destruct (Hub.connected server); cbn [negb].
    + destruct (Hub.callTool server _) as [r | message]; eexists; (split; [reflexivity |]);
        rewrite Hreply.
      * reflexivity.
      * unfold c. now rewrite replyOutcome_error.
    + eexists; split; [reflexivity |]. rewrite Hreply. reflexivity.
  - eexists; split; [reflexivity |]. rewrite Hreply. reflexivity.
Qed.
Lemma tool_call_reports_hub_outcome_witness :
  let st := openHook (H := sampleEngine) in
  let serverName := "calculator-server" in
  let toolName := "add" in
  let args := Some [("a", JNum (num_of_Z 5)); ("b", JNum (num_of_Z 3))] in
  let servers : gmap string Hub.ServerEntry :=
    {[ "calculator-server" := calculatorEntry (H := sampleEngine) ]} in
  let c := ToolCall serverName toolName addParams in
  let p := (invoke (H := sampleEngine) c 4000 "k3x9q2m1z" st).1 in
  let st1 := (invoke (H := sampleEngine) c 4000 "k3x9q2m1z" st).2 in
  let requestId := makeRequestId "tool_" 4000 "k3x9q2m1z" in
  sent st1 = sent st ++ [SendExecuteTool requestId serverName toolName addParams]
  /\ exists reply,
       Hub.executeToolFromDashboard 1 requestId serverName toolName args servers
       = Some reply
       /\ promises (step (H := sampleEngine) st1
                      (SocketMessage 4100 (Some (toolResponseFrame reply)))) !! p
          = Some match servers !! serverName with
                 | None => Rejected (JStr ("Server " +:+ serverName +:+ " not found"))
                 | Some server =>
                     if Hub.connected server
                     then callOutcome
                            (Hub.callTool server
                               {| Calculator.name := toolName;
                                  Calculator.arguments := args |})
                     else Rejected
                            (JStr ("Server " +:+ serverName +:+ " is not connected"))
                 end.
Proof.
  intros st serverName toolName args servers c p st1 requestId.
  apply (tool_call_reports_hub_outcome (H := sampleEngine) st openSocket serverName
           toolName addParams 4000 4100 "k3x9q2m1z" args servers).
  - apply wf_reachable.
  - vm_compute. reflexivity.
  - reflexivity.
  - split; vm_compute; reflexivity.
Defined.
(** X18. A failure of a calculator tool is recorded as a success.
    Let the tool executor's call of [executeTool] reach, through the hub, a
    connected calculator server whose handler fails with [message]
    (arguments missing, an unknown tool, a division by zero, the square
    root of a negative number). The handler catches the error and answers
    with an [isError] result, the hub relays it as the [result] of its
    [tool-response], and the dashboard fulfils the promise with it: the
    promise is not rejected. [handleExecute] therefore marks the execution
    [success], with the error text inside its result. *)
Theorem calculator_failure_is_recorded_as_success `{JsEngine}
    (st : HookState) (sock : WebSocket) (serverName toolName : string) (prm : jsval)
    (now now' : Z) (rnd : string)
    (args : option (list (string * jsval))) (servers : gmap string Hub.ServerEntry)
    (message executionId : string) (history : list ToolExecutor.Execution) :
  wf st -> ws st = Some sock -> readyState sock = OPEN ->
  servers !! serverName = Some calculatorEntry ->
  Calculator.callTool_try {| Calculator.name := toolName; Calculator.arguments := args |}
  = Throw message ->
  let c := ToolCall serverName toolName prm in
  let p := (invoke c now rnd st).1 in
  let st1 := (invoke c now rnd st).2 in
  issued st st1 p ->
  let failure :=
    JObj [("content", JArr [JObj [("type", JStr "text");
                                  ("text", JStr ("Error: " +:+ message))]]);
          ("isError", JBool true)] in
  exists reply,
    Hub.executeToolFromDashboard 1 (makeRequestId "tool_" now rnd) serverName toolName
      args servers = Some reply
    /\ promises (step st1 (SocketMessage now' (Some (toolResponseFrame reply)))) !! p
       = Some (Fulfilled failure)
    /\ Forall (fun exec =>
                 ToolExecutor.id exec = executionId ->
                 ToolExecutor.status exec = ToolExecutor.success
                 /\ ToolExecutor.result exec = ToolExecutor.Response failure)
         (ToolExecutor.handleExecute_finish executionId (Fulfilled failure) history).
Proof.
  intros Hwf Hs Hopen Hsrv Hthrow c p st1 Hiss failure.
  pose proof (tool_response_settles st sock serverName toolName prm now now' rnd
                Hwf Hs Hopen Hiss) as Hreply.
  fold c p st1 in Hreply.
  unfold Hub.executeToolFromDashboard. rewrite Hsrv.
  cbn [calculatorEntry Hub.connected Hub.callTool negb Z.eqb Pos.eqb].
  eexists. split; [reflexivity |]. split.
  - rewrite Hreply. cbn [Hub.body]. rewrite callTool_of_try, Hthrow. reflexivity.
  - cbn [ToolExecutor.handleExecute_finish].
    induction history as [| exec history IH]; constructor; [| exact IH].
    destruct (String.eqb (ToolExecutor.id exec) executionId) eqn:Heq.
    + intros _. split; reflexivity.
    + intros Hid. apply String.eqb_neq in Heq. contradiction.
Qed.
Lemma calculator_failure_is_recorded_as_success_witness :
  let st := openHook (H := sampleEngine) in
  let serverName := "calculator-server" in
  let toolName := "divide" in
  let prm := JObj [("a", JNum (num_of_Z 1)); ("b", JNum (num_of_Z 0))] in
  let args := Some [("a", JNum (num_of_Z 1)); ("b", JNum (num_of_Z 0))] in
  let servers : gmap string Hub.ServerEntry :=
    {[ "calculator-server" := calculatorEntry (H := sampleEngine) ]} in
  let message := "Division by zero is not allowed" in
  let executionId := "exec_3900" in
  let history :=
    (ToolExecutor.handleExecute_start 3900 serverName toolName prm []).2 in
  let c := ToolCall serverName toolName prm in
  let p := (invoke (H := sampleEngine) c 4000 "k3x9q2m1z" st).1 in
  let st1 := (invoke (H := sampleEngine) c 4000 "k3x9q2m1z" st).2 in
  let failure :=
    JObj [("content", JArr [JObj [("type", JStr "text");
                                  ("text", JStr ("Error: " +:+ message))]]);
          ("isError", JBool true)] in
  exists reply,
    Hub.executeToolFromDashboard 1 (makeRequestId "tool_" 4000 "k3x9q2m1z") serverName
      toolName args servers = Some reply
    /\ promises (step (H := sampleEngine) st1
                   (SocketMessage 4100 (Some (toolResponseFrame reply)))) !! p
       = Some (Fulfilled failure)
    /\ Forall (fun exec =>
                 ToolExecutor.id exec = executionId ->
                 ToolExecutor.status exec = ToolExecutor.success
                 /\ ToolExecutor.result exec = ToolExecutor.Response failure)
         (ToolExecutor.handleExecute_finish (H := sampleEngine) executionId
            (Fulfilled failure) history).
Proof.
  intros st serverName toolName prm args servers message executionId history c p st1
    failure.
  apply (calculator_failure_is_recorded_as_success (H := sampleEngine) st openSocket
           serverName toolName prm 4000 4100 "k3x9q2m1z" args servers message
           executionId history).
  - apply wf_reachable.
  - vm_compute. reflexivity.
  - reflexivity.
  - apply lookup_singleton_eq.
  - vm_compute. reflexivity.
  - split; vm_compute; reflexivity.
Defined.
Section Banner.
Context `{JsEngine}.

Lemma onclose_disconnects code s : connected (onclose code s) = false.
Proof.
  unfold onclose. simpl.
  destruct (negb (code =? 1000)); [| reflexivity].
  now destruct (reconnectAttempts s <? maxReconnectAttempts).
Qed.

(** While the hook reports [connected], its attempt counter is 0. *)
Lemma connected_fresh_step s e :
  (connected s = true -> reconnectAttempts s = 0) ->
  connected (step s e) = true -> reconnectAttempts (step s e) = 0.
Proof.
  intros Hs.
  destruct e as [| code | code | | now data | now timeoutId | | now rnd srv tool prm
                 | now rnd srv | now rnd srv uri | now rnd srv]; cbn [step].
  - destruct (ws s) as [sock |]; [| exact Hs].
    destruct (decide (readyState sock = CONNECTING)); [| exact Hs]. reflexivity.
  - destruct (ws s) as [sock |]; [| exact Hs].
    destruct (decide (readyState sock = CLOSED)); [exact Hs |].
    rewrite onclose_disconnects. discriminate.
  - rewrite onclose_disconnects. discriminate.
  - destruct (ws s); exact Hs.
  - destruct (ws s) as [sock |]; [| exact Hs].
    destruct (decide (readyState sock = OPEN)); [| exact Hs].
    destruct (dispatch_conn now data s) as (-> & _ & ->). exact Hs.
  - destruct (timers s !! timeoutId) as [t |]; [| exact Hs].
    destruct (runTimer_conn now (callback t) (clearTimeout timeoutId s)) as (-> & _ & ->).
    exact Hs.
  - intros _. unfold manualReconnect.
    match goal with |- reconnectAttempts (connect ?x) = _ =>
      destruct (connect_conn x) as (-> & _) end.
    now destruct (reconnectTimeoutRef _).
  - unfold executeTool. now destruct (_ && _).
  - unfold listResources. destruct (truthy _); [| destruct (_ !! _)]; exact Hs.
  - exact Hs.
  - unfold listTools. destruct (truthy _); [| destruct (_ !! _)]; exact Hs.
Qed.

Lemma banner_invariant url_accepted events :
  let st := run (initial url_accepted) events in
  reconnectBounded st /\ (connected st = true -> reconnectAttempts st = 0).
Proof.
  assert (Hinit : reconnectBounded (initial url_accepted)
                  /\ (connected (initial url_accepted) = true
                      -> reconnectAttempts (initial url_accepted) = 0)).
  { split; [split |]; simpl; try discriminate.
    - unfold maxReconnectAttempts; lia.
    - intros i t Hi _. apply lookup_singleton_Some in Hi as [_ <-]. exists 1. simpl.
      unfold maxReconnectAttempts. lia. }
  simpl. revert Hinit. generalize (initial url_accepted).
  induction events as [| e events IH]; intros s Hs; [exact Hs |].
  apply IH. destruct Hs as [Hb Hc]. split.
  - now apply reconnectBounded_step.
  - now apply connected_fresh_step.
Qed.

End Banner.

(** X19. What the connection banner shows. The banner is given the
    hook's [connected], [reconnectAttempts] and [maxReconnectAttempts]. In
    every state the mounted hook can reach it shows one of four things.
    Connected (the counter is then 0): a green dot, [Connected to MCP
    Client], no hint. Not connected with the counter at 0: a red dot and
    frame, [Disconnected from MCP Client], the hint to start the client.
    Not connected with the counter k from 1 to 4: a yellow dot and frame,
    [Reconnecting... (k/5)], the same hint. Not connected with the counter
    at 5: a red dot in a yellow frame, [Disconnected from MCP Client] and
    [Connection failed. Check if MCP client is running.] *)
Theorem banner_shows_connection_state `{JsEngine} (url_accepted : bool)
    (events : list Event) :
  let st := run (initial url_accepted) events in
  let props := banner st in
  let k := reconnectAttempts st in
  if connected st
  then k = 0
       /\ ConnectionStatus.getStatusColor props = "bg-green-500"
       /\ ConnectionStatus.frameClass props = "bg-green-50 border border-green-200"
       /\ ConnectionStatus.getStatusText props = "Connected to MCP Client"
       /\ ConnectionStatus.hint props = None
  else (k = 0
        /\ ConnectionStatus.getStatusColor props = "bg-red-500"
        /\ ConnectionStatus.frameClass props = "bg-red-50 border border-red-200"
        /\ ConnectionStatus.getStatusText props = "Disconnected from MCP Client"
        /\ ConnectionStatus.hint props
           = Some "Make sure the MCP client is running on port 8081")
       \/ (1 <= k <= 4
           /\ ConnectionStatus.getStatusColor props = "bg-yellow-500"
           /\ ConnectionStatus.frameClass props = "bg-yellow-50 border border-yellow-200"
           /\ ConnectionStatus.getStatusText props
              = "Reconnecting... (" +:+ pretty k +:+ "/5)"
           /\ ConnectionStatus.hint props
              = Some "Make sure the MCP client is running on port 8081")
       \/ (k = 5
           /\ ConnectionStatus.getStatusColor props = "bg-red-500"
           /\ ConnectionStatus.frameClass props = "bg-yellow-50 border border-yellow-200"
           /\ ConnectionStatus.getStatusText props = "Disconnected from MCP Client"
           /\ ConnectionStatus.hint props
              = Some "Connection failed. Check if MCP client is running.").
Proof.
  intros st props k.
  destruct (banner_invariant url_accepted events) as [[Hr _] Hc].
  fold st in Hr, Hc. fold k in Hr, Hc.
  unfold ConnectionStatus.getStatusColor, ConnectionStatus.frameClass,
    ConnectionStatus.getStatusText, ConnectionStatus.hint, props, banner.
  cbn [ConnectionStatus.connected ConnectionStatus.reconnectAttempts
       ConnectionStatus.maxReconnectAttempts].
  fold k. unfold maxReconnectAttempts in *.
  destruct (connected st).
  - repeat split. now apply Hc.
  - assert (Hk : k = 0 \/ 1 <= k <= 4 \/ k = 5) by lia.
    destruct Hk as [Hk | [Hk | Hk]].
    + left. rewrite Hk. repeat split.
    + right. left.
      assert (H0 : (0 <? k) = true) by (apply Z.ltb_lt; lia).
      assert (H5 : (k <? 5) = true) by (apply Z.ltb_lt; lia).
      assert (H5' : (5 <=? k) = false) by (apply Z.leb_gt; lia).
      rewrite H0, H5, H5'. repeat split; try lia.
    + right. right. rewrite Hk. repeat split.
Qed.
(** X20. The last automatic retry is announced as a failure. Let
    the socket close, not with code 1000, when four automatic attempts have
    been counted. The close handler arms the fifth retry, 6000 ms ahead,
    and counts it; the banner, which compares the counter with the
    maximum, already reads [Disconnected from MCP Client] with the hint
    [Connection failed. Check if MCP client is running.] while that retry
    is pending. When the timer comes due the hook connects once more. *)
Theorem last_retry_is_shown_as_failure `{JsEngine}
    (st : HookState) (sock : WebSocket) (code : Z) :
  ws st = Some sock -> readyState sock <> CLOSED -> code <> 1000 ->
  reconnectAttempts st = 4 ->
  let st' := step st (SocketClose code) in
  timers st' !! nextTimer st = Some {| delay := 6000; callback := ConnectCallback |}
  /\ reconnectTimeoutRef st' = Some (nextTimer st)
  /\ ConnectionStatus.getStatusText (banner st') = "Disconnected from MCP Client"
  /\ ConnectionStatus.hint (banner st')
     = Some "Connection failed. Check if MCP client is running."
  /\ forall now,
       url_ok st = true ->
       exists sock',
         ws (step st' (TimerFires now (nextTimer st))) = Some sock'
         /\ readyState sock' = CONNECTING.
Proof.
  intros Hs Hopen Hcode Hk st'.
  assert (Hst' : st' = onclose code (set_readyState CLOSED st)).
  { subst st'. cbn [step]. rewrite Hs. now rewrite decide_False. }
  assert (Hne : negb (code =? 1000) = true)
    by (apply negb_true_iff, Z.eqb_neq; exact Hcode).
  rewrite Hst'. unfold onclose. rewrite Hne. simpl. rewrite Hk. simpl.
  split; [now rewrite lookup_insert_eq |].
  split; [reflexivity |].
  unfold ConnectionStatus.getStatusText, ConnectionStatus.hint, banner. simpl.
  split; [reflexivity |]. split; [reflexivity |].
  intros now Hurl. rewrite lookup_insert_eq. simpl.
  unfold connect. simpl. rewrite Hurl. simpl. eauto.
Qed.
Lemma last_retry_is_shown_as_failure_witness :
  let st := run (H := sampleEngine) (initial true)
              [ TimerFires 3000 1; SocketClose 1006;
                TimerFires 5000 2; SocketClose 1006;
                TimerFires 8000 3; SocketClose 1006;
                TimerFires 12000 4; SocketClose 1006;
                TimerFires 17000 5 ] in
  let st' := step (H := sampleEngine) st (SocketClose 1006) in
  timers st' !! nextTimer st = Some {| delay := 6000; callback := ConnectCallback |}
  /\ reconnectTimeoutRef st' = Some (nextTimer st)
  /\ ConnectionStatus.getStatusText (banner st') = "Disconnected from MCP Client"
  /\ ConnectionStatus.hint (banner st')
     = Some "Connection failed. Check if MCP client is running."
  /\ forall now,
       url_ok st = true ->
       exists sock',
         ws (step (H := sampleEngine) st' (TimerFires now (nextTimer st))) = Some sock'
         /\ readyState sock' = CONNECTING.
Proof.
  intros st st'.
  apply (last_retry_is_shown_as_failure (H := sampleEngine) st
           {| readyState := CONNECTING; listeners := [] |} 1006).
  - vm_compute. reflexivity.
  - discriminate.
  - lia.
  - vm_compute. reflexivity.
Defined.
Section ConfigStore.
Import ServerConfigs.

Lemma get_set key k value m :
  get k (set key value m) = if String.eqb key k then Some value else get k m.
Proof.
  induction m as [| [k' v'] m IH]; simpl.
  - reflexivity.
  - destruct (String.eqb k' key) eqn:Hk; simpl.
    + apply String.eqb_eq in Hk as ->. now destruct (String.eqb key k).
    + rewrite IH. destruct (String.eqb k' k) eqn:Hk'; [| reflexivity].
      apply String.eqb_eq in Hk' as ->. now rewrite String.eqb_sym, Hk.
Qed.

Lemma get_None key m : get key m = None <-> key ∉ map fst m.
Proof.
  induction m as [| [k v] m IH]; simpl.
  - split; [intros _; apply not_elem_of_nil | reflexivity].
  - rewrite not_elem_of_cons. destruct (String.eqb k key) eqn:Hk.
    + apply String.eqb_eq in Hk as ->. split; [discriminate | intros [Hne _]; congruence].
    + apply String.eqb_neq in Hk. rewrite IH. split; [auto | tauto].
Qed.

Lemma keys_set key value m :
  forall k, k ∈ map fst (set key value m) <-> k = key \/ k ∈ map fst m.
Proof.
  induction m as [| [k' v'] m IH]; intros k; simpl.
  - rewrite list_elem_of_singleton, elem_of_nil. tauto.
  - destruct (String.eqb k' key) eqn:Hk; simpl; rewrite !elem_of_cons.
    + apply String.eqb_eq in Hk as ->. tauto.
    + rewrite IH. tauto.
Qed.

Lemma keyed_set key value m :
  ServerConfigs.name value = key -> keyed m -> keyed (set key value m).
Proof.
  intros Hname [Hnd Hall]. split.
  - clear Hall. induction m as [| [k' v'] m IH]; simpl.
    + repeat constructor. apply not_elem_of_nil.
    + apply NoDup_cons in Hnd as [Hnotin Hnd].
      destruct (String.eqb k' key) eqn:Hk; simpl.
      * apply String.eqb_eq in Hk as ->. now apply NoDup_cons.
      * apply String.eqb_neq in Hk. apply NoDup_cons. split; [| auto].
        rewrite keys_set. intros [-> | Hin]; [congruence | contradiction].
  - clear Hnd. induction Hall as [| [k' v'] m Hkv Hall IH]; simpl.
    + now repeat constructor.
    + destruct (String.eqb k' key); constructor; auto.
Qed.

Lemma delete_subset key m kv : kv ∈ delete key m -> kv ∈ m.
Proof.
  induction m as [| [k v] m IH]; simpl; [auto |].
  destruct (String.eqb k key); rewrite ?elem_of_cons; [auto |].
  intros [-> | Hin]; auto.
Qed.

Lemma keyed_delete key m : keyed m -> keyed (delete key m).
Proof.
  intros [Hnd Hall]. split.
  - clear Hall. induction m as [| [k v] m IH]; simpl; [constructor |].
    apply NoDup_cons in Hnd as [Hnotin Hnd].
    destruct (String.eqb k key); [exact Hnd |]. simpl. apply NoDup_cons. split; [| auto].
    intros Hin. apply Hnotin. apply list_elem_of_fmap in Hin as (kv & -> & Hin).
    apply list_elem_of_fmap. exists kv. split; [reflexivity |].
    now apply (delete_subset key).
  - apply Forall_forall. intros kv Hin. apply delete_subset in Hin.
    revert kv Hin. now apply Forall_forall.
Qed.

Lemma get_keyed key config m : keyed m -> get key m = Some config -> name config = key.
Proof.
  intros [_ Hall]. induction Hall as [| [k v] m Hkv Hall IH]; simpl; [discriminate |].
  destruct (String.eqb k key) eqn:Hk; [| exact IH].
  apply String.eqb_eq in Hk as ->. now intros [= <-].
Qed.

Lemma keyed_load file m : keyed m -> keyed (loadServerConfigs file m).
Proof.
  intros Hm. unfold loadServerConfigs.
  assert (Hb : keyed (fold_left (fun m config => set (name config) config m)
                        builtInServers m)).
  { revert m Hm. generalize builtInServers.
    intros cs. induction cs as [| c cs IH]; intros m Hm; simpl; [exact Hm |].
    apply IH. now apply keyed_set. }
  destruct file as [configs |]; [| exact Hb].
  revert Hb. generalize (fold_left (fun m config => set (name config) config m)
                           builtInServers m).
  induction configs as [| c cs IH]; intros m' Hm'; simpl; [exact Hm' |].
  apply IH. destruct (negb _); [now apply keyed_set | exact Hm'].
Qed.

Lemma keyed_step m e : keyed m -> keyed (step m e).
Proof.
  intros Hm. destruct e as [config servers_has | serverId | serverId value]; simpl.
  - unfold addServerFromDashboard.
    destruct (_ || _); [exact Hm |]. destruct (_ || _); [exact Hm |].
    now apply keyed_set.
  - now apply keyed_delete.
  - unfold toggleServerFromDashboard.
    destruct (get serverId m) as [config |] eqn:Hget; [| exact Hm].
    apply keyed_set; [| exact Hm]. simpl. now apply (get_keyed serverId config m).
Qed.

Lemma keyed_run m events : keyed m -> keyed (run m events).
Proof.
  revert m. induction events as [| e events IH]; intros m Hm; [exact Hm |].
  apply IH. now apply keyed_step.
Qed.

(** Loading a list of configurations none of which is filtered out. *)
Lemma get_load_snoc k c cs m0 :
  let f := fun (m : ConfigMap) config =>
             if negb (String.prefix "test-" (name config))
             then set (name config) config m else m in
  get k (fold_left f (cs ++ [c]) m0)
  = if negb (String.prefix "test-" (name c)) && String.eqb (name c) k
    then Some c else get k (fold_left f cs m0).
Proof.
  intros f. rewrite fold_left_app. simpl. unfold f at 1.
  destruct (negb _); simpl; [| reflexivity]. apply get_set.
Qed.

Lemma save_snoc m k c :
  saveServerConfigs (m ++ [(k, c)])
  = saveServerConfigs m ++ (if persisted c then [c] else []).
Proof.
  unfold saveServerConfigs, values. rewrite map_app, List.filter_app. simpl.
  unfold persisted. now destruct (_ && _).
Qed.

Lemma get_snoc key m k c :
  get key (m ++ [(k, c)])
  = match get key m with
    | Some v => Some v
    | None => if String.eqb k key then Some c else None
    end.
Proof.
  induction m as [| [k' v'] m IH]; simpl; [reflexivity |].
  now destruct (String.eqb k' key).
Qed.

(** What is found under a key after the saved configurations are loaded
    over a map [m0]. *)
Lemma get_load_save k m m0 :
  keyed m ->
  get k (fold_left (fun (m : ConfigMap) config =>
                      if negb (String.prefix "test-" (name config))
                      then set (name config) config m else m)
           (saveServerConfigs m) m0)
  = match get k m with
    | Some config => if persisted config then Some config else get k m0
    | None => get k m0
    end.
Proof.
  induction m as [| [k' c'] m IH] using rev_ind; intros [Hnd Hall]; [reflexivity |].
  rewrite map_app in Hnd. apply NoDup_app in Hnd as (Hnd & Hdisj & _).
  apply Forall_app in Hall as [Hall Hc']. apply Forall_inv in Hc'. simpl in Hc'.
  specialize (IH (conj Hnd Hall)).
  rewrite save_snoc, get_snoc.
  destruct (persisted c') eqn:Hp.
  - rewrite get_load_snoc.
    assert (Hnt : negb (String.prefix "test-" (name c')) = true)
      by (unfold persisted in Hp; now apply andb_true_iff in Hp as [_ Hp]).
    rewrite Hnt, Hc'. simpl.
    destruct (String.eqb k' k) eqn:Hk.
    + apply String.eqb_eq in Hk as ->.
      assert (Hnone : get k m = None).
      { apply get_None. intros Hin. apply (Hdisj k Hin). simpl. apply list_elem_of_here. }
      now rewrite Hnone, Hp.
    + rewrite IH. now destruct (get k m).
  - rewrite app_nil_r, IH.
    destruct (get k m) as [v |] eqn:Hget; [reflexivity |].
    destruct (String.eqb k' k); [now rewrite Hp | reflexivity].
Qed.

End ConfigStore.

(** X21. What a restart of the hub makes of the server
    configurations. Start the hub on any configuration file, let the
    server manager add, remove and toggle servers, each change being
    saved, and start the hub again on the saved file. A configuration
    that is in the map, is not marked built-in and whose name does not
    begin with [test-] is found again as it was. Under every other name
    the restarted hub has what a hub without a file has: the built-in
    configuration of that name, or nothing. So a built-in server that was
    disabled or removed is back and enabled, and a server named [test-...]
    or one sent with [isBuiltIn] set is gone. *)
Theorem configs_after_restart (file : option (list ServerConfigs.ServerConfig))
    (events : list ServerConfigs.Event) (key : string) :
  let serverConfigs :=
    ServerConfigs.run (ServerConfigs.loadServerConfigs file []) events in
  let restarted :=
    ServerConfigs.loadServerConfigs
      (Some (ServerConfigs.saveServerConfigs serverConfigs)) [] in
  ServerConfigs.get key restarted
  = match ServerConfigs.get key serverConfigs with
    | Some config =>
        if ServerConfigs.persisted config then Some config
        else ServerConfigs.get key (ServerConfigs.loadServerConfigs None [])
    | None => ServerConfigs.get key (ServerConfigs.loadServerConfigs None [])
    end.
Proof.
  intros serverConfigs restarted.
  assert (Hk : keyed serverConfigs).
  { apply keyed_run, keyed_load. split; constructor. }
  subst restarted. unfold ServerConfigs.loadServerConfigs at 1.
  now rewrite get_load_save.
Qed.
